(** * SourceDeblendTask: the deblending orchestrator of obs_subaru

    A shallow embedding of [python/lsst/meas/deblender/deblend.py]:
    the configuration, the schema keys added by [__init__], the catalog
    the task mutates in place, and the method [deblend] with its two
    loops.  The pixel-level routine [lsst.meas.deblender.baseline.deblend],
    the PSF model and the image statistics are collaborators that live
    outside the repository; they enter as data (a function from the call's
    arguments to its outcome, records with the queried fields).

    Python floats are binary64 values: they are modelled by Rocq's
    primitive floats.  Every call the task makes on a collaborator (log,
    catalog, hooks, external routine) is recorded, in order, in a trace.
    The decorator [pipeBase.timeMethod] only logs timings and is left out.

    The outer loop iterates over the catalog while it appends to it; how
    the catalog's iterator behaves then is a parameter of the loop. *)

From Stdlib Require Import Floats.PrimFloat ZArith Lia.
From stdpp Require Import gmap strings list.

Local Open Scope Z_scope.
Local Open Scope nat_scope.

(** ** Geometry, footprints and the PSF *)

Record Peak := { getIx : Z; getIy : Z }.

Record Box2I := { getMinX : Z; getMinY : Z; getMaxX : Z; getMaxY : Z }.

(** A footprint: only the peak list and the bounding box are read by the
    task.  A heavy footprint (a flux portion) is a footprint as well. *)
Record Footprint := { getPeaks : list Peak; getBBox : Box2I }.

Record Point2D := { getX : float; getY : float }.

Record Quadrupole := { getDeterminantRadius : float }.

(** Modelled from the spec: the PSF model (lsst.afw.detection.Psf) is an
    external collaborator that "supports a shape/size query at an arbitrary
    footprint location"; [computeShape] without a position uses the
    model's average position. *)
Record Psf := { getAveragePosition : Point2D; shapeAt : Point2D -> Quadrupole }.

Definition computeShape (psf : Psf) (position : option Point2D) : Quadrupole :=
  match position with
  | Some p => shapeAt psf p
  | None => shapeAt psf (getAveragePosition psf)
  end.

(** The only thing the task reads from the masked image is
    [makeStatistics(mi.getVariance(), mi.getMask(), MEDIAN).getValue(MEDIAN)]. *)
Record MaskedImage := { medianVariance : float }.

Record Exposure := { getMaskedImage : MaskedImage }.

(** ** Configuration (class SourceDeblendConfig) *)

Inductive EdgeHandling := EdgeClip | EdgeRamp | EdgeNoclip.

Inductive StrayFluxPolicy := StrayNecessary | StrayAlways | StrayNever.

Record SourceDeblendConfig := {
  edgeHandling : EdgeHandling;
  strayFluxToPointSources : StrayFluxPolicy;
  findStrayFlux : bool;
  assignStrayFlux : bool;
  clipStrayFluxFraction : float;
  psfChisq1 : float;
  psfChisq2 : float;
  psfChisq2b : float;
  maxNumberOfPeaks : Z;
  tinyFootprintSize : Z
}.

(** The defaults of the fields. 0.001 is the binary64 value closest to it. *)
Definition defaultConfig : SourceDeblendConfig := {|
  edgeHandling := EdgeRamp;
  strayFluxToPointSources := StrayNecessary;
  findStrayFlux := true;
  assignStrayFlux := true;
  clipStrayFluxFraction := 0x1.0624dd2f1a9fcp-10%float;
  psfChisq1 := 1.5%float;
  psfChisq2 := 1.5%float;
  psfChisq2b := 1.5%float;
  maxNumberOfPeaks := 0%Z;
  tinyFootprintSize := 2%Z
|}.

Definition EdgeHandling_eqb (a b : EdgeHandling) : bool :=
  match a, b with
  | EdgeClip, EdgeClip | EdgeRamp, EdgeRamp | EdgeNoclip, EdgeNoclip => true
  | _, _ => false
  end.

(** ** The external routine: arguments and result *)

Record DeblendArgs := {
  arg_fp : Footprint;
  arg_mi : MaskedImage;
  arg_psf : Psf;
  arg_psf_fwhm : float;
  arg_sigma1 : float;
  arg_psfChisqCut1 : float;
  arg_psfChisqCut2 : float;
  arg_psfChisqCut2b : float;
  arg_maxNumberOfPeaks : Z;
  arg_strayFluxToPointSources : StrayFluxPolicy;
  arg_assignStrayFlux : bool;
  arg_findStrayFlux : bool;
  arg_rampFluxAtEdge : bool;
  arg_patchEdges : bool;
  arg_tinyFootprintSize : Z;
  arg_clipStrayFluxFraction : float
}.

(** One per-peak outcome of the result ([res.peaks[j]]). *)
Record PerPeak := {
  skip : bool;
  getFluxPortion : option Footprint;
  deblendedAsPsf : bool;
  strayFlux : option (list Footprint);
  psfFitCenter : float * float;
  psfFitFlux : float;
  hasRampedTemplate : bool;
  patched : bool
}.

Record DeblendResult := { peaks : list PerPeak }.

(** An instance of Python's [Exception], with its message. *)
Record Exception := { message : string }.

Inductive DeblendOutcome :=
| Returns (res : DeblendResult)
| Raises (e : Exception).

(** The task object: its configuration and the routine it imports from
    [lsst.meas.deblender.baseline]. *)
Record SourceDeblendTask := {
  config : SourceDeblendConfig;
  baseline_deblend : DeblendArgs -> DeblendOutcome
}.

(** ** Schema fields and catalog records *)

Inductive Value :=
| VInt (z : Z)
| VFlag (b : bool)
| VPointD (x y : float)
| VD (x : float).

(** The keys returned by [schema.addField] in [__init__], by field name. *)
Definition nChildKey : string := "deblend.nchild".
Definition psfKey : string := "deblend.deblended-as-psf".
Definition psfCenterKey : string := "deblend.psf-center".
Definition psfFluxKey : string := "deblend.psf-flux".
Definition tooManyPeaksKey : string := "deblend.too-many-peaks".
Definition deblendFailedKey : string := "deblend.failed".
Definition deblendSkippedKey : string := "deblend.skipped".
Definition deblendRampedTemplateKey : string := "deblend.ramped_template".
Definition deblendPatchedTemplateKey : string := "deblend.patched_template".
Definition hasStrayFluxKey : string := "deblend.has_stray_flux".

(** A source record.  [fields] holds the schema fields that have been
    written; a field that was never written reads as its default. *)
Record SourceRecord := {
  getId : Z;
  getParent : Z;
  getFootprint : Footprint;
  fields : gmap string Value
}.

Definition getFlag (r : SourceRecord) (key : string) : bool :=
  match fields r !! key with
  | Some (VFlag b) => b
  | _ => false
  end.

Definition getInt (r : SourceRecord) (key : string) : Z :=
  match fields r !! key with
  | Some (VInt z) => z
  | _ => 0%Z
  end.

Definition written (r : SourceRecord) (key : string) : bool :=
  bool_decide (is_Some (fields r !! key)).

Definition setField (key : string) (v : Value) (r : SourceRecord) : SourceRecord :=
  {| getId := getId r; getParent := getParent r; getFootprint := getFootprint r;
     fields := <[key := v]> (fields r) |}.

Definition withParent (p : Z) (r : SourceRecord) : SourceRecord :=
  {| getId := getId r; getParent := p; getFootprint := getFootprint r;
     fields := fields r |}.

Definition withFootprint (fp : Footprint) (r : SourceRecord) : SourceRecord :=
  {| getId := getId r; getParent := getParent r; getFootprint := fp;
     fields := fields r |}.

Definition emptyFootprint : Footprint :=
  {| getPeaks := []; getBBox := {| getMinX := 0; getMinY := 0; getMaxX := 0; getMaxY := 0 |} |}.

(** The record [addNew] creates: a new id, no parent, nothing written. *)
Definition newRecord (id : Z) : SourceRecord :=
  {| getId := id; getParent := 0%Z; getFootprint := emptyFootprint; fields := ∅ |}.

(** ** The trace of calls on collaborators *)

Inductive LogMsg :=
| MsgDeblending (n : nat)
| MsgParent (id : Z) (npeaks : nat)
| MsgError (id : Z) (e : Exception)
| MsgSkipOutOfBounds (ix iy : Z)
| MsgSkipNoFluxPortion (ix iy : Z) (child total : nat)
| MsgDeblended (n0 nparents : nat) (nchildren : Z) (n1 : nat).

Inductive Event :=
| EvLogInfo (m : LogMsg)
| EvLogDebug (m : LogMsg)
| EvLogWarn (m : LogMsg)
| EvPreHook (i : nat) (fp : Footprint) (psf_fwhm sigma1 : float)
| EvDeblend (a : DeblendArgs)
| EvSet (row : nat) (key : string) (v : Value)
| EvAddNew (row : nat) (id : Z)
| EvSetParent (row : nat) (parent : Z)
| EvSetFootprint (row : nat) (fp : Footprint)
| EvPrintExc (e : Exception)
| EvPostHook (i npre : nat) (kids : list nat) (res : DeblendResult).

(** ** The world: the catalog [srcs] and the trace

    Modelled from the spec: the catalog (lsst.afw.table.SourceCatalog) is
    an external collaborator, "a mutable, append-only, ordered catalog"
    whose ids "are monotonically assigned"; [nextId] is its id factory.
    Rows are only appended, so the record a Python variable refers to is
    the row at the position it was obtained from. *)
Record World := { rows : list SourceRecord; nextId : Z; trace : list Event }.

Inductive PyErr := IndexError | ValueError.

Inductive Res (A : Type) :=
| Ok (a : A) (w : World)
| Raise (e : PyErr) (w : World).
Arguments Ok {A} a w.
Arguments Raise {A} e w.

Definition M (A : Type) : Type := World -> Res A.

Definition ret {A} (a : A) : M A := fun w => Ok a w.

Definition bind {A B} (m : M A) (k : A -> M B) : M B :=
  fun w => match m w with
           | Ok a w' => k a w'
           | Raise e w' => Raise e w'
           end.

Definition raise {A} (e : PyErr) : M A := fun w => Raise e w.

Notation "'call' x '<-' m '>>' k" := (bind m (fun x => k))
  (at level 10, x name, m at level 100, k at level 200).
Notation "'exec' m '>>' k" := (bind m (fun _ => k))
  (at level 10, m at level 100, k at level 200).

Definition worldOf {A} (r : Res A) : World :=
  match r with Ok _ w => w | Raise _ w => w end.

Definition emit (ev : Event) : M unit :=
  fun w => Ok tt {| rows := rows w; nextId := nextId w; trace := trace w ++ [ev] |}.

Definition updRows (f : list SourceRecord -> list SourceRecord) : M unit :=
  fun w => Ok tt {| rows := f (rows w); nextId := nextId w; trace := trace w |}.

(** [len(srcs)] *)
Definition len_srcs : M nat := fun w => Ok (length (rows w)) w.

(** [rec.set(key, v)] on the record at position [row]. *)
Definition set (row : nat) (key : string) (v : Value) : M unit :=
  exec updRows (alter (setField key v) row) >>
  emit (EvSet row key v).

(** [srcs.addNew()]: appends a fresh record and returns (the position of) it. *)
Definition addNew : M nat :=
  fun w =>
    let row := length (rows w) in
    Ok row {| rows := rows w ++ [newRecord (nextId w)];
              nextId := (nextId w + 1)%Z;
              trace := trace w ++ [EvAddNew row (nextId w)] |}.

Definition setParent (row : nat) (p : Z) : M unit :=
  exec updRows (alter (withParent p) row) >>
  emit (EvSetParent row p).

Definition setFootprint (row : nat) (fp : Footprint) : M unit :=
  exec updRows (alter (withFootprint fp) row) >>
  emit (EvSetFootprint row fp).

(** [pks[j]]: out of range raises IndexError. *)
Definition index (pks : list Peak) (j : nat) : M Peak :=
  match pks !! j with
  | Some pk => ret pk
  | None => raise IndexError
  end.

(** [math.sqrt]: a negative argument raises ValueError. *)
Definition math_sqrt (x : float) : M float :=
  if PrimFloat.ltb x 0%float then raise ValueError else ret (PrimFloat.sqrt x).

(** ** The methods of SourceDeblendTask *)

(** [_getPsfFwhm(self, psf, bbox)]: [psf.computeShape().getDeterminantRadius() * 2.35].
    The literal is the binary64 value Python reads for 2.35. *)
Definition _getPsfFwhm (psf : Psf) (bbox : Box2I) : float :=
  PrimFloat.mul (getDeterminantRadius (computeShape psf None)) 0x1.2cccccccccccdp+1%float.

(** The two hooks: their body is [pass].  The call itself is recorded in
    the trace, like every call. *)
Definition preSingleDeblendHook (i : nat) (fp : Footprint) (psf_fwhm sigma1 : float) : M unit :=
  emit (EvPreHook i fp psf_fwhm sigma1).

Definition postSingleDeblendHook (i npre : nat) (kids : list nat) (res : DeblendResult) : M unit :=
  emit (EvPostHook i npre kids res).

(** The keyword arguments of the call [deblend(fp, mi, psf, psf_fwhm, ...)]. *)
Definition deblendArgs (cfg : SourceDeblendConfig) (fp : Footprint) (mi : MaskedImage)
    (psf : Psf) (psf_fwhm sigma1 : float) : DeblendArgs := {|
  arg_fp := fp;
  arg_mi := mi;
  arg_psf := psf;
  arg_psf_fwhm := psf_fwhm;
  arg_sigma1 := sigma1;
  arg_psfChisqCut1 := psfChisq1 cfg;
  arg_psfChisqCut2 := psfChisq2 cfg;
  arg_psfChisqCut2b := psfChisq2b cfg;
  arg_maxNumberOfPeaks := maxNumberOfPeaks cfg;
  arg_strayFluxToPointSources := strayFluxToPointSources cfg;
  arg_assignStrayFlux := assignStrayFlux cfg;
  arg_findStrayFlux := assignStrayFlux cfg || findStrayFlux cfg;
  arg_rampFluxAtEdge := EdgeHandling_eqb (edgeHandling cfg) EdgeRamp;
  arg_patchEdges := EdgeHandling_eqb (edgeHandling cfg) EdgeNoclip;
  arg_tinyFootprintSize := tinyFootprintSize cfg;
  arg_clipStrayFluxFraction := clipStrayFluxFraction cfg
|}.

(** The call of the external routine. *)
Definition call_deblend (self : SourceDeblendTask) (a : DeblendArgs) : M DeblendOutcome :=
  exec emit (EvDeblend a) >>
  ret (baseline_deblend self a).

(** The writes on a new child, lines 234-243. *)
Definition fill_child (src : SourceRecord) (child : nat) (peak : PerPeak) (heavy : Footprint) : M unit :=
  exec setParent child (getId src) >>
  exec setFootprint child heavy >>
  exec set child psfKey (VFlag (deblendedAsPsf peak)) >>
  exec set child hasStrayFluxKey (VFlag (bool_decide (is_Some (strayFlux peak)))) >>
  exec (if deblendedAsPsf peak then
          let '(cx, cy) := psfFitCenter peak in
          exec set child psfCenterKey (VPointD cx cy) >>
          set child psfFluxKey (VD (psfFitFlux peak))
        else ret tt) >>
  exec set child deblendRampedTemplateKey (VFlag (hasRampedTemplate peak)) >>
  set child deblendPatchedTemplateKey (VFlag (patched peak)).

(** The loop [for j,peak in enumerate(res.peaks)], lines 215-244, from
    position [j] on; [i] is the position of the parent [src], [pks] its
    peaks and [total] is [len(res.peaks)].  Returns [kids] and [nchild]. *)
Fixpoint for_peaks (i : nat) (src : SourceRecord) (pks : list Peak) (total : nat)
    (j : nat) (outs : list PerPeak) (kids : list nat) (nchild : nat)
    : M (list nat * nat) :=
  match outs with
  | [] => ret (kids, nchild)
  | peak :: rest =>
      if skip peak then
        call pk <- index pks j >>
        exec emit (EvLogDebug (MsgSkipOutOfBounds (getIx pk) (getIy pk))) >>
        exec set i deblendSkippedKey (VFlag true) >>
        for_peaks i src pks total (S j) rest kids nchild
      else
        match getFluxPortion peak with
        | None =>
            call pk <- index pks j >>
            exec emit (EvLogDebug (MsgSkipNoFluxPortion (getIx pk) (getIy pk) (j + 1) total)) >>
            exec set i deblendSkippedKey (VFlag true) >>
            for_peaks i src pks total (S j) rest kids nchild
        | Some heavy =>
            exec set i deblendSkippedKey (VFlag false) >>
            call child <- addNew >>
            exec fill_child src child peak heavy >>
            for_peaks i src pks total (S j) rest (kids ++ [child]) (nchild + 1)
        end
  end.

(** One turn of the loop [for i,src in enumerate(srcs)], lines 173-248;
    [src] is the record the iterator yields at position [i].  Returns the
    updated [nparents]. *)
Definition deblend_src (self : SourceDeblendTask) (mi : MaskedImage) (psf : Psf)
    (sigma1 : float) (i : nat) (src : SourceRecord) (nparents : nat) : M nat :=
  let fp := getFootprint src in
  let pks := getPeaks fp in
  if length pks <? 2 then ret nparents
  else
    let nparents := nparents + 1 in
    let bb := getBBox fp in
    let psf_fwhm := _getPsfFwhm psf bb in
    exec emit (EvLogDebug (MsgParent (getId src) (length pks))) >>
    exec preSingleDeblendHook i fp psf_fwhm sigma1 >>
    call npre <- len_srcs >>
    exec set i tooManyPeaksKey
      (VFlag (Z.gtb (Z.of_nat (length (getPeaks fp))) (maxNumberOfPeaks (config self)))) >>
    call outcome <- call_deblend self (deblendArgs (config self) fp mi psf psf_fwhm sigma1) >>
    match outcome with
    | Raises e =>
        exec emit (EvLogWarn (MsgError (getId src) e)) >>
        exec set i deblendFailedKey (VFlag true) >>
        exec emit (EvPrintExc e) >>
        ret nparents
    | Returns res =>
        exec set i deblendFailedKey (VFlag false) >>
        call kn <- for_peaks i src pks (length (peaks res)) 0 (peaks res) [] 0 >>
        exec set i nChildKey (VInt (Z.of_nat (snd kn))) >>
        exec postSingleDeblendHook i npre (fst kn) res >>
        ret nparents
    end.

(** How the iterator of the catalog behaves while rows are appended.
    The catalog class lives outside the repository, and the loop below
    leaves the choice of rows to its iterator: Python's own sequence
    iterators ask for the next position of the sequence as it is at each
    turn; an iterator written as a generator over [range(len(self))] is
    bounded by the length at the start of the loop. *)
Inductive Iteration := OverGrowingCatalog | OverRowsAtStart.

(** The row the iterator yields at position [i], if any; [n_start] is the
    number of rows when the loop started. *)
Definition next_row (it : Iteration) (n_start : nat) (w : World) (i : nat)
    : option SourceRecord :=
  match it with
  | OverGrowingCatalog => rows w !! i
  | OverRowsAtStart => if i <? n_start then rows w !! i else None
  end.

(** The loop [for i,src in enumerate(srcs)] from position [i] on: each
    turn takes the row the iterator yields and stops when there is none.
    The bound is the iterator's; [n0] of the source is not used by the
    loop.  [None] means the fuel ran out. *)
Fixpoint deblend_loop (self : SourceDeblendTask) (mi : MaskedImage) (psf : Psf)
    (sigma1 : float) (it : Iteration) (n_start : nat) (fuel : nat) (i : nat)
    (nparents : nat) (w : World) : option (Res nat) :=
  match fuel with
  | O => None
  | S fuel' =>
      match next_row it n_start w i with
      | None => Some (Ok nparents w)
      | Some src =>
          match deblend_src self mi psf sigma1 i src nparents w with
          | Ok nparents' w' =>
              deblend_loop self mi psf sigma1 it n_start fuel' (S i) nparents' w'
          | Raise e w' => Some (Raise e w')
          end
      end
  end.

(** [deblend(self, exposure, srcs, psf)]; [it] tells how the iterator of
    [srcs] behaves. *)
Definition deblend (self : SourceDeblendTask) (it : Iteration) (fuel : nat)
    (exposure : Exposure) (psf : Psf) (w : World) : option (Res unit) :=
  let prologue :=
    call n <- len_srcs >>
    exec emit (EvLogInfo (MsgDeblending n)) >>
    let mi := getMaskedImage exposure in
    call sigma1 <- math_sqrt (medianVariance mi) >>
    call n0 <- len_srcs >>
    ret (mi, sigma1, n0) in
  match prologue w with
  | Raise e w' => Some (Raise e w')
  | Ok (mi, sigma1, n0) w0 =>
      match deblend_loop self mi psf sigma1 it (length (rows w0)) fuel 0 0 w0 with
      | None => None
      | Some (Raise e w') => Some (Raise e w')
      | Some (Ok nparents w1) =>
          Some ((call n1 <- len_srcs >>
                 emit (EvLogInfo (MsgDeblended n0 nparents
                                    (Z.of_nat n1 - Z.of_nat n0) n1))) w1)
      end
  end.

(** [run(self, exposure, sources, psf)]. *)
Definition run (self : SourceDeblendTask) (it : Iteration) (fuel : nat)
    (exposure : Exposure) (psf : Psf) (w : World) : option (Res unit) :=
  deblend self it fuel exposure psf w.

(** ** What one turn does, as a function

    The effect of a piece of the loop on the world, read off the code: what
    it did to the parent row, which rows it appended, which calls it made
    and whether it ended by raising.  The lemmas below show that the
    stateful code has exactly this effect. *)

Record Effect := {
  eff_parent : SourceRecord -> SourceRecord;
  eff_children : list SourceRecord;
  eff_events : list Event;
  eff_error : option PyErr
}.

Definition apply_effect (i : nat) (e : Effect) (w : World) : World :=
  {| rows := alter (eff_parent e) i (rows w) ++ eff_children e;
     nextId := (nextId w + Z.of_nat (length (eff_children e)))%Z;
     trace := trace w ++ eff_events e |}.

Definition finish {A} (i : nat) (e : Effect) (a : A) (w : World) : Res A :=
  match eff_error e with
  | None => Ok a (apply_effect i e w)
  | Some err => Raise err (apply_effect i e w)
  end.

Definition eff_nil : Effect :=
  {| eff_parent := fun r => r; eff_children := []; eff_events := []; eff_error := None |}.

Definition eff_fail (err : PyErr) : Effect :=
  {| eff_parent := fun r => r; eff_children := []; eff_events := []; eff_error := Some err |}.

(** First the writes [f] on the parent, the new rows [ch] and the calls
    [evs], then the effect [e]. *)
Definition eff_seq (f : SourceRecord -> SourceRecord) (ch : list SourceRecord)
    (evs : list Event) (e : Effect) : Effect :=
  {| eff_parent := eff_parent e ∘ f;
     eff_children := ch ++ eff_children e;
     eff_events := evs ++ eff_events e;
     eff_error := eff_error e |}.

(** The child row of a kept peak once all its fields are written. *)
Definition fill_record (src_id : Z) (peak : PerPeak) (heavy : Footprint)
    (r : SourceRecord) : SourceRecord :=
  let r := withParent src_id r in
  let r := withFootprint heavy r in
  let r := setField psfKey (VFlag (deblendedAsPsf peak)) r in
  let r := setField hasStrayFluxKey (VFlag (bool_decide (is_Some (strayFlux peak)))) r in
  let r := if deblendedAsPsf peak then
             setField psfFluxKey (VD (psfFitFlux peak))
               (setField psfCenterKey (VPointD (fst (psfFitCenter peak)) (snd (psfFitCenter peak))) r)
           else r in
  let r := setField deblendRampedTemplateKey (VFlag (hasRampedTemplate peak)) r in
  setField deblendPatchedTemplateKey (VFlag (patched peak)) r.

Definition child_record (src_id nid : Z) (peak : PerPeak) (heavy : Footprint) : SourceRecord :=
  fill_record src_id peak heavy (newRecord nid).

Definition fill_events (src_id : Z) (row : nat) (peak : PerPeak) (heavy : Footprint)
    : list Event :=
  [EvSetParent row src_id; EvSetFootprint row heavy;
   EvSet row psfKey (VFlag (deblendedAsPsf peak));
   EvSet row hasStrayFluxKey (VFlag (bool_decide (is_Some (strayFlux peak))))]
  ++ (if deblendedAsPsf peak then
        [EvSet row psfCenterKey (VPointD (fst (psfFitCenter peak)) (snd (psfFitCenter peak)));
         EvSet row psfFluxKey (VD (psfFitFlux peak))]
      else [])
  ++ [EvSet row deblendRampedTemplateKey (VFlag (hasRampedTemplate peak));
      EvSet row deblendPatchedTemplateKey (VFlag (patched peak))].

(** The effect of [for_peaks] from position [j] on, when the catalog has
    [n] rows and the next id is [nid]. *)
Fixpoint peaks_effect (i : nat) (src_id : Z) (pks : list Peak) (total j : nat)
    (outs : list PerPeak) (n : nat) (nid : Z) : Effect :=
  match outs with
  | [] => eff_nil
  | peak :: rest =>
      if skip peak then
        match pks !! j with
        | None => eff_fail IndexError
        | Some pk =>
            eff_seq (setField deblendSkippedKey (VFlag true)) []
              [EvLogDebug (MsgSkipOutOfBounds (getIx pk) (getIy pk));
               EvSet i deblendSkippedKey (VFlag true)]
              (peaks_effect i src_id pks total (S j) rest n nid)
        end
      else
        match getFluxPortion peak with
        | None =>
            match pks !! j with
            | None => eff_fail IndexError
            | Some pk =>
                eff_seq (setField deblendSkippedKey (VFlag true)) []
                  [EvLogDebug (MsgSkipNoFluxPortion (getIx pk) (getIy pk) (j + 1) total);
                   EvSet i deblendSkippedKey (VFlag true)]
                  (peaks_effect i src_id pks total (S j) rest n nid)
            end
        | Some heavy =>
            eff_seq (setField deblendSkippedKey (VFlag false))
              [child_record src_id nid peak heavy]
              (EvSet i deblendSkippedKey (VFlag false) :: EvAddNew n nid
                 :: fill_events src_id n peak heavy)
              (peaks_effect i src_id pks total (S j) rest (S n) (nid + 1))
        end
  end.

(** A peak outcome gives a child iff it is neither skip-flagged nor
    without a flux portion. *)
Definition kept (peak : PerPeak) : bool :=
  negb (skip peak) && bool_decide (is_Some (getFluxPortion peak)).

Definition is_candidate (src : SourceRecord) : bool :=
  negb (length (getPeaks (getFootprint src)) <? 2).

Definition tooMany (self : SourceDeblendTask) (src : SourceRecord) : bool :=
  Z.gtb (Z.of_nat (length (getPeaks (getFootprint src)))) (maxNumberOfPeaks (config self)).

Definition argsFor (self : SourceDeblendTask) (mi : MaskedImage) (psf : Psf)
    (sigma1 : float) (src : SourceRecord) : DeblendArgs :=
  deblendArgs (config self) (getFootprint src) mi psf
    (_getPsfFwhm psf (getBBox (getFootprint src))) sigma1.

(** The calls a candidate's turn makes up to and including the dispatch. *)
Definition dispatch_events (self : SourceDeblendTask) (mi : MaskedImage) (psf : Psf)
    (sigma1 : float) (i : nat) (src : SourceRecord) : list Event :=
  [EvLogDebug (MsgParent (getId src) (length (getPeaks (getFootprint src))));
   EvPreHook i (getFootprint src) (_getPsfFwhm psf (getBBox (getFootprint src))) sigma1;
   EvSet i tooManyPeaksKey (VFlag (tooMany self src));
   EvDeblend (argsFor self mi psf sigma1 src)].

(** The effect of [deblend_src] at position [i], when the catalog has [n]
    rows and the next id is [nid]. *)
Definition src_effect (self : SourceDeblendTask) (mi : MaskedImage) (psf : Psf)
    (sigma1 : float) (i : nat) (src : SourceRecord) (n : nat) (nid : Z) : Effect :=
  if is_candidate src then
    match baseline_deblend self (argsFor self mi psf sigma1 src) with
    | Raises e =>
        {| eff_parent := fun r =>
             setField deblendFailedKey (VFlag true)
               (setField tooManyPeaksKey (VFlag (tooMany self src)) r);
           eff_children := [];
           eff_events := dispatch_events self mi psf sigma1 i src
             ++ [EvLogWarn (MsgError (getId src) e);
                 EvSet i deblendFailedKey (VFlag true); EvPrintExc e];
           eff_error := None |}
    | Returns res =>
        let pe := peaks_effect i (getId src) (getPeaks (getFootprint src))
                    (length (peaks res)) 0 (peaks res) n nid in
        let nchild := length (eff_children pe) in
        {| eff_parent := fun r =>
             (match eff_error pe with
              | None => setField nChildKey (VInt (Z.of_nat nchild))
              | Some _ => fun r => r
              end)
               (eff_parent pe
                  (setField deblendFailedKey (VFlag false)
                     (setField tooManyPeaksKey (VFlag (tooMany self src)) r)));
           eff_children := eff_children pe;
           eff_events := dispatch_events self mi psf sigma1 i src
             ++ [EvSet i deblendFailedKey (VFlag false)]
             ++ eff_events pe
             ++ (match eff_error pe with
                 | None => [EvSet i nChildKey (VInt (Z.of_nat nchild));
                            EvPostHook i n (seq n nchild) res]
                 | Some _ => []
                 end);
           eff_error := eff_error pe |}
    end
  else eff_nil.

Definition nparents_after (src : SourceRecord) (nparents : nat) : nat :=
  if is_candidate src then nparents + 1 else nparents.

(** ** Reading a trace *)

Definition is_catalog_write (ev : Event) : bool :=
  match ev with
  | EvSet _ _ _ | EvAddNew _ _ | EvSetParent _ _ | EvSetFootprint _ _ => true
  | _ => false
  end.

Definition is_prehook (ev : Event) : bool :=
  match ev with EvPreHook _ _ _ _ => true | _ => false end.

Definition is_posthook (ev : Event) : bool :=
  match ev with EvPostHook _ _ _ _ => true | _ => false end.

Definition is_dispatch (ev : Event) : bool :=
  match ev with EvDeblend _ => true | _ => false end.

(** The positions handed to the pre-hook, in order: the rows that were
    processed as candidates. *)
Definition candidates_of (evs : list Event) : list nat :=
  omap (fun ev => match ev with EvPreHook i _ _ _ => Some i | _ => None end) evs.

(** The calls made between world [w] and a later world [w']. *)
Definition events_since (w w' : World) : list Event :=
  drop (length (trace w)) (trace w').

(** The writes on a record that leave its id, parent link and footprint. *)
Definition fields_only (f : SourceRecord -> SourceRecord) : Prop :=
  forall r, getId (f r) = getId r /\ getParent (f r) = getParent r
            /\ getFootprint (f r) = getFootprint r.

(** The peak loop calls neither a hook nor the external routine. *)
Definition inner_event (ev : Event) : bool :=
  negb (is_prehook ev) && negb (is_posthook ev) && negb (is_dispatch ev).

(** The width the specification describes: 2.35 times the determinant
    radius of the PSF's shape queried at a given position. *)
Definition psfFwhmAt (psf : Psf) (position : Point2D) : float :=
  PrimFloat.mul (getDeterminantRadius (computeShape psf (Some position)))
    0x1.2cccccccccccdp+1%float.

(** Two worlds that differ at most in the row at position [D]. *)
Definition agree_except (D : nat) (w1 w2 : World) : Prop :=
  length (rows w1) = length (rows w2) /\ nextId w1 = nextId w2
  /\ trace w1 = trace w2
  /\ forall k, k <> D -> rows w1 !! k = rows w2 !! k.

Definition res_agree_except (D : nat) (r1 r2 : option (Res nat)) : Prop :=
  match r1, r2 with
  | None, None => True
  | Some (Ok a w1), Some (Ok b w2) => a = b /\ agree_except D w1 w2
  | Some (Raise e1 w1), Some (Raise e2 w2) => e1 = e2 /\ agree_except D w1 w2
  | _, _ => False
  end.

(** Whether the row at position [k] of a world has at least 2 peaks. *)
Definition candidate_at (w : World) (k : nat) : bool :=
  match rows w !! k with
  | Some r => is_candidate r
  | None => false
  end.

(** The position at which the iterator stops yielding rows, in a loop
    that started with [n_start] rows and ended in world [w']. *)
Definition iteration_end (it : Iteration) (n_start : nat) (w' : World) : nat :=
  match it with
  | OverGrowingCatalog => length (rows w')
  | OverRowsAtStart => n_start
  end.

(** ** Example inputs *)

Definition peakAt (x y : Z) : Peak := {| getIx := x; getIy := y |}.

Definition exampleBox : Box2I :=
  {| getMinX := 200; getMinY := 200; getMaxX := 300; getMaxY := 300 |}.

(** The centre of [exampleBox]. *)
Definition exampleBoxCentre : Point2D := {| getX := 250%float; getY := 250%float |}.

Definition footprintOf (pks : list Peak) : Footprint :=
  {| getPeaks := pks; getBBox := exampleBox |}.

(** A PSF whose shape varies over the image: radius 1 at its average
    position, the origin, and radius 2 everywhere else. *)
Definition examplePsf : Psf :=
  {| getAveragePosition := {| getX := 0%float; getY := 0%float |};
     shapeAt := fun p =>
       if PrimFloat.eqb (getX p) 0%float && PrimFloat.eqb (getY p) 0%float
       then {| getDeterminantRadius := 1%float |}
       else {| getDeterminantRadius := 2%float |} |}.

Definition exampleImage : MaskedImage := {| medianVariance := 4%float |}.

Definition exampleExposure : Exposure := {| getMaskedImage := exampleImage |}.

(** An outcome for peak [pk] with flux portion [flux]: skip-flagged when
    the peak lies left of the image, fitted as a point source when it
    lies on the first column. *)
Definition outcomeFor (pk : Peak) (flux : option Footprint) : PerPeak :=
  {| skip := Z.ltb (getIx pk) 0;
     getFluxPortion := flux;
     deblendedAsPsf := Z.eqb (getIx pk) 0;
     strayFlux := None;
     psfFitCenter := (0.5%float, 1.5%float);
     psfFitFlux := 10%float;
     hasRampedTemplate := false;
     patched := false |}.

(** A routine that gives every peak a flux portion with that one peak;
    beyond the cap [maxNumberOfPeaks] (when positive) the flux portion is
    missing. *)
Definition splitEachPeak (a : DeblendArgs) : DeblendOutcome :=
  Returns {| peaks :=
    imap (fun j pk =>
            outcomeFor pk
              (if Z.ltb 0 (arg_maxNumberOfPeaks a)
                  && Z.leb (arg_maxNumberOfPeaks a) (Z.of_nat j)
               then None else Some (footprintOf [pk])))
         (getPeaks (arg_fp a)) |}.

(** A routine that raises on a footprint whose first peak is at column 7. *)
Definition failOnSeven (a : DeblendArgs) : DeblendOutcome :=
  match getPeaks (arg_fp a) with
  | pk :: _ => if Z.eqb (getIx pk) 7 then Raises {| message := "no template" |}
               else splitEachPeak a
  | [] => splitEachPeak a
  end.

(** A routine whose first flux portion for a footprint starting at column 1
    carries two peaks. *)
Definition nestedRoutine (a : DeblendArgs) : DeblendOutcome :=
  match getPeaks (arg_fp a) with
  | [pk; pk'] =>
      if Z.eqb (getIx pk) 1 then
        Returns {| peaks := [outcomeFor pk (Some (footprintOf [peakAt 5 5; peakAt 6 6]));
                             outcomeFor pk' (Some (footprintOf [pk']))] |}
      else splitEachPeak a
  | _ => splitEachPeak a
  end.

Definition taskWith (cfg : SourceDeblendConfig) (routine : DeblendArgs -> DeblendOutcome)
    : SourceDeblendTask :=
  {| config := cfg; baseline_deblend := routine |}.

Definition detection (id : Z) (pks : list Peak) : SourceRecord :=
  {| getId := id; getParent := 0%Z; getFootprint := footprintOf pks; fields := ∅ |}.

Definition catalogOf (l : list SourceRecord) : World :=
  {| rows := l; nextId := (Z.of_nat (length l) + 1)%Z; trace := [] |}.

(** One blend of two peaks. *)
Definition oneBlend : World := catalogOf [detection 1 [peakAt 1 1; peakAt 2 2]].

(** An isolated source, a blend on which [failOnSeven] raises, a blend of
    three peaks of which one lies left of the image and one on the first column. *)
Definition threeRows : World :=
  catalogOf [detection 1 [peakAt 4 4];
             detection 2 [peakAt 7 7; peakAt 8 8];
             detection 3 [peakAt 0 3; peakAt 3 3; peakAt (-1) 3]].

Definition capTwo : SourceDeblendConfig := {|
  edgeHandling := EdgeRamp;
  strayFluxToPointSources := StrayNecessary;
  findStrayFlux := true;
  assignStrayFlux := true;
  clipStrayFluxFraction := 0x1.0624dd2f1a9fcp-10%float;
  psfChisq1 := 1.5%float;
  psfChisq2 := 1.5%float;
  psfChisq2b := 1.5%float;
  maxNumberOfPeaks := 2%Z;
  tinyFootprintSize := 2%Z
|}.

(** The row an event is about: the row written or appended, or the
    position handed to a hook. *)
Definition event_row (ev : Event) : option nat :=
  match ev with
  | EvPreHook i _ _ _ | EvPostHook i _ _ _ => Some i
  | EvSet row _ _ | EvAddNew row _ | EvSetParent row _ | EvSetFootprint row _ => Some row
  | _ => None
  end.

(** The events of a turn at position [i] of a catalog with [n] rows are
    about row [i] or about rows appended in the turn. *)
Definition about_turn (i n : nat) (ev : Event) : Prop :=
  forall k, event_row ev = Some k -> k = i \/ n <= k.

(** The row of a candidate whose dispatch raised, after its turn. *)
Definition markFailed (self : SourceDeblendTask) (src : SourceRecord) : SourceRecord :=
  setField deblendFailedKey (VFlag true)
    (setField tooManyPeaksKey (VFlag (tooMany self src)) src).

(** The calls of a turn whose dispatch raised [e]. *)
Definition failure_events (self : SourceDeblendTask) (mi : MaskedImage) (psf : Psf)
    (sigma1 : float) (i : nat) (src : SourceRecord) (e : Exception) : list Event :=
  dispatch_events self mi psf sigma1 i src
  ++ [EvLogWarn (MsgError (getId src) e); EvSet i deblendFailedKey (VFlag true); EvPrintExc e].

(** A footprint the external routine hands out as a flux portion. *)
Definition flux_portion_of (self : SourceDeblendTask) (fp : Footprint) : Prop :=
  exists a res peak,
    baseline_deblend self a = Returns res /\ peak ∈ peaks res
    /\ getFluxPortion peak = Some fp.

(** ** The fields [__init__] adds to the schema *)

Inductive FieldType := TypeInt | TypeFlag | TypePointD | TypeD.

(** A schema field: its name and type (the [doc] strings are left out). *)
Record Field := { fieldName : string; fieldType : FieldType }.

(** Modelled from the spec: the schema (lsst.afw.table.Schema) is an
    external collaborator that supports "field registration with
    documented name, type, and description prior to any run".
    [schema.addField(name, type=..., doc=...)] registers the field after
    the fields the schema holds and returns its key; what the schema does
    with a name it already holds is not modelled. *)
Definition addField (schema : list Field) (name : string) (type : FieldType)
    : list Field * string :=
  (schema ++ [{| fieldName := name; fieldType := type |}], name).

(** The key attributes [__init__] sets on the task. *)
Record TaskKeys := {
  self_nChildKey : string;
  self_psfKey : string;
  self_psfCenterKey : string;
  self_psfFluxKey : string;
  self_tooManyPeaksKey : string;
  self_deblendFailedKey : string;
  self_deblendSkippedKey : string;
  self_deblendRampedTemplateKey : string;
  self_deblendPatchedTemplateKey : string;
  self_hasStrayFluxKey : string
}.

(** [__init__(self, schema)], lines 89-129: ten [addField] calls in this
    order, then one debug line naming five of the keys.  Returns the
    schema, the keys and the keys named in the debug line. *)
Definition __init__ (schema : list Field) : list Field * TaskKeys * list string :=
  let '(schema, nChild) := addField schema "deblend.nchild" TypeInt in
  let '(schema, psf) := addField schema "deblend.deblended-as-psf" TypeFlag in
  let '(schema, psfCenter) := addField schema "deblend.psf-center" TypePointD in
  let '(schema, psfFlux) := addField schema "deblend.psf-flux" TypeD in
  let '(schema, tooManyPeaks) := addField schema "deblend.too-many-peaks" TypeFlag in
  let '(schema, deblendFailed) := addField schema "deblend.failed" TypeFlag in
  let '(schema, deblendSkipped) := addField schema "deblend.skipped" TypeFlag in
  let '(schema, ramped) := addField schema "deblend.ramped_template" TypeFlag in
  let '(schema, patchedTemplate) := addField schema "deblend.patched_template" TypeFlag in
  let '(schema, hasStrayFlux) := addField schema "deblend.has_stray_flux" TypeFlag in
  (schema,
   {| self_nChildKey := nChild; self_psfKey := psf; self_psfCenterKey := psfCenter;
      self_psfFluxKey := psfFlux; self_tooManyPeaksKey := tooManyPeaks;
      self_deblendFailedKey := deblendFailed; self_deblendSkippedKey := deblendSkipped;
      self_deblendRampedTemplateKey := ramped;
      self_deblendPatchedTemplateKey := patchedTemplate;
      self_hasStrayFluxKey := hasStrayFlux |},
   [nChild; psf; psfCenter; psfFlux; tooManyPeaks]).

(** The type of field a value can be stored in. *)
Definition typeOf (v : Value) : FieldType :=
  match v with
  | VInt _ => TypeInt
  | VFlag _ => TypeFlag
  | VPointD _ _ => TypePointD
  | VD _ => TypeD
  end.

(** A [set] that writes a field of the schema with a value of its type;
    other calls pass. *)
Definition well_typed_write (schema : list Field) (ev : Event) : Prop :=
  match ev with
  | EvSet _ key v => {| fieldName := key; fieldType := typeOf v |} ∈ schema
  | _ => True
  end.

(** The ten fields of the task, by key, with the type each was added with. *)
Definition deblendFields : list Field :=
  [ {| fieldName := nChildKey; fieldType := TypeInt |};
    {| fieldName := psfKey; fieldType := TypeFlag |};
    {| fieldName := psfCenterKey; fieldType := TypePointD |};
    {| fieldName := psfFluxKey; fieldType := TypeD |};
    {| fieldName := tooManyPeaksKey; fieldType := TypeFlag |};
    {| fieldName := deblendFailedKey; fieldType := TypeFlag |};
    {| fieldName := deblendSkippedKey; fieldType := TypeFlag |};
    {| fieldName := deblendRampedTemplateKey; fieldType := TypeFlag |};
    {| fieldName := deblendPatchedTemplateKey; fieldType := TypeFlag |};
    {| fieldName := hasStrayFluxKey; fieldType := TypeFlag |} ].

(** ** More readers of traces and results *)

Definition is_addNew (ev : Event) : bool :=
  match ev with EvAddNew _ _ => true | _ => false end.

Definition is_print_exc (ev : Event) : bool :=
  match ev with EvPrintExc _ => true | _ => false end.

(** The outcomes that give a child, each with its flux portion, in order. *)
Definition kept_portions (outs : list PerPeak) : list (PerPeak * Footprint) :=
  omap (fun peak => if skip peak then None
                    else match getFluxPortion peak with
                         | Some heavy => Some (peak, heavy)
                         | None => None
                         end) outs.

(** The dispatch arguments that do not depend on the footprint. *)
Definition shared_args (self : SourceDeblendTask) (mi : MaskedImage) (psf : Psf)
    (sigma1 : float) (a : DeblendArgs) : Prop :=
  a = deblendArgs (config self) (arg_fp a) mi psf
        (_getPsfFwhm psf (getBBox (arg_fp a))) sigma1.

(** A call of the external routine with its shared arguments; other
    calls pass. *)
Definition dispatch_with (self : SourceDeblendTask) (mi : MaskedImage) (psf : Psf)
    (sigma1 : float) (ev : Event) : Prop :=
  match ev with
  | EvDeblend a => shared_args self mi psf sigma1 a
  | _ => True
  end.

(** A catalog of isolated sources, and the empty one. *)
Definition noBlends : World :=
  catalogOf [detection 1 [peakAt 4 4]; detection 2 []; detection 3 [peakAt 9 9]].

Definition cloudyExposure : Exposure :=
  {| getMaskedImage := {| medianVariance := (-1)%float |} |}.

(** A routine that returns no outcome at all. *)
Definition emptyResult (a : DeblendArgs) : DeblendOutcome := Returns {| peaks := [] |}.

(** A routine that returns one outcome more than there are peaks, the
    extra one skip-flagged. *)
Definition oneTooMany (a : DeblendArgs) : DeblendOutcome :=
  match splitEachPeak a with
  | Returns res =>
      Returns {| peaks := peaks res ++ [outcomeFor (peakAt (-1) 0) None] |}
  | Raises e => Raises e
  end.

(** ** Records and turns

    What is left of a record, and what a turn makes of it. *)

(** Record [r'] is record [r] up to the four fields the task writes on
    a candidate. *)
Definition same_source (r r' : SourceRecord) : Prop :=
  getId r' = getId r /\ getParent r' = getParent r
  /\ getFootprint r' = getFootprint r
  /\ forall key,
       key <> tooManyPeaksKey -> key <> deblendFailedKey ->
       key <> deblendSkippedKey -> key <> nChildKey ->
       fields r' !! key = fields r !! key.

(** The record of a detection after its turn, when the turn ends
    normally: a detection with fewer than 2 peaks is as it was; a
    candidate has [tooManyPeaks] and [deblendFailed] written and, when the
    routine returned, [deblendSkipped] by the last outcome (if any) and
    [nchild]. *)
Definition after_turn (self : SourceDeblendTask) (mi : MaskedImage) (psf : Psf)
    (sigma1 : float) (src : SourceRecord) : SourceRecord :=
  if is_candidate src then
    match baseline_deblend self (argsFor self mi psf sigma1 src) with
    | Raises _ => markFailed self src
    | Returns res =>
        let marked := setField deblendFailedKey (VFlag false)
                        (setField tooManyPeaksKey (VFlag (tooMany self src)) src) in
        setField nChildKey (VInt (Z.of_nat (length (List.filter kept (peaks res)))))
          match last (peaks res) with
          | Some peak => setField deblendSkippedKey (VFlag (negb (kept peak))) marked
          | None => marked
          end
    end
  else src.

(** * Properties *)

(** ** The primitives *)

Lemma alter_app_last {A} (f : A -> A) (l : list A) (x : A) :
  alter f (length l) (l ++ [x]) = l ++ [f x].
Proof. induction l as [|y l IH]; simpl; [done | f_equal; exact IH]. Qed.

Lemma bind_run {A B} (m : M A) (k : A -> M B) (w : World) :
  bind m k w = match m w with Ok a w' => k a w' | Raise e w' => Raise e w' end.
Proof. reflexivity. Qed.

Lemma emit_run ev w :
  emit ev w = Ok tt {| rows := rows w; nextId := nextId w; trace := trace w ++ [ev] |}.
Proof. reflexivity. Qed.

Lemma set_run row key v w :
  set row key v w
  = Ok tt {| rows := alter (setField key v) row (rows w); nextId := nextId w;
             trace := trace w ++ [EvSet row key v] |}.
Proof. reflexivity. Qed.

Lemma addNew_run w :
  addNew w
  = Ok (length (rows w))
       {| rows := rows w ++ [newRecord (nextId w)]; nextId := (nextId w + 1)%Z;
          trace := trace w ++ [EvAddNew (length (rows w)) (nextId w)] |}.
Proof. reflexivity. Qed.

Lemma set_last (l : list SourceRecord) (r : SourceRecord) nid tr key v :
  set (length l) key v {| rows := l ++ [r]; nextId := nid; trace := tr |}
  = Ok tt {| rows := l ++ [setField key v r]; nextId := nid;
             trace := tr ++ [EvSet (length l) key v] |}.
Proof. rewrite set_run; simpl. by rewrite alter_app_last. Qed.

Lemma setParent_last (l : list SourceRecord) (r : SourceRecord) nid tr p :
  setParent (length l) p {| rows := l ++ [r]; nextId := nid; trace := tr |}
  = Ok tt {| rows := l ++ [withParent p r]; nextId := nid;
             trace := tr ++ [EvSetParent (length l) p] |}.
Proof.
  change (setParent (length l) p {| rows := l ++ [r]; nextId := nid; trace := tr |})
    with (Ok tt {| rows := alter (withParent p) (length l) (l ++ [r]); nextId := nid;
                   trace := tr ++ [EvSetParent (length l) p] |}).
  by rewrite alter_app_last.
Qed.

Lemma setFootprint_last (l : list SourceRecord) (r : SourceRecord) nid tr fp :
  setFootprint (length l) fp {| rows := l ++ [r]; nextId := nid; trace := tr |}
  = Ok tt {| rows := l ++ [withFootprint fp r]; nextId := nid;
             trace := tr ++ [EvSetFootprint (length l) fp] |}.
Proof.
  change (setFootprint (length l) fp {| rows := l ++ [r]; nextId := nid; trace := tr |})
    with (Ok tt {| rows := alter (withFootprint fp) (length l) (l ++ [r]); nextId := nid;
                   trace := tr ++ [EvSetFootprint (length l) fp] |}).
  by rewrite alter_app_last.
Qed.

Lemma fill_child_run src peak heavy (l : list SourceRecord) (r : SourceRecord) nid tr :
  fill_child src (length l) peak heavy {| rows := l ++ [r]; nextId := nid; trace := tr |}
  = Ok tt {| rows := l ++ [fill_record (getId src) peak heavy r]; nextId := nid;
             trace := tr ++ fill_events (getId src) (length l) peak heavy |}.
Proof.
  unfold fill_child, fill_record, fill_events.
  rewrite bind_run, setParent_last, bind_run, setFootprint_last.
  rewrite bind_run, set_last, bind_run, set_last, bind_run.
  destruct (deblendedAsPsf peak), (psfFitCenter peak) as [cx cy]; simpl fst; simpl snd.
  - rewrite bind_run, set_last, set_last, bind_run, set_last, set_last.
    do 2 f_equal. by rewrite <- !app_assoc.
  - unfold ret. rewrite bind_run, set_last, set_last.
    do 2 f_equal. by rewrite <- !app_assoc.
Qed.

(** ** The stateful code has the effect read off it *)

Lemma apply_eff_nil i w : apply_effect i eff_nil w = w.
Proof.
  destruct w as [l nid tr]. unfold apply_effect; simpl.
  rewrite list_alter_id by done. rewrite !app_nil_r. f_equal. lia.
Qed.

Lemma apply_eff_fail i err w : apply_effect i (eff_fail err) w = w.
Proof. apply (apply_eff_nil i w). Qed.

Lemma apply_eff_seq i f ch evs e w :
  i < length (rows w) ->
  apply_effect i (eff_seq f ch evs e) w
  = apply_effect i e {| rows := alter f i (rows w) ++ ch;
                        nextId := (nextId w + Z.of_nat (length ch))%Z;
                        trace := trace w ++ evs |}.
Proof.
  intros Hi. unfold apply_effect; simpl. f_equal.
  - rewrite alter_app_l by (by rewrite length_alter).
    rewrite list_alter_alter_eq. by rewrite <- app_assoc.
  - rewrite length_app. lia.
  - by rewrite <- app_assoc.
Qed.

Lemma finish_eff_seq {A} i f ch evs e (a : A) w :
  i < length (rows w) ->
  finish i (eff_seq f ch evs e) a w
  = finish i e a {| rows := alter f i (rows w) ++ ch;
                    nextId := (nextId w + Z.of_nat (length ch))%Z;
                    trace := trace w ++ evs |}.
Proof. intros Hi. unfold finish. rewrite apply_eff_seq by done. reflexivity. Qed.

Lemma for_peaks_run i src pks total outs :
  forall j kids nchild w,
    i < length (rows w) ->
    for_peaks i src pks total j outs kids nchild w
    = let e := peaks_effect i (getId src) pks total j outs (length (rows w)) (nextId w) in
      finish i e (kids ++ seq (length (rows w)) (length (eff_children e)),
                  nchild + length (eff_children e)) w.
Proof.
  induction outs as [|peak rest IH]; intros j kids nchild w Hi; simpl.
  - unfold finish; simpl. rewrite apply_eff_nil, app_nil_r, Nat.add_0_r. reflexivity.
  - destruct (skip peak).
    + rewrite bind_run. unfold index. destruct (pks !! j) as [pk|].
      * unfold ret. rewrite bind_run, emit_run, bind_run, set_run. simpl rows; simpl nextId; simpl trace.
        rewrite IH by (simpl; by rewrite length_alter).
        simpl. rewrite finish_eff_seq by done.
        simpl. rewrite length_alter, app_nil_r, Z.add_0_r, <- app_assoc. reflexivity.
      * unfold raise, finish; simpl. by rewrite apply_eff_fail.
    + destruct (getFluxPortion peak) as [heavy|].
      * rewrite bind_run, set_run, bind_run, addNew_run. simpl rows; simpl nextId; simpl trace.
        rewrite bind_run, fill_child_run.
        rewrite IH by (simpl; rewrite length_app, length_alter; lia).
        simpl. rewrite finish_eff_seq by done.
        simpl. rewrite !length_app, !length_alter. simpl length.
        replace (length (rows w) + 1) with (S (length (rows w))) by lia.
        rewrite <- !app_assoc. simpl.
        replace (nchild + 1 + _) with (nchild + S (length (eff_children
          (peaks_effect i (getId src) pks total (S j) rest (S (length (rows w)))
             (nextId w + 1))))) by lia.
        reflexivity.
      * rewrite bind_run. unfold index. destruct (pks !! j) as [pk|].
        -- unfold ret. rewrite bind_run, emit_run, bind_run, set_run. simpl rows; simpl nextId; simpl trace.
           rewrite IH by (simpl; by rewrite length_alter).
           simpl. rewrite finish_eff_seq by done.
           simpl. rewrite length_alter, app_nil_r, Z.add_0_r, <- app_assoc. reflexivity.
        -- unfold raise, finish; simpl. by rewrite apply_eff_fail.
Qed.

Lemma deblend_src_run self mi psf sigma1 i src nparents w :
  i < length (rows w) ->
  deblend_src self mi psf sigma1 i src nparents w
  = finish i (src_effect self mi psf sigma1 i src (length (rows w)) (nextId w))
      (nparents_after src nparents) w.
Proof.
  intros Hi. unfold deblend_src, src_effect, nparents_after, is_candidate.
  destruct (length (getPeaks (getFootprint src)) <? 2); simpl negb; cbv iota.
  { unfold finish, ret; simpl. by rewrite apply_eff_nil. }
  unfold preSingleDeblendHook, call_deblend, postSingleDeblendHook, len_srcs.
  rewrite bind_run, emit_run, bind_run, emit_run, bind_run, bind_run, set_run, bind_run.
  simpl rows; simpl nextId; simpl trace.
  rewrite bind_run, emit_run. unfold ret at 1. simpl rows; simpl nextId; simpl trace.
  fold (tooMany self src). fold (argsFor self mi psf sigma1 src).
  destruct (baseline_deblend self (argsFor self mi psf sigma1 src)) as [res|e].
  - rewrite bind_run, set_run, bind_run. simpl rows; simpl nextId; simpl trace.
    rewrite for_peaks_run by (simpl; by rewrite !length_alter).
    simpl rows; simpl nextId; simpl trace. rewrite !length_alter.
    set (pe := peaks_effect i (getId src) (getPeaks (getFootprint src))
                 (length (peaks res)) 0 (peaks res) (length (rows w)) (nextId w)).
    unfold finish at 1. simpl.
    destruct (eff_error pe) as [err|] eqn:Herr.
    + unfold finish; simpl. f_equal.
      unfold apply_effect, dispatch_events; simpl. f_equal.
      * rewrite !list_alter_alter_eq. reflexivity.
      * rewrite app_nil_r, <- !app_assoc. reflexivity.
    + rewrite bind_run, set_run, bind_run, emit_run. unfold ret, finish; simpl.
      f_equal.
      unfold apply_effect, dispatch_events; simpl. f_equal.
      * rewrite alter_app_l by (by rewrite !length_alter).
        rewrite !list_alter_alter_eq. reflexivity.
      * rewrite <- !app_assoc. reflexivity.
  - rewrite bind_run, emit_run, bind_run, set_run, bind_run, emit_run.
    unfold ret, finish; simpl. f_equal.
    unfold apply_effect, dispatch_events; simpl. f_equal.
    + rewrite !list_alter_alter_eq, app_nil_r. reflexivity.
    + lia.
    + rewrite <- !app_assoc. reflexivity.
Qed.

(** ** What the peak loop does to the parent, and which rows it appends *)

Lemma fields_only_id : fields_only (fun r => r).
Proof. by intros r. Qed.

Lemma fields_only_setField key v : fields_only (setField key v).
Proof. by intros r. Qed.

Lemma fields_only_compose f g : fields_only f -> fields_only g -> fields_only (f ∘ g).
Proof.
  intros Hf Hg r. unfold compose. destruct (Hf (g r)) as (-> & -> & ->). apply Hg.
Qed.

Lemma setField_twice key v1 v2 r :
  setField key v2 (setField key v1 r) = setField key v2 r.
Proof. unfold setField; simpl. by rewrite insert_insert_eq. Qed.

(** The result is index-aligned with the peaks from position [j] on. *)
Lemma peaks_effect_no_error i sid pks total outs :
  forall j n nid,
    j + length outs <= length pks ->
    eff_error (peaks_effect i sid pks total j outs n nid) = None.
Proof.
  induction outs as [|peak rest IH]; intros j n nid Hlen; simpl; [done|].
  simpl in Hlen.
  destruct (lookup_lt_is_Some_2 pks j) as [pk Hpk]; [lia|].
  rewrite Hpk.
  destruct (skip peak); [|destruct (getFluxPortion peak)]; simpl; apply IH; lia.
Qed.

Lemma peaks_effect_nchild i sid pks total outs :
  forall j n nid,
    j + length outs <= length pks ->
    length (eff_children (peaks_effect i sid pks total j outs n nid))
    = length (List.filter kept outs).
Proof.
  induction outs as [|peak rest IH]; intros j n nid Hlen; simpl; [done|].
  simpl in Hlen.
  destruct (lookup_lt_is_Some_2 pks j) as [pk Hpk]; [lia|].
  rewrite Hpk. unfold kept.
  destruct (skip peak); [|destruct (getFluxPortion peak)]; simpl;
    try rewrite bool_decide_eq_true_2 by eauto;
    try rewrite bool_decide_eq_false_2 by (by intros [? ?]);
    simpl; rewrite IH by lia; reflexivity.
Qed.

(** Whatever happens, the parent keeps its id, parent link and footprint,
    and only its [deblendSkipped] field is written. *)
Lemma peaks_effect_parent i sid pks total outs :
  forall j n nid,
    fields_only (eff_parent (peaks_effect i sid pks total j outs n nid)).
Proof.
  induction outs as [|peak rest IH]; intros j n nid; simpl.
  - apply fields_only_id.
  - destruct (skip peak); [|destruct (getFluxPortion peak)];
      try destruct (pks !! j); simpl;
      try apply fields_only_id;
      (apply fields_only_compose; [apply IH | apply fields_only_setField]).
Qed.

Lemma peaks_effect_parent_fields i sid pks total outs :
  forall j n nid r key,
    key <> deblendSkippedKey ->
    fields (eff_parent (peaks_effect i sid pks total j outs n nid) r) !! key
    = fields r !! key.
Proof.
  induction outs as [|peak rest IH]; intros j n nid r key Hkey; simpl; [done|].
  destruct (skip peak); [|destruct (getFluxPortion peak)];
    try destruct (pks !! j); simpl; try done;
    rewrite IH by done; simpl; by rewrite lookup_insert_ne.
Qed.

(** With an index-aligned result the last outcome decides the flag. *)
Lemma peaks_effect_parent_last i sid pks total outs :
  forall j n nid r,
    j + length outs <= length pks ->
    eff_parent (peaks_effect i sid pks total j outs n nid) r
    = match last outs with
      | Some peak => setField deblendSkippedKey (VFlag (negb (kept peak))) r
      | None => r
      end.
Proof.
  induction outs as [|peak rest IH]; intros j n nid r Hlen; simpl; [done|].
  simpl in Hlen.
  destruct (lookup_lt_is_Some_2 pks j) as [pk Hpk]; [lia|].
  rewrite Hpk.
  assert (Hstep : forall b n' nid',
    b = negb (kept peak) ->
    eff_parent (peaks_effect i sid pks total (S j) rest n' nid')
      (setField deblendSkippedKey (VFlag b) r)
    = match last (peak :: rest) with
      | Some p => setField deblendSkippedKey (VFlag (negb (kept p))) r
      | None => r
      end).
  { intros b n' nid' ->. rewrite IH by lia.
    destruct rest as [|q rest']; [done|].
    rewrite last_cons_cons. destruct (last (q :: rest')) eqn:E; [|by apply last_None in E].
    apply setField_twice. }
  unfold kept in Hstep |- *.
  destruct (skip peak); [|destruct (getFluxPortion peak)]; simpl;
    apply Hstep; simpl; done.
Qed.

(** Every appended row is the filled child of a kept outcome. *)
Lemma peaks_effect_children i sid pks total outs :
  forall j n nid c,
    c ∈ eff_children (peaks_effect i sid pks total j outs n nid) ->
    exists peak heavy nid',
      peak ∈ outs /\ skip peak = false /\ getFluxPortion peak = Some heavy
      /\ c = child_record sid nid' peak heavy.
Proof.
  induction outs as [|peak rest IH]; intros j n nid c Hc; simpl in Hc.
  - by apply elem_of_nil in Hc.
  - assert (Hrest : forall n' nid',
      c ∈ eff_children (peaks_effect i sid pks total (S j) rest n' nid') ->
      exists peak0 heavy nid'',
        peak0 ∈ peak :: rest /\ skip peak0 = false /\ getFluxPortion peak0 = Some heavy
        /\ c = child_record sid nid'' peak0 heavy).
    { intros n' nid' H. destruct (IH _ _ _ _ H) as (p & h & k & Hp & ?).
      exists p, h, k. split; [by apply list_elem_of_further | done]. }
    destruct (skip peak) eqn:Hskip; [|destruct (getFluxPortion peak) as [heavy|] eqn:Hflux];
      try (destruct (pks !! j); simpl in Hc; [by eapply Hrest | by apply elem_of_nil in Hc]).
    simpl in Hc. apply elem_of_cons in Hc as [-> | Hc]; [|by eapply Hrest].
    exists peak, heavy, nid. split; [apply list_elem_of_here | done].
Qed.

Lemma fill_events_inner sid row peak heavy :
  forallb inner_event (fill_events sid row peak heavy) = true.
Proof. unfold fill_events. by destruct (deblendedAsPsf peak). Qed.

Lemma peaks_effect_events i sid pks total outs :
  forall j n nid,
    forallb inner_event (eff_events (peaks_effect i sid pks total j outs n nid)) = true.
Proof.
  induction outs as [|peak rest IH]; intros j n nid; simpl; [done|].
  destruct (skip peak); [|destruct (getFluxPortion peak) as [heavy|]].
  - destruct (pks !! j); simpl; [apply IH | done].
  - change (forallb inner_event (fill_events sid n peak heavy
              ++ eff_events (peaks_effect i sid pks total (S j) rest (S n) (nid + 1))) = true).
    rewrite forallb_app, fill_events_inner, IH. done.
  - destruct (pks !! j); simpl; [apply IH | done].
Qed.

(** ** One turn of the outer loop *)

Lemma worldOf_finish {A} i e (a : A) w : worldOf (finish i e a w) = apply_effect i e w.
Proof. unfold finish. by destruct (eff_error e). Qed.

Lemma events_since_apply i e w : events_since w (apply_effect i e w) = eff_events e.
Proof. unfold events_since; simpl. by rewrite drop_app_length. Qed.

Lemma apply_effect_length i e w :
  length (rows (apply_effect i e w)) = length (rows w) + length (eff_children e).
Proof. simpl. by rewrite length_app, length_alter. Qed.

Lemma apply_effect_parent i e w :
  i < length (rows w) ->
  rows (apply_effect i e w) !! i = eff_parent e <$> rows w !! i.
Proof.
  intros Hi; simpl. rewrite lookup_app_l by (by rewrite length_alter).
  apply list_lookup_alter_eq.
Qed.

Lemma apply_effect_other i e w k :
  k <> i -> k < length (rows w) ->
  rows (apply_effect i e w) !! k = rows w !! k.
Proof.
  intros Hk Hlt; simpl. rewrite lookup_app_l by (by rewrite length_alter).
  by apply list_lookup_alter_ne.
Qed.

Lemma apply_effect_child i e w k :
  length (rows w) <= k ->
  rows (apply_effect i e w) !! k = eff_children e !! (k - length (rows w)).
Proof.
  intros Hk; simpl. rewrite lookup_app_r by (by rewrite length_alter).
  by rewrite length_alter.
Qed.

Lemma is_candidate_peaks src :
  is_candidate src = true <-> 2 <= length (getPeaks (getFootprint src)).
Proof.
  unfold is_candidate. destruct (Nat.ltb_spec (length (getPeaks (getFootprint src))) 2);
    simpl; split; (lia || done).
Qed.

Lemma src_effect_non_candidate self mi psf sigma1 i src n nid :
  is_candidate src = false -> src_effect self mi psf sigma1 i src n nid = eff_nil.
Proof. unfold src_effect. by intros ->. Qed.

Lemma src_effect_parent self mi psf sigma1 i src n nid :
  fields_only (eff_parent (src_effect self mi psf sigma1 i src n nid)).
Proof.
  unfold src_effect. destruct (is_candidate src); [|apply fields_only_id].
  destruct (baseline_deblend _ _) as [res|e]; simpl.
  - intros r.
    pose proof (peaks_effect_parent i (getId src) (getPeaks (getFootprint src))
      (length (peaks res)) (peaks res) 0 n nid
      (setField deblendFailedKey (VFlag false)
         (setField tooManyPeaksKey (VFlag (tooMany self src)) r))) as H.
    destruct (eff_error _); simpl; exact H.
  - by intros r.
Qed.

Lemma src_effect_children self mi psf sigma1 i src n nid c :
  c ∈ eff_children (src_effect self mi psf sigma1 i src n nid) ->
  exists res peak heavy nid',
    baseline_deblend self (argsFor self mi psf sigma1 src) = Returns res
    /\ peak ∈ peaks res /\ skip peak = false /\ getFluxPortion peak = Some heavy
    /\ c = child_record (getId src) nid' peak heavy.
Proof.
  unfold src_effect. destruct (is_candidate src); [|by intros ?%elem_of_nil].
  destruct (baseline_deblend _ _) as [res|e]; simpl; [|by intros ?%elem_of_nil].
  intros (peak & heavy & nid' & ?)%peaks_effect_children.
  by exists res, peak, heavy, nid'.
Qed.

Lemma candidates_of_app evs1 evs2 :
  candidates_of (evs1 ++ evs2) = candidates_of evs1 ++ candidates_of evs2.
Proof. apply omap_app. Qed.

Lemma candidates_of_inner evs :
  forallb inner_event evs = true -> candidates_of evs = [].
Proof.
  induction evs as [|ev evs IH]; simpl; [done|].
  intros [Hev Hevs]%andb_true_iff. unfold candidates_of in *; simpl.
  rewrite IH by done. by destruct ev.
Qed.

Lemma filter_inner (f : Event -> bool) evs :
  (forall ev, inner_event ev = true -> f ev = false) ->
  forallb inner_event evs = true -> List.filter f evs = [].
Proof.
  intros Hf. induction evs as [|ev evs IH]; simpl; [done|].
  intros [Hev Hevs]%andb_true_iff. by rewrite Hf, IH.
Qed.

Lemma src_effect_candidates self mi psf sigma1 i src n nid :
  candidates_of (eff_events (src_effect self mi psf sigma1 i src n nid))
  = if is_candidate src then [i] else [].
Proof.
  unfold src_effect. destruct (is_candidate src); [|done].
  destruct (baseline_deblend _ _) as [res|e]; cbn [eff_events]; [|done].
  rewrite !candidates_of_app.
  rewrite (candidates_of_inner (eff_events _)) by apply peaks_effect_events.
  by destruct (eff_error _).
Qed.

Lemma src_effect_posthook self mi psf sigma1 i src n nid :
  List.filter is_posthook (eff_events (src_effect self mi psf sigma1 i src n nid)) <> [] ->
  exists res, baseline_deblend self (argsFor self mi psf sigma1 src) = Returns res.
Proof.
  unfold src_effect. destruct (is_candidate src); [|done].
  destruct (baseline_deblend _ _) as [res|e]; [by exists res | done].
Qed.

(** ** The outer loop *)

Lemma next_row_Some it n_start w i src :
  next_row it n_start w i = Some src ->
  rows w !! i = Some src /\ (it = OverRowsAtStart -> i < n_start).
Proof.
  destruct it; simpl; [done|].
  destruct (Nat.ltb_spec i n_start); [done|]. by intros [=].
Qed.

Lemma deblend_loop_step self mi psf sigma1 it n_start fuel i nparents w src :
  next_row it n_start w i = Some src ->
  deblend_loop self mi psf sigma1 it n_start (S fuel) i nparents w
  = let e := src_effect self mi psf sigma1 i src (length (rows w)) (nextId w) in
    match eff_error e with
    | None => deblend_loop self mi psf sigma1 it n_start fuel (S i)
                (nparents_after src nparents) (apply_effect i e w)
    | Some err => Some (Raise err (apply_effect i e w))
    end.
Proof.
  intros Hsrc. simpl. rewrite Hsrc.
  apply next_row_Some in Hsrc as [Hsrc _].
  rewrite deblend_src_run by (by eapply lookup_lt_Some).
  unfold finish. by destruct (eff_error _).
Qed.

Lemma deblend_loop_done self mi psf sigma1 it n_start fuel i nparents w :
  next_row it n_start w i = None ->
  deblend_loop self mi psf sigma1 it n_start (S fuel) i nparents w
  = Some (Ok nparents w).
Proof. intros Hnone. simpl. by rewrite Hnone. Qed.

(** An invariant of the turns holds of the world the loop ends in; when
    the loop ends normally, it ends at a position where the iterator
    yields no row. *)
Lemma deblend_loop_invariant self mi psf sigma1 it n_start
    (Inv : nat -> nat -> World -> Prop) :
  (forall i nparents w src,
      Inv i nparents w -> next_row it n_start w i = Some src ->
      Inv (S i) (nparents_after src nparents)
          (apply_effect i (src_effect self mi psf sigma1 i src (length (rows w)) (nextId w)) w)) ->
  forall fuel i nparents w r,
    Inv i nparents w ->
    deblend_loop self mi psf sigma1 it n_start fuel i nparents w = Some r ->
    match r with
    | Ok nparents' w' =>
        exists i', Inv i' nparents' w' /\ next_row it n_start w' i' = None
    | Raise _ w' => exists i' nparents', Inv i' nparents' w'
    end.
Proof.
  intros Hturn. induction fuel as [|fuel IH]; intros i nparents w r Hinv Hrun; [done|].
  destruct (next_row it n_start w i) as [src|] eqn:Hsrc.
  - rewrite (deblend_loop_step _ _ _ _ _ _ _ _ _ _ src) in Hrun by done.
    cbv zeta in Hrun. specialize (Hturn _ _ _ _ Hinv Hsrc).
    destruct (eff_error _).
    + injection Hrun as <-. eauto.
    + exact (IH _ _ _ _ Hturn Hrun).
  - rewrite deblend_loop_done in Hrun by done. injection Hrun as <-. eauto.
Qed.

(** An iterator bounded by the rows at the start ends the loop within
    that many turns. *)
Lemma deblend_loop_bounded_ends self mi psf sigma1 n_start fuel :
  forall i nparents w,
    n_start - i < fuel ->
    deblend_loop self mi psf sigma1 OverRowsAtStart n_start fuel i nparents w <> None.
Proof.
  induction fuel as [|fuel IH]; intros i nparents w Hfuel; [lia|].
  simpl. destruct (Nat.ltb_spec i n_start); [|done].
  destruct (rows w !! i) as [src|]; [|done].
  destruct (deblend_src _ _ _ _ _ _ _ _); [|done]. apply IH. lia.
Qed.

Lemma fill_events_about i n n' sid peak heavy :
  n <= n' -> Forall (about_turn i n) (fill_events sid n' peak heavy).
Proof.
  intros Hn. unfold fill_events.
  destruct (deblendedAsPsf peak); simpl;
    repeat (constructor; [intros k [= <-]; by right|]); constructor.
Qed.

Lemma peaks_effect_about i n sid pks total outs :
  forall j n' nid,
    n <= n' ->
    Forall (about_turn i n) (eff_events (peaks_effect i sid pks total j outs n' nid)).
Proof.
  induction outs as [|peak rest IH]; intros j n' nid Hn; simpl; [constructor|].
  destruct (skip peak); [|destruct (getFluxPortion peak) as [heavy|]].
  - destruct (pks !! j); simpl; [|constructor].
    constructor; [by intros k [=]|]. constructor; [intros k [= <-]; by left|]. by apply IH.
  - cbn [eff_seq eff_events].
    constructor; [intros k [= <-]; by left|].
    constructor; [intros k [= <-]; by right|].
    apply Forall_app. split; [by apply fill_events_about | apply IH; lia].
  - destruct (pks !! j); simpl; [|constructor].
    constructor; [by intros k [=]|]. constructor; [intros k [= <-]; by left|]. by apply IH.
Qed.

Lemma src_effect_about self mi psf sigma1 i src n nid :
  Forall (about_turn i n) (eff_events (src_effect self mi psf sigma1 i src n nid)).
Proof.
  unfold src_effect. destruct (is_candidate src); [|constructor].
  assert (Hd : Forall (about_turn i n) (dispatch_events self mi psf sigma1 i src)).
  { unfold dispatch_events.
    repeat (constructor; [intros k [=]; subst; by left|]). constructor. }
  destruct (baseline_deblend _ _) as [res|e]; cbn [eff_events].
  - apply Forall_app. split; [done|].
    constructor; [intros k [= <-]; by left|].
    apply Forall_app. split; [by apply peaks_effect_about|].
    destruct (eff_error _);
      repeat (constructor; [intros k [= <-]; by left|]); constructor.
  - apply Forall_app. split; [done|].
    repeat (constructor; [intros k [=]; subst; by left|]). constructor.
Qed.

Lemma alter_lookup_insert {A} (f : A -> A) (l : list A) i x :
  l !! i = Some x -> alter f i l = <[i := f x]> l.
Proof.
  intros Hx. rewrite list_insert_alter. apply list_alter_ext; [|done].
  intros y Hy. congruence.
Qed.

Lemma failing_turn_run self mi psf sigma1 D src nparents w e :
  rows w !! D = Some src ->
  is_candidate src = true ->
  baseline_deblend self (argsFor self mi psf sigma1 src) = Raises e ->
  deblend_src self mi psf sigma1 D src nparents w
  = Ok (nparents + 1)
       {| rows := <[D := markFailed self src]> (rows w);
          nextId := nextId w;
          trace := trace w ++ failure_events self mi psf sigma1 D src e |}.
Proof.
  intros Hsrc Hcand Hraise.
  rewrite deblend_src_run by (by eapply lookup_lt_Some).
  unfold src_effect, nparents_after. rewrite Hcand, Hraise.
  unfold finish, apply_effect; simpl. f_equal. f_equal.
  - rewrite app_nil_r. by rewrite (alter_lookup_insert _ _ _ src).
  - lia.
Qed.

(** ** The claims *)

(** C6: for a detection with fewer than 2 peaks the turn is a no-op: the
    world after it is the world before it, so no routine or hook was
    called, no field was written and no row was appended.  And because no
    other turn of the loop touches the row, however the loop ends the row
    is the record it was, and no call of the run is about it. *)
Theorem non_candidate_untouched self mi psf sigma1 i src w :
  rows w !! i = Some src ->
  length (getPeaks (getFootprint src)) < 2 ->
  (forall nparents,
      deblend_src self mi psf sigma1 i src nparents w = Ok nparents w)
  /\ (forall it n_start fuel j nparents r,
         deblend_loop self mi psf sigma1 it n_start fuel j nparents w = Some r ->
         rows (worldOf r) !! i = Some src
         /\ Forall (fun ev => event_row ev <> Some i) (events_since w (worldOf r))).
Proof.
  intros Hsrc Hlt. split.
  { intros nparents. unfold deblend_src.
    by destruct (Nat.ltb_spec (length (getPeaks (getFootprint src))) 2); [|lia]. }
  assert (Hnc : is_candidate src = false).
  { destruct (is_candidate src) eqn:E; [|done]. apply is_candidate_peaks in E. lia. }
  intros it n_start fuel j nparents r Hrun.
  pose (Inv := fun (_ _ : nat) (w' : World) =>
    rows w' !! i = Some src
    /\ exists evs, trace w' = trace w ++ evs
                   /\ Forall (fun ev => event_row ev <> Some i) evs).
  assert (Hturn : forall k np w' src',
    Inv k np w' -> next_row it n_start w' k = Some src' ->
    Inv (S k) (nparents_after src' np)
      (apply_effect k (src_effect self mi psf sigma1 k src' (length (rows w')) (nextId w')) w')).
  { intros k np w' src' (Hrow & evs & Htr & Hevs) Hk.
    apply next_row_Some in Hk as [Hk _].
    destruct (decide (k = i)) as [->|Hne].
    - assert (src' = src) as -> by congruence.
      rewrite src_effect_non_candidate by done. rewrite apply_eff_nil.
      split; [done|]. by exists evs.
    - split.
      + rewrite apply_effect_other; [done | done | by eapply lookup_lt_Some].
      + exists (evs ++ eff_events (src_effect self mi psf sigma1 k src'
                                     (length (rows w')) (nextId w'))).
        split; [simpl; by rewrite Htr, app_assoc|].
        apply Forall_app. split; [done|].
        eapply Forall_impl; [apply src_effect_about|].
        intros ev Hev Hrow'. destruct (Hev _ Hrow') as [?|Hge]; [done|].
        apply lookup_lt_Some in Hrow. lia. }
  assert (Hstart : Inv j nparents w).
  { split; [done|]. exists []. by rewrite app_nil_r. }
  assert (Hend : exists i' np', Inv i' np' (worldOf r)).
  { pose proof (deblend_loop_invariant self mi psf sigma1 it n_start Inv Hturn
                  fuel j nparents w r Hstart Hrun) as H.
    destruct r; simpl; [destruct H as (? & ? & _) | destruct H as (? & ? & ?)]; eauto. }
  destruct Hend as (_ & _ & Hrow & evs & Htr & Hevs).
  split; [done|]. unfold events_since. by rewrite Htr, drop_app_length.
Qed.

(** C10: for a candidate whose dispatch raises, the turn ends normally and
    its catalog writes are exactly two, both on the candidate's row:
    [tooManyPeaks] (before the dispatch) and [deblendFailed = True].  The
    catalog keeps its length and its next id, every other row is the same,
    and on the candidate's row every other field, [deblendSkipped] and
    [nchild] among them, is as it was. *)
Theorem failed_candidate_writes self mi psf sigma1 D src nparents w e :
  rows w !! D = Some src ->
  is_candidate src = true ->
  baseline_deblend self (argsFor self mi psf sigma1 src) = Raises e ->
  exists w',
    deblend_src self mi psf sigma1 D src nparents w = Ok (nparents + 1) w'
    /\ List.filter is_catalog_write (events_since w w')
       = [EvSet D tooManyPeaksKey (VFlag (tooMany self src));
          EvSet D deblendFailedKey (VFlag true)]
    /\ rows w' = <[D := markFailed self src]> (rows w)
    /\ length (rows w') = length (rows w)
    /\ nextId w' = nextId w
    /\ fields (markFailed self src) !! deblendSkippedKey = fields src !! deblendSkippedKey
    /\ fields (markFailed self src) !! nChildKey = fields src !! nChildKey
    /\ (forall key, key <> tooManyPeaksKey -> key <> deblendFailedKey ->
          fields (markFailed self src) !! key = fields src !! key).
Proof.
  intros Hsrc Hcand Hraise.
  eexists. split; [by apply failing_turn_run|].
  assert (Hother : forall key, key <> tooManyPeaksKey -> key <> deblendFailedKey ->
            fields (markFailed self src) !! key = fields src !! key).
  { intros key H1 H2. unfold markFailed; simpl. by rewrite !lookup_insert_ne. }
  split; [|split; [done|split; [|split; [done|split; [|split]]]]].
  - unfold events_since; simpl. by rewrite drop_app_length.
  - simpl. by rewrite length_insert.
  - by apply Hother.
  - by apply Hother.
  - done.
Qed.

(** The world after the turn of a candidate whose dispatch returned an
    index-aligned result. *)
Lemma returning_turn_run self mi psf sigma1 i src nparents w res :
  rows w !! i = Some src ->
  is_candidate src = true ->
  baseline_deblend self (argsFor self mi psf sigma1 src) = Returns res ->
  length (peaks res) <= length (getPeaks (getFootprint src)) ->
  let pe := peaks_effect i (getId src) (getPeaks (getFootprint src))
              (length (peaks res)) 0 (peaks res) (length (rows w)) (nextId w) in
  let nchild := length (List.filter kept (peaks res)) in
  let src' := setField nChildKey (VInt (Z.of_nat nchild))
                (eff_parent pe
                   (setField deblendFailedKey (VFlag false)
                      (setField tooManyPeaksKey (VFlag (tooMany self src)) src))) in
  deblend_src self mi psf sigma1 i src nparents w
  = Ok (nparents + 1)
       {| rows := <[i := src']> (rows w) ++ eff_children pe;
          nextId := (nextId w + Z.of_nat nchild)%Z;
          trace := trace w ++ dispatch_events self mi psf sigma1 i src
                     ++ [EvSet i deblendFailedKey (VFlag false)]
                     ++ eff_events pe
                     ++ [EvSet i nChildKey (VInt (Z.of_nat nchild));
                         EvPostHook i (length (rows w)) (seq (length (rows w)) nchild) res] |}
    /\ length (eff_children pe) = nchild.
Proof.
  intros Hsrc Hcand Hret Hlen pe nchild src'.
  assert (Herr : eff_error pe = None) by (apply peaks_effect_no_error; simpl; lia).
  assert (Hn : length (eff_children pe) = nchild) by (apply peaks_effect_nchild; simpl; lia).
  split; [|done].
  rewrite deblend_src_run by (by eapply lookup_lt_Some).
  unfold src_effect, nparents_after. rewrite Hcand, Hret.
  fold pe. unfold finish, apply_effect; cbn [eff_error eff_parent eff_children eff_events].
  rewrite Herr, Hn. f_equal. f_equal.
  by rewrite (alter_lookup_insert _ _ _ src).
Qed.

(** C3: when the dispatch of a candidate returns (an index-aligned
    result), the turn ends normally, the value written to the parent's
    [nchild] is the number of outcomes that are neither skip-flagged nor
    without a flux portion, and exactly that many rows are appended. *)
Theorem nchild_counts_kept_outcomes self mi psf sigma1 i src nparents w res :
  rows w !! i = Some src ->
  is_candidate src = true ->
  baseline_deblend self (argsFor self mi psf sigma1 src) = Returns res ->
  length (peaks res) <= length (getPeaks (getFootprint src)) ->
  let nchild := length (List.filter kept (peaks res)) in
  exists w' src',
    deblend_src self mi psf sigma1 i src nparents w = Ok (nparents + 1) w'
    /\ rows w' !! i = Some src'
    /\ fields src' !! nChildKey = Some (VInt (Z.of_nat nchild))
    /\ getInt src' nChildKey = Z.of_nat nchild
    /\ EvSet i nChildKey (VInt (Z.of_nat nchild)) ∈ events_since w w'
    /\ length (rows w') = length (rows w) + nchild.
Proof.
  intros Hsrc Hcand Hret Hlen nchild.
  destruct (returning_turn_run self mi psf sigma1 i src nparents w res
              Hsrc Hcand Hret Hlen) as [Hrun Hn].
  apply lookup_lt_Some in Hsrc as Hi.
  eexists _, _. split; [exact Hrun|]. cbn [rows trace].
  split; [|split; [|split; [|split]]].
  - rewrite lookup_app_l by (by rewrite length_insert).
    by apply list_lookup_insert_eq.
  - simpl. by rewrite lookup_insert_eq.
  - unfold getInt; simpl. by rewrite lookup_insert_eq.
  - unfold events_since; cbn [trace]. rewrite drop_app_length.
    rewrite !elem_of_app. right. right. right. apply list_elem_of_here.
  - rewrite length_app, length_insert. by rewrite Hn.
Qed.

(** C5: when the dispatch of a candidate returns a non-empty
    (index-aligned) result, the parent's [deblendSkipped] after the turn
    is the status of the last outcome: true iff that outcome was
    skip-flagged or had no flux portion. *)
Theorem deblendSkipped_is_last_outcome self mi psf sigma1 i src nparents w res peak :
  rows w !! i = Some src ->
  is_candidate src = true ->
  baseline_deblend self (argsFor self mi psf sigma1 src) = Returns res ->
  length (peaks res) <= length (getPeaks (getFootprint src)) ->
  last (peaks res) = Some peak ->
  exists w' src',
    deblend_src self mi psf sigma1 i src nparents w = Ok (nparents + 1) w'
    /\ rows w' !! i = Some src'
    /\ fields src' !! deblendSkippedKey
       = Some (VFlag (skip peak || bool_decide (getFluxPortion peak = None)))
    /\ getFlag src' deblendSkippedKey
       = skip peak || bool_decide (getFluxPortion peak = None).
Proof.
  intros Hsrc Hcand Hret Hlen Hlast.
  destruct (returning_turn_run self mi psf sigma1 i src nparents w res
              Hsrc Hcand Hret Hlen) as [Hrun _].
  apply lookup_lt_Some in Hsrc as Hi.
  eexists _, _. split; [exact Hrun|]. cbn [rows].
  split; [rewrite lookup_app_l by (by rewrite length_insert);
          by apply list_lookup_insert_eq|].
  assert (Hval : negb (kept peak) = skip peak || bool_decide (getFluxPortion peak = None)).
  { unfold kept. destruct (skip peak); [done|]. simpl.
    destruct (getFluxPortion peak) as [heavy|]; simpl;
      repeat case_bool_decide; done. }
  assert (Hfield : forall r, fields (setField nChildKey (VInt (Z.of_nat (length (List.filter kept (peaks res)))))
             (eff_parent (peaks_effect i (getId src) (getPeaks (getFootprint src))
                (length (peaks res)) 0 (peaks res) (length (rows w)) (nextId w)) r))
             !! deblendSkippedKey
           = Some (VFlag (skip peak || bool_decide (getFluxPortion peak = None)))).
  { intros r. simpl. rewrite lookup_insert_ne by done.
    rewrite peaks_effect_parent_last by (simpl; lia). rewrite Hlast. simpl.
    by rewrite lookup_insert_eq, Hval. }
  split; [apply Hfield|]. unfold getFlag. by rewrite Hfield.
Qed.

Lemma child_record_psf sid nid peak heavy :
  getFlag (child_record sid nid peak heavy) psfKey = deblendedAsPsf peak
  /\ written (child_record sid nid peak heavy) psfCenterKey = deblendedAsPsf peak
  /\ written (child_record sid nid peak heavy) psfFluxKey = deblendedAsPsf peak.
Proof.
  unfold child_record, fill_record, getFlag, written.
  destruct (deblendedAsPsf peak); cbn [fields setField withFootprint withParent newRecord];
    repeat (rewrite lookup_insert_eq || rewrite lookup_insert_ne by done);
    rewrite ?lookup_empty; split; try done; split; by repeat case_bool_decide.
Qed.

Lemma src_effect_parent_fields self mi psf sigma1 i src n nid r key :
  key <> tooManyPeaksKey -> key <> deblendFailedKey ->
  key <> deblendSkippedKey -> key <> nChildKey ->
  fields (eff_parent (src_effect self mi psf sigma1 i src n nid) r) !! key
  = fields r !! key.
Proof.
  intros H1 H2 H3 H4. unfold src_effect. destruct (is_candidate src); [|done].
  destruct (baseline_deblend _ _) as [res|e]; cbn [eff_parent].
  - destruct (eff_error _); cbn [fields setField];
      rewrite ?lookup_insert_ne by done;
      rewrite peaks_effect_parent_fields by done;
      cbn [fields setField]; by rewrite !lookup_insert_ne.
  - cbn [fields setField]. by rewrite !lookup_insert_ne.
Qed.

(** C7: on every row a turn appends, and on every row a run of the loop
    has appended when it ends, [psfCenter] and [psfFlux] are written iff
    the row's [deblendedAsPsf] flag is true; when the flag is false
    neither has been written. *)
Theorem psf_fields_iff_deblendedAsPsf self mi psf sigma1 w :
  (forall i src nparents k child,
      rows w !! i = Some src ->
      length (rows w) <= k ->
      rows (worldOf (deblend_src self mi psf sigma1 i src nparents w)) !! k = Some child ->
      written child psfCenterKey = getFlag child psfKey
      /\ written child psfFluxKey = getFlag child psfKey)
  /\ (forall it n_start fuel j nparents r k child,
         deblend_loop self mi psf sigma1 it n_start fuel j nparents w = Some r ->
         length (rows w) <= k ->
         rows (worldOf r) !! k = Some child ->
         written child psfCenterKey = getFlag child psfKey
         /\ written child psfFluxKey = getFlag child psfKey).
Proof.
  assert (Hchild : forall i src n nid c,
    c ∈ eff_children (src_effect self mi psf sigma1 i src n nid) ->
    written c psfCenterKey = getFlag c psfKey
    /\ written c psfFluxKey = getFlag c psfKey).
  { intros i src n nid c (res & peak & heavy & nid' & _ & _ & _ & _ & ->)%src_effect_children.
    destruct (child_record_psf (getId src) nid' peak heavy) as (-> & -> & ->). done. }
  split.
  - intros i src nparents k child Hsrc Hk Hchild'.
    rewrite deblend_src_run in Hchild' by (by eapply lookup_lt_Some).
    rewrite worldOf_finish, apply_effect_child in Hchild' by done.
    eapply Hchild, list_elem_of_lookup_2, Hchild'.
  - intros it n_start fuel j nparents r k child Hrun Hk Hrow.
    pose (Inv := fun (_ _ : nat) (w' : World) =>
      forall k c, length (rows w) <= k -> rows w' !! k = Some c ->
                  written c psfCenterKey = getFlag c psfKey
                  /\ written c psfFluxKey = getFlag c psfKey).
    assert (Hturn : forall i np w' src,
      Inv i np w' -> next_row it n_start w' i = Some src ->
      Inv (S i) (nparents_after src np)
        (apply_effect i (src_effect self mi psf sigma1 i src (length (rows w')) (nextId w')) w')).
    { intros i np w' src Hinv Hsrc k' c Hk' Hc.
      apply next_row_Some in Hsrc as [Hsrc _].
      destruct (decide (k' < length (rows w'))) as [Hlt|Hge].
      - destruct (decide (k' = i)) as [->|Hne].
        + rewrite apply_effect_parent, Hsrc in Hc by done. injection Hc as <-.
          unfold written, getFlag.
          rewrite !src_effect_parent_fields by done. by apply (Hinv i).
        + rewrite apply_effect_other in Hc by done. by apply (Hinv k').
      - rewrite apply_effect_child in Hc by lia.
        eapply Hchild, list_elem_of_lookup_2, Hc. }
    assert (Hstart : Inv j nparents w).
    { intros k' c Hk' Hc. apply lookup_lt_Some in Hc. lia. }
    pose proof (deblend_loop_invariant self mi psf sigma1 it n_start Inv Hturn
                  fuel j nparents w r Hstart Hrun) as H.
    destruct r; simpl in Hrow;
      [destruct H as (? & H & _) | destruct H as (? & ? & H)]; by apply (H k).
Qed.

Lemma filter_posthook_inner evs :
  forallb inner_event evs = true -> List.filter is_posthook evs = [].
Proof.
  apply filter_inner. intros ev. unfold inner_event. by destruct ev.
Qed.

(** C9: in the turn of a candidate the pre-hook is called exactly once,
    with the candidate's position, whether the dispatch then raises or
    returns.  When the dispatch raises, the turn ends normally without a
    call of the post-hook; a post-hook call in a turn means that the
    dispatch returned; and when it returned an index-aligned result the
    post-hook is called once, with the result. *)
Theorem hooks_around_dispatch self mi psf sigma1 i src nparents w :
  rows w !! i = Some src ->
  is_candidate src = true ->
  let r := deblend_src self mi psf sigma1 i src nparents w in
  let evs := events_since w (worldOf r) in
  candidates_of evs = [i]
  /\ (forall e,
        baseline_deblend self (argsFor self mi psf sigma1 src) = Raises e ->
        (exists w', r = Ok (nparents + 1) w') /\ List.filter is_posthook evs = [])
  /\ (List.filter is_posthook evs <> [] ->
      exists res, baseline_deblend self (argsFor self mi psf sigma1 src) = Returns res)
  /\ (forall res,
        baseline_deblend self (argsFor self mi psf sigma1 src) = Returns res ->
        length (peaks res) <= length (getPeaks (getFootprint src)) ->
        (exists w', r = Ok (nparents + 1) w')
        /\ exists kids, List.filter is_posthook evs = [EvPostHook i (length (rows w)) kids res]).
Proof.
  intros Hsrc Hcand r evs.
  assert (Hevs : evs = eff_events (src_effect self mi psf sigma1 i src
                                     (length (rows w)) (nextId w))).
  { unfold evs, r. rewrite deblend_src_run by (by eapply lookup_lt_Some).
    by rewrite worldOf_finish, events_since_apply. }
  split; [|split; [|split]].
  - by rewrite Hevs, src_effect_candidates, Hcand.
  - intros e Hraise. split.
    + unfold r. erewrite failing_turn_run by done. eauto.
    + unfold evs, r. erewrite failing_turn_run by done.
      unfold events_since; cbn [worldOf trace]. by rewrite drop_app_length.
  - rewrite Hevs. apply src_effect_posthook.
  - intros res Hret Hlen.
    destruct (returning_turn_run self mi psf sigma1 i src nparents w res
                Hsrc Hcand Hret Hlen) as [Hrun _].
    split; [unfold r; rewrite Hrun; eauto|].
    unfold evs, r. rewrite Hrun. unfold events_since; cbn [worldOf trace].
    rewrite drop_app_length. eexists.
    rewrite !List.filter_app.
    rewrite (filter_posthook_inner (eff_events _)) by apply peaks_effect_events.
    reflexivity.
Qed.

(** C4, at the default configuration: with [maxNumberOfPeaks = 0], which
    the configuration documents as "unlimited", the turn of a blend of two
    peaks writes [tooManyPeaks = True] on it. *)
Theorem tooManyPeaks_set_under_default_cap :
  maxNumberOfPeaks defaultConfig = 0%Z
  /\ exists w' src',
       deblend_src (taskWith defaultConfig splitEachPeak) exampleImage examplePsf
         2%float 0 (detection 1 [peakAt 1 1; peakAt 2 2]) 0 oneBlend = Ok 1 w'
       /\ rows w' !! 0 = Some src'
       /\ fields src' !! tooManyPeaksKey = Some (VFlag true)
       /\ getFlag src' deblendFailedKey = false
       /\ getInt src' nChildKey = 2%Z.
Proof.
  split; [reflexivity|].
  eexists _, _. split; [vm_compute; reflexivity|].
  split; [reflexivity|]. split; [|split]; vm_compute; reflexivity.
Qed.

Lemma src_effect_dispatch self mi psf sigma1 i src n nid :
  List.filter is_dispatch (eff_events (src_effect self mi psf sigma1 i src n nid))
  = if is_candidate src then [EvDeblend (argsFor self mi psf sigma1 src)] else [].
Proof.
  unfold src_effect. destruct (is_candidate src); [|done].
  destruct (baseline_deblend _ _) as [res|e]; cbn [eff_events]; [|done].
  rewrite !List.filter_app.
  rewrite (filter_inner is_dispatch (eff_events _))
    by (try apply peaks_effect_events; intros ev; unfold inner_event; by destruct ev).
  by destruct (eff_error _).
Qed.

(** C8, as the code has it: the turn of a candidate calls the external
    routine once, and the PSF width it passes is the determinant radius of
    the shape at the PSF's average position, times 2.35.  The bounding box
    handed to [_getPsfFwhm] is not used: the width is the same for every
    bounding box. *)
Theorem psf_width_is_default_shape self mi psf sigma1 i src nparents w :
  rows w !! i = Some src ->
  is_candidate src = true ->
  List.filter is_dispatch
    (events_since w (worldOf (deblend_src self mi psf sigma1 i src nparents w)))
  = [EvDeblend (argsFor self mi psf sigma1 src)]
  /\ arg_psf_fwhm (argsFor self mi psf sigma1 src)
     = _getPsfFwhm psf (getBBox (getFootprint src))
  /\ (forall bbox,
        _getPsfFwhm psf bbox
        = PrimFloat.mul (getDeterminantRadius (shapeAt psf (getAveragePosition psf)))
            0x1.2cccccccccccdp+1%float).
Proof.
  intros Hsrc Hcand. split; [|split; [reflexivity|reflexivity]].
  rewrite deblend_src_run by (by eapply lookup_lt_Some).
  by rewrite worldOf_finish, events_since_apply, src_effect_dispatch, Hcand.
Qed.

(** C8 as stated fails: for a PSF whose shape varies over the image, the
    width the code computes for a bounding box is not the width of the
    shape at the centre of the box, nor at any position other than the
    PSF's average position. *)
Lemma psf_width_not_at_bbox :
  _getPsfFwhm examplePsf exampleBox <> psfFwhmAt examplePsf exampleBoxCentre
  /\ forall p,
       PrimFloat.eqb (getX p) 0%float && PrimFloat.eqb (getY p) 0%float = false ->
       _getPsfFwhm examplePsf exampleBox <> psfFwhmAt examplePsf p.
Proof.
  assert (Hp : forall p,
    PrimFloat.eqb (getX p) 0%float && PrimFloat.eqb (getY p) 0%float = false ->
    _getPsfFwhm examplePsf exampleBox <> psfFwhmAt examplePsf p).
  { intros p Hfar Heq. unfold psfFwhmAt, computeShape, examplePsf in Heq.
    cbn [shapeAt] in Heq. rewrite Hfar in Heq.
    apply (f_equal (fun x => PrimFloat.ltb x 3%float)) in Heq.
    vm_compute in Heq. discriminate. }
  split; [|exact Hp]. apply Hp. vm_compute. reflexivity.
Qed.

(** ** Which rows the loop visits *)

Lemma candidate_at_footprint w1 w2 k :
  (getFootprint <$> rows w1) !! k = (getFootprint <$> rows w2) !! k ->
  candidate_at w1 k = candidate_at w2 k.
Proof.
  rewrite !list_lookup_fmap. unfold candidate_at, is_candidate.
  destruct (rows w1 !! k), (rows w2 !! k); simpl; intros [=]; congruence.
Qed.

Lemma child_record_footprint sid nid peak heavy :
  getFootprint (child_record sid nid peak heavy) = heavy.
Proof. unfold child_record, fill_record. by destruct (deblendedAsPsf peak). Qed.

Lemma apply_effect_footprints i e w :
  fields_only (eff_parent e) ->
  getFootprint <$> rows (apply_effect i e w)
  = (getFootprint <$> rows w) ++ (getFootprint <$> eff_children e).
Proof.
  intros Hf. simpl. rewrite fmap_app. f_equal.
  rewrite (list_fmap_alter getFootprint (eff_parent e) (fun fp => fp)).
  - by apply list_alter_id.
  - apply Forall_forall. intros r _. apply Hf.
Qed.

Lemma src_effect_flux_portions self mi psf sigma1 i src n nid :
  Forall (flux_portion_of self)
    (getFootprint <$> eff_children (src_effect self mi psf sigma1 i src n nid)).
Proof.
  apply Forall_fmap, Forall_forall. intros c Hc.
  apply src_effect_children in Hc as (res & peak & heavy & nid' & Hret & Hin & _ & Hflux & ->).
  unfold compose. rewrite child_record_footprint.
  by exists (argsFor self mi psf sigma1 src), res, peak.
Qed.

Lemma filter_seq_ext (f g : nat -> bool) a n :
  (forall k, a <= k < a + n -> f k = g k) ->
  List.filter f (seq a n) = List.filter g (seq a n).
Proof.
  intros H. apply List.filter_ext_in. intros k Hk%in_seq. apply H. lia.
Qed.

Lemma filter_seq_none (f : nat -> bool) a n :
  (forall k, a <= k < a + n -> f k = false) ->
  List.filter f (seq a n) = [].
Proof.
  intros H. rewrite (filter_seq_ext f (fun _ => false)) by done.
  induction (seq a n); simpl; done.
Qed.

(** What holds of the world after every turn of a run that started at
    position 0 of world [w0]. *)
Lemma deblend_loop_visits self mi psf sigma1 it fuel w0 nparents w' :
  deblend_loop self mi psf sigma1 it (length (rows w0)) fuel 0 0 w0
  = Some (Ok nparents w') ->
  (exists extra,
      getFootprint <$> rows w' = (getFootprint <$> rows w0) ++ extra
      /\ Forall (flux_portion_of self) extra)
  /\ exists evs,
       trace w' = trace w0 ++ evs
       /\ candidates_of evs
          = List.filter (candidate_at w')
              (seq 0 (iteration_end it (length (rows w0)) w'))
       /\ nparents = length (candidates_of evs).
Proof.
  intros Hrun.
  pose (Inv := fun (i np : nat) (w : World) =>
    i <= length (rows w)
    /\ (it = OverRowsAtStart -> i <= length (rows w0))
    /\ (exists extra,
           getFootprint <$> rows w = (getFootprint <$> rows w0) ++ extra
           /\ Forall (flux_portion_of self) extra)
    /\ exists evs,
         trace w = trace w0 ++ evs
         /\ candidates_of evs = List.filter (candidate_at w) (seq 0 i)
         /\ np = length (candidates_of evs)).
  assert (Hturn : forall i np w src,
    Inv i np w -> next_row it (length (rows w0)) w i = Some src ->
    Inv (S i) (nparents_after src np)
      (apply_effect i (src_effect self mi psf sigma1 i src (length (rows w)) (nextId w)) w)).
  { intros i np w src (Hi & _ & (extra & Hfp & Hextra) & evs & Htr & Hcands & Hnp) Hnext.
    apply next_row_Some in Hnext as [Hsrc Hbound].
    set (e := src_effect self mi psf sigma1 i src (length (rows w)) (nextId w)).
    pose proof (apply_effect_footprints i e w (src_effect_parent _ _ _ _ _ _ _ _)) as Hfp'.
    apply lookup_lt_Some in Hsrc as Hlt.
    assert (Hsame : forall k, k < length (rows w) ->
              candidate_at (apply_effect i e w) k = candidate_at w k).
    { intros k Hk. apply candidate_at_footprint. rewrite Hfp'.
      apply lookup_app_l. by rewrite length_fmap. }
    split; [rewrite apply_effect_length; lia|].
    split; [intros Hit; specialize (Hbound Hit); lia|]. split.
    - exists (extra ++ (getFootprint <$> eff_children e)). split.
      + by rewrite Hfp', Hfp, app_assoc.
      + apply Forall_app. split; [done | apply src_effect_flux_portions].
    - exists (evs ++ eff_events e). split; [simpl; by rewrite Htr, app_assoc|].
      rewrite candidates_of_app, Hcands. unfold e at 1 3. rewrite src_effect_candidates.
      rewrite seq_S, List.filter_app. simpl.
      rewrite (Hsame i Hlt). unfold candidate_at at 3. rewrite Hsrc.
      rewrite (filter_seq_ext (candidate_at (apply_effect i e w)) (candidate_at w))
        by (intros; apply Hsame; lia).
      split; [done|].
      rewrite length_app, Hnp, Hcands. unfold nparents_after.
      destruct (is_candidate src); simpl; lia. }
  assert (Hstart : Inv 0 0 w0).
  { split; [lia|]. split; [lia|]. split.
    - exists []. by rewrite app_nil_r.
    - exists []. by rewrite app_nil_r. }
  destruct (deblend_loop_invariant self mi psf sigma1 it (length (rows w0)) Inv Hturn
              fuel 0 0 w0 _ Hstart Hrun)
    as (i' & (Hi & Hbound & Hfps & evs & Htr & Hcands & Hnp) & Hend).
  split; [done|]. exists evs. split; [done|]. split; [|done].
  rewrite Hcands. f_equal. f_equal.
  destruct Hfps as (extra & Hfp & _).
  assert (Hlen : length (rows w0) <= length (rows w')).
  { rewrite <- (length_fmap getFootprint (rows w')), Hfp, length_app, length_fmap. lia. }
  destruct it; simpl in Hend |- *.
  - apply lookup_ge_None in Hend. lia.
  - specialize (Hbound eq_refl).
    destruct (Nat.ltb_spec i' (length (rows w0))); [|lia].
    apply lookup_ge_None in Hend. lia.
Qed.

(** A call of [run] that returns has run the loop to its normal end,
    between the two info lines. *)
Lemma run_returns self it fuel exposure psf w w' :
  run self it fuel exposure psf w = Some (Ok tt w') ->
  exists sigma1 nparents w1,
    deblend_loop self (getMaskedImage exposure) psf sigma1 it (length (rows w)) fuel 0 0
      {| rows := rows w; nextId := nextId w;
         trace := trace w ++ [EvLogInfo (MsgDeblending (length (rows w)))] |}
    = Some (Ok nparents w1)
    /\ rows w' = rows w1 /\ nextId w' = nextId w1
    /\ trace w' = trace w1
         ++ [EvLogInfo (MsgDeblended (length (rows w)) nparents
               (Z.of_nat (length (rows w1)) - Z.of_nat (length (rows w)))
               (length (rows w1)))].
Proof.
  unfold run, deblend. rewrite !bind_run. unfold len_srcs at 1.
  rewrite !bind_run, emit_run, bind_run. unfold math_sqrt.
  destruct (PrimFloat.ltb _ _); [by intros [=]|].
  unfold ret at 1. rewrite bind_run. unfold len_srcs at 1, ret at 1.
  cbn [rows nextId trace].
  destruct (deblend_loop _ _ _ _ _ _ _ _ _ _) as [[np w1|err w1]|] eqn:Hloop; [|done|done].
  rewrite bind_run. unfold len_srcs. rewrite emit_run. intros [= <-].
  by exists (PrimFloat.sqrt (medianVariance (getMaskedImage exposure))), np, w1.
Qed.

(** With an iterator bounded by the rows at the start, a call of [run]
    ends (normally or by raising) within [n0 + 1] turns. *)
Lemma run_bounded_ends self fuel exposure psf w :
  length (rows w) < fuel ->
  run self OverRowsAtStart fuel exposure psf w <> None.
Proof.
  intros Hfuel. unfold run, deblend. rewrite !bind_run. unfold len_srcs at 1.
  rewrite !bind_run, emit_run, bind_run. unfold math_sqrt.
  destruct (PrimFloat.ltb _ _); [done|].
  unfold ret at 1. rewrite bind_run. unfold len_srcs at 1, ret at 1.
  cbn [rows nextId trace].
  pose proof (deblend_loop_bounded_ends self (getMaskedImage exposure) psf
    (PrimFloat.sqrt (medianVariance (getMaskedImage exposure))) (length (rows w)) fuel 0 0
    {| rows := rows w; nextId := nextId w;
       trace := trace w ++ [EvLogInfo (MsgDeblending (length (rows w)))] |}) as Hends.
  destruct (deblend_loop _ _ _ _ _ _ _ _ _ _) as [[np w1|err w1]|]; [done|done|].
  exfalso. apply Hends; [lia | reflexivity].
Qed.

(** C1, as the code has it: [n0] is taken at call start and only reported
    in the closing info line; which rows the loop visits is up to the
    iterator of the catalog.  When a call of [run] returns, the rows
    processed as candidates are, in position order and each once, the
    rows with at least 2 peaks below the iterator's end: the end of the
    final catalog, rows appended during the call included, when the
    iterator follows the growing catalog; [n0] when it is bounded by the
    rows at the start.  The rows present at call start keep their place
    and their footprint; so with a bounded iterator, or when no flux
    portion of the external routine has 2 peaks or more, the rows
    processed as candidates are exactly the candidates among the [n0]
    rows present at call start. *)
Theorem run_visits_what_the_iterator_yields self it fuel exposure psf w w' :
  run self it fuel exposure psf w = Some (Ok tt w') ->
  let n0 := length (rows w) in
  let n1 := length (rows w') in
  let visited := candidates_of (events_since w w') in
  n0 <= n1
  /\ visited = List.filter (candidate_at w') (seq 0 (iteration_end it n0 w'))
  /\ last (trace w')
     = Some (EvLogInfo (MsgDeblended n0 (length visited) (Z.of_nat n1 - Z.of_nat n0) n1))
  /\ (forall k, k < n0 -> candidate_at w' k = candidate_at w k)
  /\ (it = OverRowsAtStart
      \/ (forall fp, flux_portion_of self fp -> length (getPeaks fp) < 2) ->
      visited = List.filter (candidate_at w) (seq 0 n0)).
Proof.
  intros Hrun n0 n1 visited.
  destruct (run_returns _ _ _ _ _ _ _ Hrun) as (sigma1 & np & w1 & Hloop & Hrows & _ & Htr).
  destruct (deblend_loop_visits self _ psf sigma1 it fuel _ np w1 Hloop)
    as ((extra & Hfp & Hextra) & evs & Htr1 & Hcands & Hnp).
  cbn [rows trace] in Hfp, Htr1, Hcands. fold n0 in Hcands.
  assert (Hat : forall k, candidate_at w' k = candidate_at w1 k).
  { intros k. unfold candidate_at. by rewrite Hrows. }
  assert (Hvisited : visited = candidates_of evs).
  { unfold visited, events_since. rewrite Htr, Htr1, <- !app_assoc, drop_app_length.
    rewrite !candidates_of_app. simpl. by rewrite app_nil_r. }
  assert (Hlen : length (rows w1) = n0 + length extra).
  { rewrite <- (length_fmap getFootprint (rows w1)), Hfp, length_app.
    by rewrite length_fmap. }
  assert (Hold : forall k, k < n0 -> candidate_at w' k = candidate_at w k).
  { intros k Hk. rewrite Hat. apply candidate_at_footprint. rewrite Hfp.
    apply lookup_app_l. by rewrite length_fmap. }
  assert (Hend : iteration_end it n0 w' = iteration_end it n0 w1).
  { unfold iteration_end. by rewrite Hrows. }
  assert (Hfilter : visited
            = List.filter (candidate_at w') (seq 0 (iteration_end it n0 w'))).
  { rewrite Hvisited, Hcands, Hend. apply filter_seq_ext. intros; by rewrite Hat. }
  split; [unfold n1; rewrite Hrows; lia|]. split; [done|].
  split; [|split; [done|]].
  - rewrite Htr, last_snoc. rewrite Hvisited, <- Hnp. unfold n1. by rewrite Hrows.
  - intros Hsingle. rewrite Hfilter.
    destruct Hsingle as [-> | Hsmall].
    { simpl. apply filter_seq_ext. intros k Hk. apply Hold. lia. }
    assert (Hall : List.filter (candidate_at w') (seq 0 n1)
                   = List.filter (candidate_at w) (seq 0 n0)).
    { unfold n1. rewrite Hrows, Hlen. rewrite seq_app, List.filter_app.
      rewrite (filter_seq_none _ (0 + n0)).
      - rewrite app_nil_r. apply filter_seq_ext. intros k Hk. apply Hold. lia.
      - intros k Hk. rewrite Hat. unfold candidate_at.
        destruct (rows w1 !! k) as [c|] eqn:Hc; [|done].
        assert (Hfpc : (getFootprint <$> rows w1) !! k = Some (getFootprint c))
          by (by rewrite list_lookup_fmap, Hc).
        rewrite Hfp, lookup_app_r in Hfpc by (rewrite length_fmap; unfold n0 in *; lia).
        apply list_elem_of_lookup_2 in Hfpc.
        rewrite Forall_forall in Hextra. specialize (Hsmall _ (Hextra _ Hfpc)).
        destruct (is_candidate c) eqn:E; [|done]. apply is_candidate_peaks in E. lia. }
    destruct it; simpl; [exact Hall|].
    apply filter_seq_ext. intros k Hk. apply Hold. lia.
Qed.

(** C1 as stated fails: with a catalog of one row at call start and an
    iterator that follows the growing catalog, the row appended at
    position 1 has two peaks and is processed as a candidate in the same
    call; the closing info line reports 2 deblended sources out of 1. *)
Lemma appended_child_is_deblended :
  exists w',
    run (taskWith defaultConfig nestedRoutine) OverGrowingCatalog 10
      exampleExposure examplePsf oneBlend
    = Some (Ok tt w')
    /\ length (rows oneBlend) = 1
    /\ candidates_of (events_since oneBlend w') = [0; 1]
    /\ length (List.filter is_dispatch (events_since oneBlend w')) = 2
    /\ getParent <$> rows w' = [0; 1; 1; 2; 2]%Z
    /\ last (trace w') = Some (EvLogInfo (MsgDeblended 1 2 4 5)).
Proof.
  eexists. split; [vm_compute; reflexivity|].
  repeat split; vm_compute; reflexivity.
Qed.

(** ** Turns do not read other rows *)

Lemma agree_except_refl D w : agree_except D w w.
Proof. by repeat split. Qed.

Lemma apply_effect_agree D i e w1 w2 :
  i <> D ->
  agree_except D w1 w2 ->
  agree_except D (apply_effect i e w1) (apply_effect i e w2).
Proof.
  intros Hne (Hlen & Hid & Htr & Hrows). unfold agree_except, apply_effect; simpl.
  split; [by rewrite !length_app, !length_alter, Hlen|].
  split; [by rewrite Hid|]. split; [by rewrite Htr|].
  intros k Hk.
  destruct (decide (k < length (rows w1))) as [Hlt|Hge].
  - rewrite !lookup_app_l by (rewrite length_alter; lia).
    rewrite !list_lookup_alter. case_decide; by rewrite Hrows.
  - rewrite !lookup_app_r by (rewrite length_alter; lia).
    by rewrite !length_alter, Hlen.
Qed.

Lemma deblend_loop_agree self mi psf sigma1 it n_start D fuel :
  forall i nparents w1 w2,
    D < i ->
    agree_except D w1 w2 ->
    res_agree_except D
      (deblend_loop self mi psf sigma1 it n_start fuel i nparents w1)
      (deblend_loop self mi psf sigma1 it n_start fuel i nparents w2).
Proof.
  induction fuel as [|fuel IH]; intros i nparents w1 w2 Hi Hagree; [done|].
  destruct Hagree as (Hlen & Hid & Htr & Hrows).
  assert (Hrow : next_row it n_start w1 i = next_row it n_start w2 i).
  { unfold next_row. rewrite (Hrows i) by lia. done. }
  destruct (next_row it n_start w1 i) as [src|] eqn:Hsrc.
  - rewrite (deblend_loop_step _ _ _ _ _ _ _ _ _ w1 src) by done.
    rewrite (deblend_loop_step _ _ _ _ _ _ _ _ _ w2 src) by done.
    cbv zeta. rewrite <- Hlen, <- Hid.
    assert (Hnext : agree_except D
      (apply_effect i (src_effect self mi psf sigma1 i src (length (rows w1)) (nextId w1)) w1)
      (apply_effect i (src_effect self mi psf sigma1 i src (length (rows w1)) (nextId w1)) w2)).
    { apply apply_effect_agree; [lia | done]. }
    destruct (eff_error _); [done|]. apply IH; [lia | done].
  - rewrite !deblend_loop_done by done. done.
Qed.

(** C2: when the external routine raises on candidate D, the exception is
    caught: D's turn ends normally, [deblendFailed] is true on D's row and
    [nchild] is not written (it reads 0 when it was at its default).  The
    loop goes on with the next position, in a world that differs from the
    one before D's turn only in D's row and the trace; and from there the
    run does, call for call and row for row, what it does when D's row is
    left as it was: the later detections get what they get without D's
    failure. *)
Theorem failure_is_isolated self mi psf sigma1 D src nparents w e :
  rows w !! D = Some src ->
  is_candidate src = true ->
  baseline_deblend self (argsFor self mi psf sigma1 src) = Raises e ->
  exists w' src',
    deblend_src self mi psf sigma1 D src nparents w = Ok (nparents + 1) w'
    /\ rows w' !! D = Some src'
    /\ getFlag src' deblendFailedKey = true
    /\ fields src' !! nChildKey = fields src !! nChildKey
    /\ (fields src !! nChildKey = None -> getInt src' nChildKey = 0%Z)
    /\ agree_except D w' {| rows := rows w; nextId := nextId w; trace := trace w' |}
    /\ (forall it n_start fuel,
          next_row it n_start w D = Some src ->
          deblend_loop self mi psf sigma1 it n_start (S fuel) D nparents w
          = deblend_loop self mi psf sigma1 it n_start fuel (S D) (nparents + 1) w')
    /\ (forall it n_start fuel np,
          res_agree_except D
            (deblend_loop self mi psf sigma1 it n_start fuel (S D) np w')
            (deblend_loop self mi psf sigma1 it n_start fuel (S D) np
               {| rows := rows w; nextId := nextId w; trace := trace w' |})).
Proof.
  intros Hsrc Hcand Hraise.
  pose proof (failing_turn_run self mi psf sigma1 D src nparents w e
                Hsrc Hcand Hraise) as Hrun.
  apply lookup_lt_Some in Hsrc as HD.
  eexists _, (markFailed self src). split; [exact Hrun|].
  set (w' := {| rows := <[D := markFailed self src]> (rows w); nextId := nextId w;
                trace := trace w ++ failure_events self mi psf sigma1 D src e |}) in *.
  assert (Hagree : agree_except D w'
            {| rows := rows w; nextId := nextId w; trace := trace w' |}).
  { unfold agree_except; simpl. split; [by rewrite length_insert|].
    split; [done|]. split; [done|].
    intros k Hk. by apply list_lookup_insert_ne. }
  assert (Hn : fields (markFailed self src) !! nChildKey = fields src !! nChildKey).
  { unfold markFailed; simpl. by rewrite !lookup_insert_ne. }
  split; [by apply list_lookup_insert_eq|].
  split; [unfold getFlag, markFailed; simpl; by rewrite lookup_insert_eq|].
  split; [done|].
  split; [intros Hdef; unfold getInt; by rewrite Hn, Hdef|].
  split; [done|]. split.
  - intros it n_start fuel Hnext. simpl. by rewrite Hnext, Hrun.
  - intros it n_start fuel np. apply deblend_loop_agree; [lia | done].
Qed.

(** ** Scenarios *)

(** With a cap [<= 0] every candidate has more peaks than the cap. *)
Lemma tooMany_without_cap self src :
  (maxNumberOfPeaks (config self) <= 0)%Z ->
  is_candidate src = true ->
  tooMany self src = true.
Proof.
  intros Hcap Hcand%is_candidate_peaks. unfold tooMany.
  apply Z.gtb_lt. lia.
Qed.

(** A blend of two peaks, both with a flux portion: two children,
    [nchild = 2], neither failed nor skipped. *)
Example two_peaks_two_children :
  exists w' parent,
    run (taskWith defaultConfig splitEachPeak) OverRowsAtStart 10
      exampleExposure examplePsf oneBlend = Some (Ok tt w')
    /\ rows w' !! 0 = Some parent
    /\ length (rows w') = 3
    /\ getInt parent nChildKey = 2%Z
    /\ fields parent !! deblendFailedKey = Some (VFlag false)
    /\ fields parent !! deblendSkippedKey = Some (VFlag false)
    /\ getParent <$> rows w' = [0; 1; 1]%Z.
Proof.
  eexists _, _. split; [vm_compute; reflexivity|].
  repeat split; vm_compute; reflexivity.
Qed.

(** A blend of three peaks under a cap of 2, the routine leaving the third
    outcome without flux portion: two children, [tooManyPeaks] and
    [deblendSkipped] true. *)
Example three_peaks_cap_two :
  exists w' parent,
    run (taskWith capTwo splitEachPeak) OverRowsAtStart 10 exampleExposure examplePsf
      (catalogOf [detection 1 [peakAt 1 1; peakAt 2 2; peakAt 3 3]]) = Some (Ok tt w')
    /\ rows w' !! 0 = Some parent
    /\ length (rows w') = 3
    /\ getInt parent nChildKey = 2%Z
    /\ getFlag parent tooManyPeaksKey = true
    /\ getFlag parent deblendSkippedKey = true.
Proof.
  eexists _, _. split; [vm_compute; reflexivity|].
  repeat split; vm_compute; reflexivity.
Qed.

(** The nested blend under an iterator bounded by the rows at the start:
    the appended row with two peaks is not visited. *)
Example bounded_iterator_single_pass :
  exists w',
    run (taskWith defaultConfig nestedRoutine) OverRowsAtStart 10
      exampleExposure examplePsf oneBlend = Some (Ok tt w')
    /\ candidates_of (events_since oneBlend w') = [0]
    /\ candidate_at w' 1 = true
    /\ last (trace w') = Some (EvLogInfo (MsgDeblended 1 1 2 3)).
Proof.
  eexists. split; [vm_compute; reflexivity|].
  repeat split; vm_compute; reflexivity.
Qed.

(** A negative median variance: [math.sqrt] raises before the loop. *)
Example negative_variance_raises :
  run (taskWith defaultConfig splitEachPeak) OverRowsAtStart 10
    {| getMaskedImage := {| medianVariance := (-1)%float |} |} examplePsf oneBlend
  = Some (Raise ValueError
            {| rows := rows oneBlend; nextId := nextId oneBlend;
               trace := [EvLogInfo (MsgDeblending 1)] |}).
Proof. vm_compute; reflexivity. Qed.

(** A result longer than the peak list whose extra outcome is
    skip-flagged: the debug line reads [pks[j]] and raises. *)
Example unaligned_result_raises :
  exists w',
    deblend_src
      (taskWith defaultConfig
         (fun a => Returns {| peaks := [outcomeFor (peakAt 1 1) (Some (footprintOf [peakAt 1 1]));
                                         outcomeFor (peakAt 2 2) (Some (footprintOf [peakAt 2 2]));
                                         outcomeFor (peakAt (-1) 0) None] |}))
      exampleImage examplePsf 2%float 0 (detection 1 [peakAt 1 1; peakAt 2 2]) 0 oneBlend
    = Raise IndexError w'
    /\ length (rows w') = 3
    /\ (forall parent, rows w' !! 0 = Some parent -> fields parent !! nChildKey = None).
Proof.
  eexists. split; [vm_compute; reflexivity|].
  split; [reflexivity|]. intros parent [= <-]. vm_compute; reflexivity.
Qed.

(** ** The theorems at concrete inputs *)

(** In [threeRows] the isolated source at position 0 is left alone. *)
Lemma non_candidate_untouched_witness :
  rows threeRows !! 0 = Some (detection 1 [peakAt 4 4])
  /\ length (getPeaks (getFootprint (detection 1 [peakAt 4 4]))) < 2
  /\ forall nparents,
       deblend_src (taskWith defaultConfig failOnSeven) exampleImage examplePsf 2%float
         0 (detection 1 [peakAt 4 4]) nparents threeRows
       = Ok nparents threeRows.
Proof.
  split; [reflexivity|]. split; [simpl; lia|].
  apply (non_candidate_untouched (taskWith defaultConfig failOnSeven) exampleImage
           examplePsf 2%float 0 (detection 1 [peakAt 4 4]) threeRows).
  - reflexivity.
  - simpl; lia.
Defined.

(** In [threeRows] the routine raises on the blend at position 1. *)
Lemma failure_is_isolated_witness :
  exists w' src',
    deblend_src (taskWith defaultConfig failOnSeven) exampleImage examplePsf 2%float
      1 (detection 2 [peakAt 7 7; peakAt 8 8]) 0 threeRows = Ok 1 w'
    /\ rows w' !! 1 = Some src'
    /\ getFlag src' deblendFailedKey = true
    /\ getInt src' nChildKey = 0%Z
    /\ length (rows w') = 3.
Proof.
  destruct (failure_is_isolated (taskWith defaultConfig failOnSeven) exampleImage
              examplePsf 2%float 1 (detection 2 [peakAt 7 7; peakAt 8 8]) 0 threeRows
              {| message := "no template" |})
    as (w' & src' & Hrun & Hrow & Hfailed & _ & Hnchild & (Hlen & _) & _).
  - reflexivity.
  - reflexivity.
  - reflexivity.
  - exists w', src'. split; [exact Hrun|]. split; [exact Hrow|].
    split; [exact Hfailed|]. split; [apply Hnchild; reflexivity | exact Hlen].
Defined.

(** In [threeRows] the blend at position 2 has three peaks, the last of
    them left of the image: two children. *)
Lemma nchild_counts_kept_outcomes_witness :
  exists w' src',
    deblend_src (taskWith defaultConfig failOnSeven) exampleImage examplePsf 2%float
      2 (detection 3 [peakAt 0 3; peakAt 3 3; peakAt (-1) 3]) 1 threeRows = Ok 2 w'
    /\ rows w' !! 2 = Some src'
    /\ getInt src' nChildKey = 2%Z
    /\ length (rows w') = 5.
Proof.
  edestruct (nchild_counts_kept_outcomes (taskWith defaultConfig failOnSeven) exampleImage
               examplePsf 2%float 2 (detection 3 [peakAt 0 3; peakAt 3 3; peakAt (-1) 3])
               1 threeRows)
    as (w' & src' & Hrun & Hrow & _ & Hnchild & _ & Hlen).
  - reflexivity.
  - reflexivity.
  - reflexivity.
  - vm_compute; lia.
  - exists w', src'. split; [exact Hrun|]. split; [exact Hrow|].
    split; [exact Hnchild | exact Hlen].
Defined.

(** The same blend: its last outcome is skip-flagged, so [deblendSkipped]
    ends true although two children were made. *)
Lemma deblendSkipped_is_last_outcome_witness :
  exists w' src',
    deblend_src (taskWith defaultConfig failOnSeven) exampleImage examplePsf 2%float
      2 (detection 3 [peakAt 0 3; peakAt 3 3; peakAt (-1) 3]) 1 threeRows = Ok 2 w'
    /\ rows w' !! 2 = Some src'
    /\ getFlag src' deblendSkippedKey = true.
Proof.
  edestruct (deblendSkipped_is_last_outcome (taskWith defaultConfig failOnSeven) exampleImage
               examplePsf 2%float 2 (detection 3 [peakAt 0 3; peakAt 3 3; peakAt (-1) 3])
               1 threeRows)
    as (w' & src' & Hrun & Hrow & _ & Hflag).
  - reflexivity.
  - reflexivity.
  - reflexivity.
  - vm_compute; lia.
  - reflexivity.
  - exists w', src'. split; [exact Hrun|]. split; [exact Hrow | exact Hflag].
Defined.

(** The second child of that blend is not a point source: its
    [psfCenter] and [psfFlux] are not written. *)
Lemma psf_fields_iff_deblendedAsPsf_witness :
  exists child,
    rows (worldOf (deblend_src (taskWith defaultConfig failOnSeven) exampleImage examplePsf
                     2%float 2 (detection 3 [peakAt 0 3; peakAt 3 3; peakAt (-1) 3])
                     1 threeRows)) !! 4 = Some child
    /\ getFlag child psfKey = false
    /\ written child psfCenterKey = getFlag child psfKey
    /\ written child psfFluxKey = getFlag child psfKey.
Proof.
  eexists. split; [vm_compute; reflexivity|]. split; [vm_compute; reflexivity|].
  apply (proj1 (psf_fields_iff_deblendedAsPsf (taskWith defaultConfig failOnSeven)
                  exampleImage examplePsf 2%float threeRows)
           2 (detection 3 [peakAt 0 3; peakAt 3 3; peakAt (-1) 3]) 1 4).
  - reflexivity.
  - simpl; lia.
  - vm_compute; reflexivity.
Defined.

(** The width passed for that blend, whose box is far from the origin,
    is the one of the shape at the origin. *)
Lemma psf_width_is_default_shape_witness :
  List.filter is_dispatch
    (events_since threeRows
       (worldOf (deblend_src (taskWith defaultConfig failOnSeven) exampleImage examplePsf
                   2%float 2 (detection 3 [peakAt 0 3; peakAt 3 3; peakAt (-1) 3])
                   1 threeRows)))
  = [EvDeblend (argsFor (taskWith defaultConfig failOnSeven) exampleImage examplePsf 2%float
                  (detection 3 [peakAt 0 3; peakAt 3 3; peakAt (-1) 3]))]
  /\ arg_psf_fwhm (argsFor (taskWith defaultConfig failOnSeven) exampleImage examplePsf
                     2%float (detection 3 [peakAt 0 3; peakAt 3 3; peakAt (-1) 3]))
     = 0x1.2cccccccccccdp+1%float.
Proof.
  destruct (psf_width_is_default_shape (taskWith defaultConfig failOnSeven) exampleImage
              examplePsf 2%float 2 (detection 3 [peakAt 0 3; peakAt 3 3; peakAt (-1) 3])
              1 threeRows) as (Hcall & Hwidth & Hany).
  - reflexivity.
  - reflexivity.
  - split; [exact Hcall|]. rewrite Hwidth, Hany. vm_compute; reflexivity.
Defined.

(** The failing blend of [threeRows]: pre-hook called, post-hook not. *)
Lemma hooks_around_dispatch_witness :
  candidates_of
    (events_since threeRows
       (worldOf (deblend_src (taskWith defaultConfig failOnSeven) exampleImage examplePsf
                   2%float 1 (detection 2 [peakAt 7 7; peakAt 8 8]) 0 threeRows)))
  = [1]
  /\ List.filter is_posthook
       (events_since threeRows
          (worldOf (deblend_src (taskWith defaultConfig failOnSeven) exampleImage examplePsf
                      2%float 1 (detection 2 [peakAt 7 7; peakAt 8 8]) 0 threeRows)))
     = [].
Proof.
  destruct (hooks_around_dispatch (taskWith defaultConfig failOnSeven) exampleImage
              examplePsf 2%float 1 (detection 2 [peakAt 7 7; peakAt 8 8]) 0 threeRows)
    as (Hpre & Hraise & _).
  - reflexivity.
  - reflexivity.
  - split; [exact Hpre|].
    apply (Hraise {| message := "no template" |}). reflexivity.
Defined.

(** The failing blend of [threeRows]: two writes, no new row. *)
Lemma failed_candidate_writes_witness :
  exists w',
    deblend_src (taskWith defaultConfig failOnSeven) exampleImage examplePsf 2%float
      1 (detection 2 [peakAt 7 7; peakAt 8 8]) 0 threeRows = Ok 1 w'
    /\ List.filter is_catalog_write (events_since threeRows w')
       = [EvSet 1 tooManyPeaksKey (VFlag true); EvSet 1 deblendFailedKey (VFlag true)]
    /\ length (rows w') = 3.
Proof.
  destruct (failed_candidate_writes (taskWith defaultConfig failOnSeven) exampleImage
              examplePsf 2%float 1 (detection 2 [peakAt 7 7; peakAt 8 8]) 0 threeRows
              {| message := "no template" |})
    as (w' & Hrun & Hwrites & _ & Hlen & _).
  - reflexivity.
  - reflexivity.
  - reflexivity.
  - exists w'. split; [exact Hrun|]. split; [exact Hwrites | exact Hlen].
Defined.

(** A run over [threeRows] with a routine whose flux portions have one
    peak each: the two blends present at call start are the candidates. *)
Lemma run_visits_what_the_iterator_yields_witness :
  exists w',
    run (taskWith defaultConfig failOnSeven) OverGrowingCatalog 10
      exampleExposure examplePsf threeRows
    = Some (Ok tt w')
    /\ length (rows w') = 5
    /\ candidates_of (events_since threeRows w')
       = List.filter (candidate_at w') (seq 0 (length (rows w')))
    /\ candidates_of (events_since threeRows w') = [1; 2].
Proof.
  eexists. split; [vm_compute; reflexivity|]. split; [vm_compute; reflexivity|].
  split; [|vm_compute; reflexivity].
  refine (proj1 (proj2 (run_visits_what_the_iterator_yields
            (taskWith defaultConfig failOnSeven) OverGrowingCatalog 10
            exampleExposure examplePsf threeRows _ _))).
  vm_compute; reflexivity.
Defined.

(** * Further properties of the code *)

(** ** The prologue and the closing line of [deblend] *)

(** The world after the opening info line. *)
Lemma run_cases self it fuel exposure psf w r :
  run self it fuel exposure psf w = Some r ->
  let mi := getMaskedImage exposure in
  let w0 := {| rows := rows w; nextId := nextId w;
               trace := trace w ++ [EvLogInfo (MsgDeblending (length (rows w)))] |} in
  (PrimFloat.ltb (medianVariance mi) 0%float = true /\ r = Raise ValueError w0)
  \/ (PrimFloat.ltb (medianVariance mi) 0%float = false
      /\ exists r1,
           deblend_loop self mi psf (PrimFloat.sqrt (medianVariance mi)) it
             (length (rows w)) fuel 0 0 w0 = Some r1
           /\ match r1 with
              | Ok nparents w1 =>
                  r = Ok tt {| rows := rows w1; nextId := nextId w1;
                               trace := trace w1
                                 ++ [EvLogInfo (MsgDeblended (length (rows w)) nparents
                                       (Z.of_nat (length (rows w1)) - Z.of_nat (length (rows w)))
                                       (length (rows w1)))] |}
              | Raise e w1 => r = Raise e w1
              end).
Proof.
  unfold run, deblend. rewrite !bind_run. unfold len_srcs at 1.
  rewrite !bind_run, emit_run, bind_run. unfold math_sqrt.
  destruct (PrimFloat.ltb _ _); [intros [= <-]; by left|].
  unfold ret at 1. rewrite bind_run. unfold len_srcs at 1, ret at 1.
  cbn [rows nextId trace].
  destruct (deblend_loop _ _ _ _ _ _ _ _ _ _) as [[np w1|err w1]|] eqn:Hloop; [| |done].
  - rewrite bind_run. unfold len_srcs. rewrite emit_run. intros [= <-].
    right. split; [done|]. by exists (Ok np w1).
  - intros [= <-]. right. split; [done|]. by exists (Raise err w1).
Qed.

(** X1: when the median of the variance plane is negative, [math.sqrt]
    raises before the loop: the call ends with ValueError whatever the
    catalog and its iterator, having logged the opening info line and
    nothing else; no row is read, written or appended and the external
    routine is not called. *)
Theorem negative_variance_raises_before_loop self it fuel exposure psf w :
  PrimFloat.ltb (medianVariance (getMaskedImage exposure)) 0%float = true ->
  run self it fuel exposure psf w
  = Some (Raise ValueError
            {| rows := rows w; nextId := nextId w;
               trace := trace w ++ [EvLogInfo (MsgDeblending (length (rows w)))] |}).
Proof.
  intros Hneg. unfold run, deblend. rewrite !bind_run. unfold len_srcs at 1.
  rewrite !bind_run, emit_run, bind_run. unfold math_sqrt.
  cbn [rows nextId trace]. by rewrite Hneg.
Qed.

Lemma negative_variance_raises_before_loop_witness :
  run (taskWith defaultConfig splitEachPeak) OverGrowingCatalog 0 cloudyExposure
    examplePsf threeRows
  = Some (Raise ValueError
            {| rows := rows threeRows; nextId := nextId threeRows;
               trace := [EvLogInfo (MsgDeblending 3)] |}).
Proof.
  apply (negative_variance_raises_before_loop (taskWith defaultConfig splitEachPeak)
           OverGrowingCatalog 0 cloudyExposure examplePsf threeRows).
  vm_compute; reflexivity.
Defined.

(** A stretch of rows without blends is walked without effect. *)
Lemma deblend_loop_skips self mi psf sigma1 it n_start fuel :
  forall i nparents w,
    (forall k r, i <= k -> rows w !! k = Some r -> is_candidate r = false) ->
    length (rows w) - i < fuel ->
    deblend_loop self mi psf sigma1 it n_start fuel i nparents w = Some (Ok nparents w).
Proof.
  induction fuel as [|fuel IH]; intros i nparents w Hnone Hfuel; [lia|].
  destruct (next_row it n_start w i) as [src|] eqn:Hnext.
  - rewrite (deblend_loop_step _ _ _ _ _ _ _ _ _ _ src) by done.
    apply next_row_Some in Hnext as [Hsrc _].
    assert (Hnc : is_candidate src = false) by (by apply (Hnone i)).
    cbv zeta. rewrite src_effect_non_candidate by done. simpl eff_error. cbv iota.
    rewrite apply_eff_nil. unfold nparents_after. rewrite Hnc.
    apply IH.
    + intros k r Hk. apply Hnone. lia.
    + apply lookup_lt_Some in Hsrc. lia.
  - by apply deblend_loop_done.
Qed.

(** X2: on a catalog in which no detection has 2 peaks or more (the empty
    catalog included), a call with a non-negative median variance
    returns, whatever the iterator, with the catalog as it was: the trace
    gains the opening line and the closing line "of n0 sources, 0 were
    deblended, creating 0 children, total n0 sources" and nothing else. *)
Theorem catalog_without_blends_untouched self it fuel exposure psf w :
  (forall r, r ∈ rows w -> length (getPeaks (getFootprint r)) < 2) ->
  PrimFloat.ltb (medianVariance (getMaskedImage exposure)) 0%float = false ->
  length (rows w) < fuel ->
  run self it fuel exposure psf w
  = Some (Ok tt {| rows := rows w; nextId := nextId w;
                   trace := trace w
                     ++ [EvLogInfo (MsgDeblending (length (rows w)));
                         EvLogInfo (MsgDeblended (length (rows w)) 0 0 (length (rows w)))] |}).
Proof.
  intros Hnone Hvar Hfuel. unfold run, deblend. rewrite !bind_run. unfold len_srcs at 1.
  rewrite !bind_run, emit_run, bind_run. unfold math_sqrt. rewrite Hvar.
  unfold ret at 1. rewrite bind_run. unfold len_srcs at 1, ret at 1.
  cbn [rows nextId trace].
  rewrite deblend_loop_skips.
  - rewrite bind_run. unfold len_srcs. rewrite emit_run. cbn [rows nextId trace].
    rewrite Z.sub_diag, <- app_assoc. reflexivity.
  - cbn [rows]. intros k r _ Hr.
    destruct (is_candidate r) eqn:E; [|done]. apply is_candidate_peaks in E.
    apply list_elem_of_lookup_2 in Hr. specialize (Hnone r Hr). lia.
  - cbn [rows]. lia.
Qed.

Lemma catalog_without_blends_untouched_witness :
  run (taskWith defaultConfig failOnSeven) OverGrowingCatalog 4 exampleExposure
    examplePsf noBlends
  = Some (Ok tt {| rows := rows noBlends; nextId := nextId noBlends;
                   trace := [EvLogInfo (MsgDeblending 3);
                             EvLogInfo (MsgDeblended 3 0 0 3)] |}).
Proof.
  apply (catalog_without_blends_untouched (taskWith defaultConfig failOnSeven)
           OverGrowingCatalog 4 exampleExposure examplePsf noBlends).
  - intros r Hr. apply list_elem_of_In in Hr. simpl in Hr.
    destruct Hr as [<-|[<-|[<-|[]]]]; simpl; lia.
  - vm_compute; reflexivity.
  - simpl; lia.
Defined.

(** ** What holds of every call in the trace of a run *)

Lemma deblend_loop_trace_forall self mi psf sigma1 it n_start (P : Event -> Prop) :
  (forall i src n nid, Forall P (eff_events (src_effect self mi psf sigma1 i src n nid))) ->
  forall fuel i nparents w r,
    deblend_loop self mi psf sigma1 it n_start fuel i nparents w = Some r ->
    exists evs, trace (worldOf r) = trace w ++ evs /\ Forall P evs.
Proof.
  intros Hturn fuel i nparents w r Hrun.
  pose (Inv := fun (_ _ : nat) (w' : World) =>
    exists evs, trace w' = trace w ++ evs /\ Forall P evs).
  assert (Hstep : forall k np w' src,
    Inv k np w' -> next_row it n_start w' k = Some src ->
    Inv (S k) (nparents_after src np)
      (apply_effect k (src_effect self mi psf sigma1 k src (length (rows w')) (nextId w')) w')).
  { intros k np w' src (evs & Htr & Hevs) _.
    exists (evs ++ eff_events (src_effect self mi psf sigma1 k src
                                 (length (rows w')) (nextId w'))).
    split; [simpl; by rewrite Htr, app_assoc|].
    apply Forall_app. split; [done | apply Hturn]. }
  assert (Hstart : Inv i nparents w) by (exists []; by rewrite app_nil_r).
  pose proof (deblend_loop_invariant self mi psf sigma1 it n_start Inv Hstep
                fuel i nparents w r Hstart Hrun) as H.
  destruct r; simpl; [destruct H as (? & H & _) | destruct H as (? & ? & H)]; exact H.
Qed.

Lemma run_trace_forall self it fuel exposure psf w r (P : Event -> Prop) :
  (forall m, P (EvLogInfo m)) ->
  (forall i src n nid,
      Forall P (eff_events (src_effect self (getMaskedImage exposure) psf
                              (PrimFloat.sqrt (medianVariance (getMaskedImage exposure)))
                              i src n nid))) ->
  run self it fuel exposure psf w = Some r ->
  Forall P (events_since w (worldOf r)).
Proof.
  intros Hlog Hturn Hrun.
  destruct (run_cases _ _ _ _ _ _ _ Hrun) as [[_ ->] | (_ & r1 & Hloop & Hr)].
  - unfold events_since; simpl. rewrite drop_app_length. by repeat constructor.
  - destruct (deblend_loop_trace_forall _ _ _ _ _ _ P Hturn _ _ _ _ _ Hloop)
      as (evs & Htr & Hevs).
    cbn [trace] in Htr.
    destruct r1 as [np w1|err w1]; subst r; unfold events_since; simpl in *.
    + rewrite Htr, <- !app_assoc, drop_app_length.
      constructor; [done|]. apply Forall_app. split; [done|]. by repeat constructor.
    + rewrite Htr, <- !app_assoc, drop_app_length. by constructor.
Qed.

Lemma Forall_of_inner (P : Event -> Prop) evs :
  (forall ev, inner_event ev = true -> P ev) ->
  forallb inner_event evs = true -> Forall P evs.
Proof.
  intros HP. induction evs as [|ev evs IH]; simpl; [constructor|].
  intros [Hev Hevs]%andb_true_iff. constructor; auto.
Qed.

Lemma src_effect_dispatch_with self mi psf sigma1 i src n nid :
  Forall (dispatch_with self mi psf sigma1)
    (eff_events (src_effect self mi psf sigma1 i src n nid)).
Proof.
  unfold src_effect. destruct (is_candidate src); [|constructor].
  assert (Hd : Forall (dispatch_with self mi psf sigma1)
                 (dispatch_events self mi psf sigma1 i src)).
  { unfold dispatch_events. repeat constructor. }
  destruct (baseline_deblend _ _) as [res|e]; cbn [eff_events].
  - apply Forall_app. split; [done|]. constructor; [done|].
    apply Forall_app. split.
    + apply Forall_of_inner; [|apply peaks_effect_events].
      intros ev. unfold inner_event. by destruct ev.
    + destruct (eff_error _); by repeat constructor.
  - apply Forall_app. split; [done|]. by repeat constructor.
Qed.

Lemma run_dispatch_with self it fuel exposure psf w r a :
  run self it fuel exposure psf w = Some r ->
  EvDeblend a ∈ events_since w (worldOf r) ->
  shared_args self (getMaskedImage exposure) psf
    (PrimFloat.sqrt (medianVariance (getMaskedImage exposure))) a.
Proof.
  intros Hrun Hin.
  pose proof (run_trace_forall self it fuel exposure psf w r
                (dispatch_with self (getMaskedImage exposure) psf
                   (PrimFloat.sqrt (medianVariance (getMaskedImage exposure))))) as H.
  rewrite Forall_forall in H.
  apply (H ltac:(done) ltac:(intros; apply src_effect_dispatch_with) Hrun _ Hin).
Qed.

(** X3: the noise level is computed once per call: however a call of
    [run] ends, every call of the external routine it made was given the
    square root of the image's median variance as [sigma1], the image and
    the PSF of the call, the PSF width of [_getPsfFwhm] and the values of
    the configuration; two dispatches of one call differ at most in the
    footprint. *)
Theorem dispatches_share_noise_and_options self it fuel exposure psf w r :
  run self it fuel exposure psf w = Some r ->
  forall a, EvDeblend a ∈ events_since w (worldOf r) ->
    arg_sigma1 a = PrimFloat.sqrt (medianVariance (getMaskedImage exposure))
    /\ arg_mi a = getMaskedImage exposure
    /\ arg_psf a = psf
    /\ a = deblendArgs (config self) (arg_fp a) (getMaskedImage exposure) psf
             (_getPsfFwhm psf (getBBox (arg_fp a)))
             (PrimFloat.sqrt (medianVariance (getMaskedImage exposure)))
    /\ forall b, EvDeblend b ∈ events_since w (worldOf r) ->
                 arg_fp a = arg_fp b -> a = b.
Proof.
  intros Hrun a Ha.
  pose proof (run_dispatch_with _ _ _ _ _ _ _ _ Hrun Ha) as Hshared.
  unfold shared_args in Hshared.
  split; [by rewrite Hshared|]. split; [by rewrite Hshared|].
  split; [by rewrite Hshared|]. split; [exact Hshared|].
  intros b Hb Hfp.
  pose proof (run_dispatch_with _ _ _ _ _ _ _ _ Hrun Hb) as Hb'.
  unfold shared_args in Hb'. rewrite Hshared, Hb', Hfp. reflexivity.
Qed.


(** ** The schema of [__init__] and the writes of [deblend] *)

Lemma init_schema schema : (__init__ schema).1.1 = schema ++ deblendFields.
Proof. unfold __init__, addField. simpl. by rewrite <- !app_assoc. Qed.

Ltac in_deblendFields :=
  apply elem_of_app; right; unfold deblendFields;
  repeat first [apply list_elem_of_here | apply list_elem_of_further].

Lemma fill_events_typed schema sid row peak heavy :
  Forall (well_typed_write (schema ++ deblendFields)) (fill_events sid row peak heavy).
Proof.
  unfold fill_events. destruct (deblendedAsPsf peak); simpl;
    repeat (constructor; [first [exact I | in_deblendFields]|]); constructor.
Qed.

Lemma peaks_effect_typed schema i sid pks total outs :
  forall j n nid,
    Forall (well_typed_write (schema ++ deblendFields))
      (eff_events (peaks_effect i sid pks total j outs n nid)).
Proof.
  induction outs as [|peak rest IH]; intros j n nid; simpl; [constructor|].
  destruct (skip peak); [|destruct (getFluxPortion peak) as [heavy|]].
  - destruct (pks !! j); simpl; [|constructor].
    constructor; [exact I|]. constructor; [in_deblendFields | apply IH].
  - cbn [eff_seq eff_events].
    constructor; [in_deblendFields|]. constructor; [exact I|].
    apply Forall_app. split; [apply fill_events_typed | apply IH].
  - destruct (pks !! j); simpl; [|constructor].
    constructor; [exact I|]. constructor; [in_deblendFields | apply IH].
Qed.

Lemma src_effect_typed schema self mi psf sigma1 i src n nid :
  Forall (well_typed_write (schema ++ deblendFields))
    (eff_events (src_effect self mi psf sigma1 i src n nid)).
Proof.
  unfold src_effect. destruct (is_candidate src); [|constructor].
  assert (Hd : Forall (well_typed_write (schema ++ deblendFields))
                 (dispatch_events self mi psf sigma1 i src)).
  { unfold dispatch_events.
    repeat (constructor; [first [exact I | in_deblendFields]|]). constructor. }
  destruct (baseline_deblend _ _) as [res|e]; cbn [eff_events].
  - apply Forall_app. split; [done|]. constructor; [in_deblendFields|].
    apply Forall_app. split; [apply peaks_effect_typed|].
    destruct (eff_error _);
      repeat (constructor; [first [exact I | in_deblendFields]|]); constructor.
  - apply Forall_app. split; [done|].
    repeat (constructor; [first [exact I | in_deblendFields]|]). constructor.
Qed.

(** X5: [__init__] keeps the fields of the schema it is given and adds
    ten fields after them, under ten different names; the keys it
    returns are the ones [deblend] writes through.  However a call of
    [run] ends, every [set] it made on a record wrote a field of that
    schema with a value of the type the field was added with. *)
Theorem writes_fit_the_schema_of_init schema self it fuel exposure psf w r :
  run self it fuel exposure psf w = Some r ->
  (exists added,
      (__init__ schema).1.1 = schema ++ added
      /\ length added = 10
      /\ NoDup (fieldName <$> added))
  /\ (__init__ schema).1.2
     = {| self_nChildKey := nChildKey; self_psfKey := psfKey;
          self_psfCenterKey := psfCenterKey; self_psfFluxKey := psfFluxKey;
          self_tooManyPeaksKey := tooManyPeaksKey;
          self_deblendFailedKey := deblendFailedKey;
          self_deblendSkippedKey := deblendSkippedKey;
          self_deblendRampedTemplateKey := deblendRampedTemplateKey;
          self_deblendPatchedTemplateKey := deblendPatchedTemplateKey;
          self_hasStrayFluxKey := hasStrayFluxKey |}
  /\ forall row key v,
       EvSet row key v ∈ events_since w (worldOf r) ->
       {| fieldName := key; fieldType := typeOf v |} ∈ (__init__ schema).1.1.
Proof.
  intros Hrun. split; [|split; [reflexivity|]].
  - exists deblendFields. split; [apply init_schema|]. split; [reflexivity|].
    apply (bool_decide_unpack (NoDup (fieldName <$> deblendFields))).
    vm_compute. exact I.
  - intros row key v Hin. rewrite init_schema.
    pose proof (run_trace_forall self it fuel exposure psf w r
                  (well_typed_write (schema ++ deblendFields))) as H.
    rewrite Forall_forall in H.
    apply (H ltac:(done) ltac:(intros; apply src_effect_typed) Hrun _ Hin).
Qed.

(** ** Counting the calls of a run *)

(** A rule for the loops that end normally: only the turns that end
    normally have to keep the invariant. *)
Lemma deblend_loop_invariant_ok self mi psf sigma1 it n_start
    (Inv : nat -> nat -> World -> Prop) :
  (forall i nparents w src,
      Inv i nparents w -> next_row it n_start w i = Some src ->
      eff_error (src_effect self mi psf sigma1 i src (length (rows w)) (nextId w)) = None ->
      Inv (S i) (nparents_after src nparents)
          (apply_effect i (src_effect self mi psf sigma1 i src (length (rows w)) (nextId w)) w)) ->
  forall fuel i nparents w nparents' w',
    Inv i nparents w ->
    deblend_loop self mi psf sigma1 it n_start fuel i nparents w = Some (Ok nparents' w') ->
    exists i', Inv i' nparents' w' /\ next_row it n_start w' i' = None.
Proof.
  intros Hturn. induction fuel as [|fuel IH]; intros i nparents w np' w' Hinv Hrun; [done|].
  destruct (next_row it n_start w i) as [src|] eqn:Hsrc.
  - rewrite (deblend_loop_step _ _ _ _ _ _ _ _ _ _ src) in Hrun by done.
    cbv zeta in Hrun. specialize (Hturn _ _ _ _ Hinv Hsrc).
    destruct (eff_error _); [done|].
    exact (IH _ _ _ _ _ (Hturn eq_refl) Hrun).
  - rewrite deblend_loop_done in Hrun by done. injection Hrun as <- <-. eauto.
Qed.

Lemma fill_events_addNew sid row peak heavy :
  List.filter is_addNew (fill_events sid row peak heavy) = [].
Proof. unfold fill_events. by destruct (deblendedAsPsf peak). Qed.

Lemma peaks_effect_addNew i sid pks total outs :
  forall j n nid,
    length (List.filter is_addNew (eff_events (peaks_effect i sid pks total j outs n nid)))
    = length (eff_children (peaks_effect i sid pks total j outs n nid)).
Proof.
  induction outs as [|peak rest IH]; intros j n nid; simpl; [done|].
  destruct (skip peak); [|destruct (getFluxPortion peak) as [heavy|]].
  - destruct (pks !! j); simpl; [apply IH | done].
  - cbn [eff_seq eff_events eff_children]. cbn [List.filter is_addNew app length].
    rewrite List.filter_app, fill_events_addNew. simpl. by rewrite IH.
  - destruct (pks !! j); simpl; [apply IH | done].
Qed.

Lemma fill_events_print_exc sid row peak heavy :
  List.filter is_print_exc (fill_events sid row peak heavy) = [].
Proof. unfold fill_events. by destruct (deblendedAsPsf peak). Qed.

Lemma peaks_effect_print_exc i sid pks total outs :
  forall j n nid,
    List.filter is_print_exc (eff_events (peaks_effect i sid pks total j outs n nid)) = [].
Proof.
  induction outs as [|peak rest IH]; intros j n nid; simpl; [done|].
  destruct (skip peak); [|destruct (getFluxPortion peak) as [heavy|]].
  - destruct (pks !! j); simpl; [apply IH | done].
  - cbn [eff_seq eff_events]. cbn [List.filter is_print_exc app].
    rewrite List.filter_app, fill_events_print_exc. simpl. apply IH.
  - destruct (pks !! j); simpl; [apply IH | done].
Qed.

(** The calls of one turn, counted. *)
Lemma src_effect_counts self mi psf sigma1 i src n nid :
  let e := src_effect self mi psf sigma1 i src n nid in
  length (List.filter is_dispatch (eff_events e)) = (if is_candidate src then 1 else 0)
  /\ length (List.filter is_addNew (eff_events e)) = length (eff_children e)
  /\ (eff_error e = None ->
      length (List.filter is_posthook (eff_events e))
      + length (List.filter is_print_exc (eff_events e))
      = if is_candidate src then 1 else 0).
Proof.
  intros e. split.
  { unfold e. rewrite src_effect_dispatch. by destruct (is_candidate src). }
  unfold e, src_effect. destruct (is_candidate src); [|done].
  destruct (baseline_deblend _ _) as [res|ex]; cbn [eff_events eff_children eff_error].
  - rewrite !List.filter_app, !length_app.
    rewrite (filter_posthook_inner (eff_events (peaks_effect _ _ _ _ _ _ _ _)))
      by apply peaks_effect_events.
    rewrite peaks_effect_addNew, peaks_effect_print_exc.
    split.
    + destruct (eff_error _); simpl; lia.
    + intros ->. reflexivity.
  - split; [done|]. intros _. reflexivity.
Qed.

Lemma deblend_loop_counts self mi psf sigma1 it n_start fuel i nparents w nparents' w' :
  deblend_loop self mi psf sigma1 it n_start fuel i nparents w = Some (Ok nparents' w') ->
  exists evs,
    trace w' = trace w ++ evs
    /\ nparents' = nparents + length (List.filter is_dispatch evs)
    /\ length (rows w') = length (rows w) + length (List.filter is_addNew evs)
    /\ length (List.filter is_dispatch evs)
       = length (List.filter is_posthook evs) + length (List.filter is_print_exc evs).
Proof.
  intros Hrun.
  pose (Inv := fun (_ np : nat) (w1 : World) =>
    exists evs,
      trace w1 = trace w ++ evs
      /\ np = nparents + length (List.filter is_dispatch evs)
      /\ length (rows w1) = length (rows w) + length (List.filter is_addNew evs)
      /\ length (List.filter is_dispatch evs)
         = length (List.filter is_posthook evs) + length (List.filter is_print_exc evs)).
  assert (Hturn : forall k np w1 src,
    Inv k np w1 -> next_row it n_start w1 k = Some src ->
    eff_error (src_effect self mi psf sigma1 k src (length (rows w1)) (nextId w1)) = None ->
    Inv (S k) (nparents_after src np)
      (apply_effect k (src_effect self mi psf sigma1 k src (length (rows w1)) (nextId w1)) w1)).
  { intros k np w1 src (evs & Htr & Hnp & Hlen & Hends) _ Hok.
    destruct (src_effect_counts self mi psf sigma1 k src (length (rows w1)) (nextId w1))
      as (Hd & Ha & Hp).
    specialize (Hp Hok).
    exists (evs ++ eff_events (src_effect self mi psf sigma1 k src
                                 (length (rows w1)) (nextId w1))).
    split; [simpl; by rewrite Htr, app_assoc|].
    rewrite !List.filter_app, !length_app, apply_effect_length.
    unfold nparents_after. destruct (is_candidate src); lia. }
  assert (Hstart : Inv i nparents w).
  { exists []. rewrite app_nil_r. simpl. repeat split; lia. }
  destruct (deblend_loop_invariant_ok self mi psf sigma1 it n_start Inv Hturn
              fuel i nparents w nparents' w' Hstart Hrun) as (i' & H & _).
  exact H.
Qed.

(** X6: when a call returns, its first call is the opening line with the
    number of rows at call start and its last call the closing line; the
    "were deblended" figure of the closing line is the number of calls of
    the external routine, those that raised included (each dispatch is
    followed either by the post-hook or by the printed traceback); the
    "children" figure is the number of [addNew] calls, which is the
    growth of the catalog. *)
Theorem closing_line_counts_the_calls self it fuel exposure psf w w' :
  run self it fuel exposure psf w = Some (Ok tt w') ->
  let evs := events_since w w' in
  let n0 := length (rows w) in
  let nparents := length (List.filter is_dispatch evs) in
  let nchildren := length (List.filter is_addNew evs) in
  length (rows w') = n0 + nchildren
  /\ head evs = Some (EvLogInfo (MsgDeblending n0))
  /\ last evs = Some (EvLogInfo (MsgDeblended n0 nparents (Z.of_nat nchildren)
                                   (n0 + nchildren)))
  /\ nparents
     = length (List.filter is_posthook evs) + length (List.filter is_print_exc evs).
Proof.
  intros Hrun evs n0 nparents nchildren.
  destruct (run_returns _ _ _ _ _ _ _ Hrun) as (sigma1 & np & w1 & Hloop & Hrows & _ & Htr).
  destruct (deblend_loop_counts _ _ _ _ _ _ _ _ _ _ _ _ Hloop)
    as (evs1 & Htr1 & Hnp & Hlen & Hends).
  cbn [rows trace] in Htr1, Hlen. simpl in Hnp.
  assert (Hevs : evs = EvLogInfo (MsgDeblending n0) :: evs1
                       ++ [EvLogInfo (MsgDeblended n0 np
                             (Z.of_nat (length (rows w1)) - Z.of_nat n0) (length (rows w1)))]).
  { unfold evs, events_since. rewrite Htr, Htr1, <- !app_assoc, drop_app_length. done. }
  assert (Hd : nparents = length (List.filter is_dispatch evs1)).
  { unfold nparents. rewrite Hevs. cbn [List.filter is_dispatch].
    rewrite List.filter_app. simpl. by rewrite app_nil_r. }
  assert (Ha : nchildren = length (List.filter is_addNew evs1)).
  { unfold nchildren. rewrite Hevs. cbn [List.filter is_addNew].
    rewrite List.filter_app. simpl. by rewrite app_nil_r. }
  assert (Hgrow : length (rows w1) = n0 + nchildren) by (rewrite Ha; exact Hlen).
  split; [by rewrite Hrows|]. split; [by rewrite Hevs|]. split.
  - rewrite Hevs. rewrite app_comm_cons, last_snoc. do 3 f_equal; lia.
  - rewrite Hd, Hends, Hevs. cbn [List.filter is_posthook is_print_exc].
    rewrite !List.filter_app. simpl. by rewrite !app_nil_r.
Qed.


(** ** What a run leaves of the rows it found *)

Lemma same_source_refl r : same_source r r.
Proof. by repeat split. Qed.

Lemma same_source_trans r1 r2 r3 :
  same_source r1 r2 -> same_source r2 r3 -> same_source r1 r3.
Proof.
  intros (Hid & Hp & Hfp & Hf) (Hid' & Hp' & Hfp' & Hf').
  split; [congruence|]. split; [congruence|]. split; [congruence|].
  intros key H1 H2 H3 H4. rewrite Hf', Hf by done. done.
Qed.

Lemma src_effect_same_source self mi psf sigma1 i src n nid r :
  same_source r (eff_parent (src_effect self mi psf sigma1 i src n nid) r).
Proof.
  destruct (src_effect_parent self mi psf sigma1 i src n nid r) as (Hid & Hp & Hfp).
  split; [done|]. split; [done|]. split; [done|].
  intros key H1 H2 H3 H4. by apply src_effect_parent_fields.
Qed.


(** The rows of the world after a turn. *)
Lemma apply_effect_lookup i e w k r' :
  i < length (rows w) ->
  rows (apply_effect i e w) !! k = Some r' ->
  (k = i /\ exists r, rows w !! i = Some r /\ r' = eff_parent e r)
  \/ (k <> i /\ rows w !! k = Some r')
  \/ (length (rows w) <= k /\ eff_children e !! (k - length (rows w)) = Some r').
Proof.
  intros Hi Hk.
  destruct (decide (k < length (rows w))) as [Hlt|Hge].
  - destruct (decide (k = i)) as [->|Hne].
    + left. split; [done|]. rewrite apply_effect_parent in Hk by done.
      destruct (rows w !! i) as [r|]; [|done]. injection Hk as <-. by exists r.
    + right; left. split; [done|]. by rewrite apply_effect_other in Hk.
  - right; right. split; [lia|]. by rewrite apply_effect_child in Hk by lia.
Qed.

Lemma apply_effect_keeps self mi psf sigma1 i src n nid w k r :
  rows w !! k = Some r ->
  exists r',
    rows (apply_effect i (src_effect self mi psf sigma1 i src n nid) w) !! k = Some r'
    /\ same_source r r'.
Proof.
  intros Hr. apply lookup_lt_Some in Hr as Hk.
  destruct (decide (k = i)) as [->|Hne].
  - rewrite apply_effect_parent, Hr by done. eexists. split; [done|].
    apply src_effect_same_source.
  - rewrite apply_effect_other by done. exists r. split; [done | apply same_source_refl].
Qed.

Lemma deblend_loop_frame self mi psf sigma1 it n_start fuel i nparents w r :
  deblend_loop self mi psf sigma1 it n_start fuel i nparents w = Some r ->
  forall k src, rows w !! k = Some src ->
    exists src', rows (worldOf r) !! k = Some src' /\ same_source src src'.
Proof.
  intros Hrun.
  pose (Inv := fun (_ _ : nat) (w1 : World) =>
    forall k src, rows w !! k = Some src ->
      exists src', rows w1 !! k = Some src' /\ same_source src src').
  assert (Hturn : forall j np w1 src,
    Inv j np w1 -> next_row it n_start w1 j = Some src ->
    Inv (S j) (nparents_after src np)
      (apply_effect j (src_effect self mi psf sigma1 j src (length (rows w1)) (nextId w1)) w1)).
  { intros j np w1 src Hinv _ k r0 Hr0.
    destruct (Hinv k r0 Hr0) as (r1 & Hr1 & Hsame).
    destruct (apply_effect_keeps self mi psf sigma1 j src (length (rows w1)) (nextId w1)
                w1 k r1 Hr1) as (r2 & Hr2 & Hsame').
    exists r2. split; [done|]. by eapply same_source_trans. }
  assert (Hstart : Inv i nparents w).
  { intros k src Hsrc. exists src. split; [done | apply same_source_refl]. }
  pose proof (deblend_loop_invariant self mi psf sigma1 it n_start Inv Hturn
                fuel i nparents w r Hstart Hrun) as H.
  destruct r; simpl; [destruct H as (? & H & _) | destruct H as (? & ? & H)]; exact H.
Qed.

(** X7: however a call ends (normally, or with the ValueError of the
    prologue or an IndexError of the peak loop), every row that was in the
    catalog at call start is still at its position, with the id, the
    parent link and the footprint it had; of its fields only
    [tooManyPeaks], [deblendFailed], [deblendSkipped] and [nchild] can
    differ.  Rows are never removed. *)
Theorem rows_at_call_start_keep_identity self it fuel exposure psf w r :
  run self it fuel exposure psf w = Some r ->
  length (rows w) <= length (rows (worldOf r))
  /\ forall k src, rows w !! k = Some src ->
       exists src',
         rows (worldOf r) !! k = Some src'
         /\ getId src' = getId src /\ getParent src' = getParent src
         /\ getFootprint src' = getFootprint src
         /\ forall key,
              key <> tooManyPeaksKey -> key <> deblendFailedKey ->
              key <> deblendSkippedKey -> key <> nChildKey ->
              fields src' !! key = fields src !! key.
Proof.
  intros Hrun.
  assert (Hrows : forall k src, rows w !! k = Some src ->
            exists src', rows (worldOf r) !! k = Some src' /\ same_source src src').
  { destruct (run_cases _ _ _ _ _ _ _ Hrun) as [[_ ->] | (_ & r1 & Hloop & Hr)].
    - intros k src Hsrc. exists src. split; [done | apply same_source_refl].
    - pose proof (deblend_loop_frame _ _ _ _ _ _ _ _ _ _ _ Hloop) as Hframe.
      cbn [rows] in Hframe.
      destruct r1 as [np w1|err w1]; subst r; exact Hframe. }
  split; [|exact Hrows].
  destruct (rows w) as [|r0 l] eqn:Hw using rev_ind; [simpl; lia|].
  clear IHl. destruct (Hrows (length l) r0) as (src' & Hsrc' & _).
  { by rewrite lookup_app_r, Nat.sub_diag by lia. }
  apply lookup_lt_Some in Hsrc'. rewrite length_app. simpl. lia.
Qed.

(** ** Parent links *)

Lemma child_record_parent sid nid peak heavy :
  getParent (child_record sid nid peak heavy) = sid.
Proof. unfold child_record, fill_record. by destruct (deblendedAsPsf peak). Qed.




(** ** Each detection is handled on its own *)

Lemma kept_portions_length outs :
  length (kept_portions outs) = length (List.filter kept outs).
Proof.
  induction outs as [|peak rest IH]; [done|].
  unfold kept_portions in *. cbn [omap list_omap List.filter].
  destruct (skip peak) eqn:Hs; [|destruct (getFluxPortion peak) as [heavy|] eqn:Hf].
  - assert (kept peak = false) as -> by (unfold kept; by rewrite Hs). exact IH.
  - assert (kept peak = true) as ->.
    { unfold kept. rewrite Hs, Hf. by rewrite bool_decide_eq_true_2 by eauto. }
    simpl. by rewrite IH.
  - assert (kept peak = false) as ->.
    { unfold kept. rewrite Hs, Hf. by rewrite bool_decide_eq_false_2 by (by intros [? ?]). }
    exact IH.
Qed.

(** When the peak loop ends normally, the last outcome has decided
    [deblendSkipped] and every kept outcome has given a row. *)
Lemma peaks_effect_ok i sid pks total outs :
  forall j n nid r,
    eff_error (peaks_effect i sid pks total j outs n nid) = None ->
    eff_parent (peaks_effect i sid pks total j outs n nid) r
    = match last outs with
      | Some peak => setField deblendSkippedKey (VFlag (negb (kept peak))) r
      | None => r
      end
    /\ length (eff_children (peaks_effect i sid pks total j outs n nid))
       = length (List.filter kept outs).
Proof.
  induction outs as [|peak rest IH]; intros j n nid r Hok; [done|].
  assert (Hstep : forall b n' nid',
    b = negb (kept peak) ->
    eff_error (peaks_effect i sid pks total (S j) rest n' nid') = None ->
    eff_parent (peaks_effect i sid pks total (S j) rest n' nid')
      (setField deblendSkippedKey (VFlag b) r)
    = match last (peak :: rest) with
      | Some p => setField deblendSkippedKey (VFlag (negb (kept p))) r
      | None => r
      end
    /\ length (eff_children (peaks_effect i sid pks total (S j) rest n' nid'))
       = length (List.filter kept rest)).
  { intros b n' nid' -> Hok'. destruct (IH (S j) n' nid'
      (setField deblendSkippedKey (VFlag (negb (kept peak))) r) Hok') as [-> ->].
    split; [|done]. destruct rest as [|q rest']; [done|].
    rewrite last_cons_cons. destruct (last (q :: rest')) eqn:E; [|by apply last_None in E].
    apply setField_twice. }
  cbn [peaks_effect List.filter] in Hok |- *.
  destruct (skip peak) eqn:Hs; [|destruct (getFluxPortion peak) as [heavy|] eqn:Hf].
  - assert (Hk : kept peak = false) by (unfold kept; by rewrite Hs).
    rewrite Hk in Hstep |- *. destruct (pks !! j); [|done].
    cbn [eff_seq eff_parent eff_children eff_error compose app] in Hok |- *.
    by apply Hstep.
  - assert (Hk : kept peak = true).
    { unfold kept. rewrite Hs, Hf. by rewrite bool_decide_eq_true_2 by eauto. }
    rewrite Hk in Hstep |- *.
    cbn [eff_seq eff_parent eff_children eff_error compose app length] in Hok |- *.
    destruct (Hstep false (S n) (nid + 1)%Z) as [-> ->]; done.
  - assert (Hk : kept peak = false).
    { unfold kept. rewrite Hs, Hf. by rewrite bool_decide_eq_false_2 by (by intros [? ?]). }
    rewrite Hk in Hstep |- *. destruct (pks !! j); [|done].
    cbn [eff_seq eff_parent eff_children eff_error compose app] in Hok |- *.
    by apply Hstep.
Qed.

Lemma src_effect_after_turn self mi psf sigma1 i src n nid :
  eff_error (src_effect self mi psf sigma1 i src n nid) = None ->
  eff_parent (src_effect self mi psf sigma1 i src n nid) src
  = after_turn self mi psf sigma1 src.
Proof.
  unfold src_effect, after_turn. destruct (is_candidate src); [|done].
  destruct (baseline_deblend _ _) as [res|e]; cbn [eff_error eff_parent]; [|done].
  intros Hok. rewrite Hok.
  destruct (peaks_effect_ok i (getId src) (getPeaks (getFootprint src)) (length (peaks res))
              (peaks res) 0 n nid
              (setField deblendFailedKey (VFlag false)
                 (setField tooManyPeaksKey (VFlag (tooMany self src)) src)) Hok) as [-> ->].
  reflexivity.
Qed.

Lemma deblend_loop_after_turn self mi psf sigma1 it fuel w nparents w' :
  deblend_loop self mi psf sigma1 it (length (rows w)) fuel 0 0 w = Some (Ok nparents w') ->
  forall k src, rows w !! k = Some src ->
    rows w' !! k = Some (after_turn self mi psf sigma1 src).
Proof.
  intros Hrun.
  pose (Inv := fun (i _ : nat) (w1 : World) =>
    forall k src, rows w !! k = Some src ->
      rows w1 !! k = Some (if decide (k < i) then after_turn self mi psf sigma1 src else src)).
  assert (Hturn : forall j np w1 src,
    Inv j np w1 -> next_row it (length (rows w)) w1 j = Some src ->
    eff_error (src_effect self mi psf sigma1 j src (length (rows w1)) (nextId w1)) = None ->
    Inv (S j) (nparents_after src np)
      (apply_effect j (src_effect self mi psf sigma1 j src (length (rows w1)) (nextId w1)) w1)).
  { intros j np w1 src Hinv Hnext Hok k r0 Hr0.
    apply next_row_Some in Hnext as [Hsrc _]. apply lookup_lt_Some in Hsrc as Hj.
    specialize (Hinv k r0 Hr0). apply lookup_lt_Some in Hinv as Hk.
    destruct (decide (k = j)) as [->|Hne].
    - rewrite apply_effect_parent, Hsrc by done.
      rewrite decide_False in Hinv by lia. rewrite decide_True by lia.
      assert (src = r0) as -> by congruence.
      simpl. by rewrite src_effect_after_turn.
    - rewrite apply_effect_other by done. rewrite Hinv.
      destruct (decide (k < j)), (decide (k < S j)); (done || lia). }
  assert (Hstart : Inv 0 0 w).
  { intros k src Hsrc. by rewrite decide_False by lia. }
  destruct (deblend_loop_invariant_ok self mi psf sigma1 it (length (rows w)) Inv Hturn
              fuel 0 0 w nparents w' Hstart Hrun) as (i' & Hinv & Hend).
  intros k src Hsrc. specialize (Hinv k src Hsrc) as Hk.
  rewrite decide_True in Hk; [done|].
  destruct (decide (k < i')) as [|Hge]; [done|]. exfalso.
  apply lookup_lt_Some in Hsrc as Hlt.
  assert (Hnone : rows w' !! i' = None).
  { destruct it; simpl in Hend; [done|].
    destruct (Nat.ltb_spec i' (length (rows w))); [done | lia]. }
  apply lookup_ge_None in Hnone. apply lookup_lt_Some in Hk. lia.
Qed.

(** X9: when a call returns, the record of every detection that was in
    the catalog at call start is what its own turn makes of it, whatever
    the other rows of the catalog are and whatever the iterator does with
    the appended rows: a detection with fewer than 2 peaks is unchanged;
    a candidate on which the routine raised has [tooManyPeaks] and
    [deblendFailed = True] written; a candidate for which it returned has
    [tooManyPeaks], [deblendFailed = False], [deblendSkipped] by the last
    outcome (untouched if there is no outcome) and [nchild] the number of
    kept outcomes. *)
Theorem detections_are_handled_independently self it fuel exposure psf w w' :
  run self it fuel exposure psf w = Some (Ok tt w') ->
  let mi := getMaskedImage exposure in
  let sigma1 := PrimFloat.sqrt (medianVariance mi) in
  forall k src, rows w !! k = Some src ->
    rows w' !! k = Some (after_turn self mi psf sigma1 src)
    /\ (length (getPeaks (getFootprint src)) < 2 -> rows w' !! k = Some src)
    /\ (is_candidate src = true ->
        forall e, baseline_deblend self (argsFor self mi psf sigma1 src) = Raises e ->
          rows w' !! k = Some (markFailed self src))
    /\ (is_candidate src = true ->
        forall res, baseline_deblend self (argsFor self mi psf sigma1 src) = Returns res ->
          exists src',
            rows w' !! k = Some src'
            /\ fields src' !! deblendFailedKey = Some (VFlag false)
            /\ fields src' !! tooManyPeaksKey = Some (VFlag (tooMany self src))
            /\ fields src' !! nChildKey
               = Some (VInt (Z.of_nat (length (List.filter kept (peaks res)))))
            /\ fields src' !! deblendSkippedKey
               = match last (peaks res) with
                 | Some peak => Some (VFlag (negb (kept peak)))
                 | None => fields src !! deblendSkippedKey
                 end).
Proof.
  intros Hrun mi sigma1 k src Hsrc.
  assert (Hrow : rows w' !! k = Some (after_turn self mi psf sigma1 src)).
  { destruct (run_cases _ _ _ _ _ _ _ Hrun) as [[_ [=]] | (_ & r1 & Hloop & Hr)].
    destruct r1 as [np w1|err w1]; [|done]. injection Hr as ->.
    by apply (deblend_loop_after_turn _ _ _ _ _ _ _ _ _ Hloop k src). }
  split; [done|]. rewrite Hrow. unfold after_turn. split; [|split].
  - intros Hlt. destruct (is_candidate src) eqn:E; [|done].
    apply is_candidate_peaks in E. lia.
  - intros -> e ->. done.
  - intros -> res ->. eexists. split; [done|].
    destruct (last (peaks res)) as [peak|]; cbn [fields setField];
      repeat (rewrite lookup_insert_eq || rewrite lookup_insert_ne by done); done.
Qed.

Lemma record_eq (r1 r2 : SourceRecord) :
  getId r1 = getId r2 -> getParent r1 = getParent r2 ->
  getFootprint r1 = getFootprint r2 -> fields r1 = fields r2 -> r1 = r2.
Proof. destruct r1, r2; simpl; congruence. Qed.

Lemma after_turn_footprint self mi psf sigma1 src :
  getFootprint (after_turn self mi psf sigma1 src) = getFootprint src.
Proof.
  unfold after_turn. destruct (is_candidate src); [|done].
  destruct (baseline_deblend _ _) as [res|e]; [|done].
  by destruct (last (peaks res)).
Qed.

Ltac four_keys key :=
  destruct (decide (key = nChildKey)) as [->|?];
  [|destruct (decide (key = deblendSkippedKey)) as [->|?];
    [|destruct (decide (key = deblendFailedKey)) as [->|?];
      [|destruct (decide (key = tooManyPeaksKey)) as [->|?]]]];
  cbn [fields setField];
  repeat (rewrite lookup_insert_eq || rewrite lookup_insert_ne by done); try done.

(** A second turn on the record of a first one changes nothing. *)
Lemma after_turn_twice self mi psf sigma1 src :
  after_turn self mi psf sigma1 (after_turn self mi psf sigma1 src)
  = after_turn self mi psf sigma1 src.
Proof.
  pose proof (after_turn_footprint self mi psf sigma1 src) as Hfp.
  unfold after_turn at 1.
  assert (Hc : is_candidate (after_turn self mi psf sigma1 src) = is_candidate src)
    by (unfold is_candidate; by rewrite Hfp).
  assert (Ha : argsFor self mi psf sigma1 (after_turn self mi psf sigma1 src)
               = argsFor self mi psf sigma1 src)
    by (unfold argsFor; by rewrite Hfp).
  assert (Ht : tooMany self (after_turn self mi psf sigma1 src) = tooMany self src)
    by (unfold tooMany; by rewrite Hfp).
  rewrite Hc, Ha. unfold markFailed. rewrite Ht. clear Hfp Hc Ha Ht.
  unfold after_turn. destruct (is_candidate src) eqn:Hcand; [|done].
  destruct (baseline_deblend self (argsFor self mi psf sigma1 src)) as [res|e].
  - destruct (last (peaks res)) as [peak|];
      (apply record_eq; [done | done | done |]); apply map_eq; intros key; four_keys key.
  - unfold markFailed.
    (apply record_eq; [done | done | done |]); apply map_eq; intros key; four_keys key.
Qed.

(** X10: a second call on the catalog a first call returned leaves the
    record of every detection that was there at the first call's start
    as the first call left it (same image, PSF and configuration): the
    four fields are written again with the values they have. *)
Theorem second_call_keeps_the_records self it it' fuel fuel' exposure psf w w' w'' :
  run self it fuel exposure psf w = Some (Ok tt w') ->
  run self it' fuel' exposure psf w' = Some (Ok tt w'') ->
  length (rows w) <= length (rows w') <= length (rows w'')
  /\ forall k, k < length (rows w) -> rows w'' !! k = rows w' !! k.
Proof.
  intros Hrun Hrun'.
  set (mi := getMaskedImage exposure). set (sigma1 := PrimFloat.sqrt (medianVariance mi)).
  assert (H1 : forall k src, rows w !! k = Some src ->
            rows w' !! k = Some (after_turn self mi psf sigma1 src)).
  { destruct (run_cases _ _ _ _ _ _ _ Hrun) as [[_ [=]] | (_ & r1 & Hloop & Hr)].
    destruct r1 as [np w1|err w1]; [|done]. injection Hr as ->.
    intros k src. by apply (deblend_loop_after_turn _ _ _ _ _ _ _ _ _ Hloop k src). }
  assert (H2 : forall k src, rows w' !! k = Some src ->
            rows w'' !! k = Some (after_turn self mi psf sigma1 src)).
  { destruct (run_cases _ _ _ _ _ _ _ Hrun') as [[_ [=]] | (_ & r1 & Hloop & Hr)].
    destruct r1 as [np w1|err w1]; [|done]. injection Hr as ->.
    intros k src. by apply (deblend_loop_after_turn _ _ _ _ _ _ _ _ _ Hloop k src). }
  assert (Hgrow : forall (v v' : World) (f : SourceRecord -> SourceRecord),
            (forall k src, rows v !! k = Some src -> rows v' !! k = Some (f src)) ->
            length (rows v) <= length (rows v')).
  { intros v v' f Hf. destruct (rows v) as [|r0 l] eqn:Hv using rev_ind; [simpl; lia|].
    clear IHl. specialize (Hf (length l) r0).
    rewrite lookup_app_r, Nat.sub_diag in Hf by lia.
    specialize (Hf eq_refl). apply lookup_lt_Some in Hf. rewrite length_app. simpl. lia. }
  split; [split; eapply Hgrow; eauto|].
  intros k Hk. destruct (lookup_lt_is_Some_2 _ _ Hk) as [src Hsrc].
  rewrite (H2 k _ (H1 k src Hsrc)), (H1 k src Hsrc). by rewrite after_turn_twice.
Qed.

(** ** The two behaviours of the iterator *)

Lemma run_unfold self it fuel exposure psf w :
  run self it fuel exposure psf w
  = let mi := getMaskedImage exposure in
    let w0 := {| rows := rows w; nextId := nextId w;
                 trace := trace w ++ [EvLogInfo (MsgDeblending (length (rows w)))] |} in
    if PrimFloat.ltb (medianVariance mi) 0%float then Some (Raise ValueError w0)
    else
      match deblend_loop self mi psf (PrimFloat.sqrt (medianVariance mi)) it
              (length (rows w)) fuel 0 0 w0 with
      | None => None
      | Some (Raise e w1) => Some (Raise e w1)
      | Some (Ok nparents w1) =>
          Some (Ok tt {| rows := rows w1; nextId := nextId w1;
                         trace := trace w1
                           ++ [EvLogInfo (MsgDeblended (length (rows w)) nparents
                                 (Z.of_nat (length (rows w1)) - Z.of_nat (length (rows w)))
                                 (length (rows w1)))] |})
      end.
Proof.
  unfold run, deblend. rewrite !bind_run. unfold len_srcs at 1.
  rewrite !bind_run, emit_run, bind_run. unfold math_sqrt.
  cbn [rows nextId trace].
  destruct (PrimFloat.ltb _ _); [done|].
  unfold ret at 1. rewrite bind_run. unfold len_srcs at 1, ret at 1.
  cbn [rows nextId trace].
  destruct (deblend_loop _ _ _ _ _ _ _ _ _ _) as [[np w1|err w1]|]; done.
Qed.

(** More fuel does not change how the loop ends. *)
Lemma deblend_loop_fuel self mi psf sigma1 it n_start fuel :
  forall fuel' i nparents w r,
    fuel <= fuel' ->
    deblend_loop self mi psf sigma1 it n_start fuel i nparents w = Some r ->
    deblend_loop self mi psf sigma1 it n_start fuel' i nparents w = Some r.
Proof.
  induction fuel as [|fuel IH]; intros fuel' i nparents w r Hle Hrun; [done|].
  destruct fuel' as [|fuel']; [lia|]. simpl in Hrun |- *.
  destruct (next_row it n_start w i) as [src|]; [|done].
  destruct (deblend_src _ _ _ _ _ _ _ _); [|done]. apply IH; [lia | done].
Qed.

Lemma deblend_loop_bounded_to_growing self mi psf sigma1 n_start :
  (forall fp, flux_portion_of self fp -> length (getPeaks fp) < 2) ->
  forall fuel i nparents w r,
    (forall k c, n_start <= k -> rows w !! k = Some c -> is_candidate c = false) ->
    deblend_loop self mi psf sigma1 OverRowsAtStart n_start fuel i nparents w = Some r ->
    exists fuel',
      deblend_loop self mi psf sigma1 OverGrowingCatalog n_start fuel' i nparents w = Some r.
Proof.
  intros Hsmall. induction fuel as [|fuel IH]; intros i nparents w r Hnew Hrun; [done|].
  destruct (next_row OverRowsAtStart n_start w i) as [src|] eqn:Hnext.
  - rewrite (deblend_loop_step _ _ _ _ _ _ _ _ _ _ src) in Hrun by done.
    apply next_row_Some in Hnext as [Hsrc Hi]. specialize (Hi eq_refl).
    apply lookup_lt_Some in Hsrc as Hlt.
    cbv zeta in Hrun.
    set (e := src_effect self mi psf sigma1 i src (length (rows w)) (nextId w)) in *.
    destruct (eff_error e) as [err|] eqn:Herr.
    + exists 1. rewrite (deblend_loop_step _ _ _ _ _ _ _ _ _ _ src) by done.
      cbv zeta. fold e. by rewrite Herr.
    + destruct (IH (S i) (nparents_after src nparents) (apply_effect i e w) r) as [fuel' Hgrow];
        [|done|].
      * intros k c Hk Hc.
        destruct (apply_effect_lookup i e w k c Hlt Hc)
          as [(-> & _) | [(_ & Hold) | (_ & Hchild)]]; [lia | by eapply Hnew|].
        pose proof (src_effect_flux_portions self mi psf sigma1 i src
                      (length (rows w)) (nextId w)) as Hfp.
        rewrite Forall_forall in Hfp.
        assert (Hin : getFootprint c ∈ getFootprint <$> eff_children e).
        { apply list_elem_of_fmap. exists c. split; [done|].
          by eapply list_elem_of_lookup_2. }
        specialize (Hsmall _ (Hfp _ Hin)).
        destruct (is_candidate c) eqn:E; [|done]. apply is_candidate_peaks in E. lia.
      * exists (S fuel'). rewrite (deblend_loop_step _ _ _ _ _ _ _ _ _ _ src) by done.
        cbv zeta. fold e. by rewrite Herr.
  - rewrite deblend_loop_done in Hrun by done. injection Hrun as <-.
    exists (S (length (rows w) - i)). apply deblend_loop_skips; [|lia].
    intros k c Hk Hc. simpl in Hnext.
    destruct (Nat.ltb_spec i n_start) as [Hlt|Hge].
    + apply lookup_ge_None in Hnext. apply lookup_lt_Some in Hc. lia.
    + apply (Hnew k c); [lia | done].
Qed.

(** X11: when no flux portion the external routine hands out has 2 peaks
    or more, it makes no difference whether the catalog's iterator
    follows the rows appended during the loop or stops at the rows
    present at its start: the call ends, and however much fuel the first
    is given, when it ends it ends as the second does, with the same
    catalog and the same calls in the same order. *)
Theorem iterators_agree_without_nested_blends self exposure psf w :
  (forall fp, flux_portion_of self fp -> length (getPeaks fp) < 2) ->
  exists r,
    run self OverRowsAtStart (S (length (rows w))) exposure psf w = Some r
    /\ (exists fuel, run self OverGrowingCatalog fuel exposure psf w = Some r)
    /\ forall fuel r',
         run self OverGrowingCatalog fuel exposure psf w = Some r' -> r' = r.
Proof.
  intros Hsmall.
  destruct (run self OverRowsAtStart (S (length (rows w))) exposure psf w) as [r|] eqn:Hrun;
    [|by apply run_bounded_ends in Hrun; [|lia]].
  exists r. split; [done|].
  assert (Hgrow : exists fuel, run self OverGrowingCatalog fuel exposure psf w = Some r).
  { rewrite run_unfold in Hrun. cbv zeta in Hrun.
    destruct (PrimFloat.ltb _ _) eqn:Hneg.
    - exists 0. rewrite run_unfold. cbv zeta. by rewrite Hneg.
    - destruct (deblend_loop _ _ _ _ _ _ _ _ _ _) as [r1|] eqn:Hloop; [|done].
      apply (deblend_loop_bounded_to_growing _ _ _ _ _ Hsmall) in Hloop as [fuel Hloop].
      + exists fuel. rewrite run_unfold. cbv zeta. by rewrite Hneg, Hloop.
      + cbn [rows]. intros k c Hk Hc. apply lookup_lt_Some in Hc. lia. }
  split; [done|]. destruct Hgrow as [fuel0 Hrun0].
  intros fuel r' Hrun'. rewrite run_unfold in Hrun0, Hrun'. cbv zeta in Hrun0, Hrun'.
  destruct (PrimFloat.ltb _ _); [congruence|].
  destruct (deblend_loop _ _ _ _ _ _ fuel0 _ _ _) as [r0|] eqn:Hloop0; [|done].
  destruct (deblend_loop _ _ _ _ _ _ fuel _ _ _) as [r1|] eqn:Hloop1; [|done].
  apply (deblend_loop_fuel _ _ _ _ _ _ _ (max fuel0 fuel)) in Hloop0; [|lia].
  apply (deblend_loop_fuel _ _ _ _ _ _ _ (max fuel0 fuel)) in Hloop1; [|lia].
  assert (r0 = r1) as -> by congruence. congruence.
Qed.

(** ** The rows a turn appends *)

Lemma peaks_effect_children_ok i sid pks total outs :
  forall j n nid,
    eff_error (peaks_effect i sid pks total j outs n nid) = None ->
    eff_children (peaks_effect i sid pks total j outs n nid)
    = imap (fun k ph => child_record sid (nid + Z.of_nat k) ph.1 ph.2) (kept_portions outs).
Proof.
  induction outs as [|peak rest IH]; intros j n nid Hok; [done|].
  unfold kept_portions in *. cbn [peaks_effect omap list_omap] in Hok |- *.
  destruct (skip peak); [|destruct (getFluxPortion peak) as [heavy|]].
  - destruct (pks !! j); [|done].
    cbn [eff_seq eff_children eff_error app] in Hok |- *. by apply IH.
  - cbn [eff_seq eff_children eff_error app imap] in Hok |- *.
    rewrite Z.add_0_r. simpl fst; simpl snd. f_equal.
    rewrite IH by done. apply imap_ext. intros k ph _. simpl. f_equal. lia.
  - destruct (pks !! j); [|done].
    cbn [eff_seq eff_children eff_error app] in Hok |- *. by apply IH.
Qed.

Lemma child_record_fields sid nid peak heavy :
  let c := child_record sid nid peak heavy in
  getFlag c psfKey = deblendedAsPsf peak
  /\ getFlag c hasStrayFluxKey = bool_decide (is_Some (strayFlux peak))
  /\ getFlag c deblendRampedTemplateKey = hasRampedTemplate peak
  /\ getFlag c deblendPatchedTemplateKey = patched peak
  /\ (deblendedAsPsf peak = true ->
      fields c !! psfCenterKey
      = Some (VPointD (fst (psfFitCenter peak)) (snd (psfFitCenter peak)))
      /\ fields c !! psfFluxKey = Some (VD (psfFitFlux peak)))
  /\ fields c !! nChildKey = None /\ fields c !! tooManyPeaksKey = None
  /\ fields c !! deblendFailedKey = None /\ fields c !! deblendSkippedKey = None.
Proof.
  unfold child_record, fill_record, getFlag.
  destruct (deblendedAsPsf peak); cbn [fields setField withFootprint withParent newRecord];
    repeat (rewrite lookup_insert_eq || rewrite lookup_insert_ne by done);
    rewrite ?lookup_empty; repeat split; done.
Qed.

Lemma fill_events_no_nchild sid row peak heavy :
  Forall (fun ev => forall r v, ev <> EvSet r nChildKey v) (fill_events sid row peak heavy).
Proof.
  unfold fill_events. destruct (deblendedAsPsf peak); simpl;
    repeat (constructor; [by intros r v [=]|]); constructor.
Qed.

(** The peak loop does not write [nchild]. *)
Lemma peaks_effect_no_nchild i sid pks total outs :
  forall j n nid,
    Forall (fun ev => forall r v, ev <> EvSet r nChildKey v)
      (eff_events (peaks_effect i sid pks total j outs n nid)).
Proof.
  induction outs as [|peak rest IH]; intros j n nid; simpl; [constructor|].
  destruct (skip peak); [|destruct (getFluxPortion peak) as [heavy|]].
  - destruct (pks !! j); simpl; [|constructor].
    do 2 (constructor; [by intros r v [=]|]). apply IH.
  - cbn [eff_seq eff_events].
    do 2 (constructor; [by intros r v [=]|]).
    apply Forall_app. split; [apply fill_events_no_nchild | apply IH].
  - destruct (pks !! j); simpl; [|constructor].
    do 2 (constructor; [by intros r v [=]|]). apply IH.
Qed.

(** The world after a candidate's turn that ended normally after the
    routine returned. *)
Lemma returned_turn_world self mi psf sigma1 i src nparents w res nparents' w' :
  rows w !! i = Some src ->
  is_candidate src = true ->
  baseline_deblend self (argsFor self mi psf sigma1 src) = Returns res ->
  deblend_src self mi psf sigma1 i src nparents w = Ok nparents' w' ->
  let pe := peaks_effect i (getId src) (getPeaks (getFootprint src))
              (length (peaks res)) 0 (peaks res) (length (rows w)) (nextId w) in
  let nchild := length (kept_portions (peaks res)) in
  eff_error pe = None
  /\ rows w' = <[i := after_turn self mi psf sigma1 src]> (rows w)
               ++ imap (fun k ph => child_record (getId src) (nextId w + Z.of_nat k) ph.1 ph.2)
                    (kept_portions (peaks res))
  /\ trace w' = trace w ++ dispatch_events self mi psf sigma1 i src
                  ++ [EvSet i deblendFailedKey (VFlag false)]
                  ++ eff_events pe
                  ++ [EvSet i nChildKey (VInt (Z.of_nat nchild));
                      EvPostHook i (length (rows w)) (seq (length (rows w)) nchild) res].
Proof.
  intros Hsrc Hcand Hret Hrun pe nchild.
  rewrite deblend_src_run in Hrun by (by eapply lookup_lt_Some).
  pose proof (src_effect_after_turn self mi psf sigma1 i src (length (rows w)) (nextId w))
    as Hafter.
  revert Hrun Hafter. unfold finish, src_effect. rewrite Hcand, Hret.
  fold pe. cbn [eff_error eff_parent eff_children eff_events].
  destruct (eff_error pe) eqn:Hok; [done|]. intros [= _ <-] Hafter.
  split; [done|].
  pose proof (peaks_effect_children_ok _ _ _ _ _ _ _ _ Hok) as Hch. fold pe in Hch.
  assert (Hn : length (eff_children pe) = nchild).
  { unfold nchild. by rewrite Hch, length_imap. }
  unfold apply_effect; cbn [rows trace eff_parent eff_children eff_events].
  rewrite Hn. split; [|done].
  rewrite <- Hch. f_equal.
  rewrite (alter_lookup_insert _ _ _ src) by done. f_equal.
  rewrite <- (Hafter eq_refl). by rewrite Hn.
Qed.

(** X12: when the routine returned for a candidate and its turn ended
    normally, the rows appended in the turn are the children of the kept
    outcomes, one each and in the order of the outcomes: the k-th
    appended row has the candidate's id as parent link, the flux portion
    of the k-th kept outcome as footprint and that outcome's flags; its PSF
    centre and flux are those of the outcome when it was fitted as a point
    source; none of the four fields written on candidates is written on
    it. *)
Theorem children_follow_kept_outcomes self mi psf sigma1 i src nparents w res nparents' w' :
  rows w !! i = Some src ->
  is_candidate src = true ->
  baseline_deblend self (argsFor self mi psf sigma1 src) = Returns res ->
  deblend_src self mi psf sigma1 i src nparents w = Ok nparents' w' ->
  length (rows w') = length (rows w) + length (kept_portions (peaks res))
  /\ forall k peak heavy,
       kept_portions (peaks res) !! k = Some (peak, heavy) ->
       exists child,
         rows w' !! (length (rows w) + k) = Some child
         /\ getParent child = getId src
         /\ getFootprint child = heavy
         /\ getFlag child psfKey = deblendedAsPsf peak
         /\ getFlag child hasStrayFluxKey = bool_decide (is_Some (strayFlux peak))
         /\ getFlag child deblendRampedTemplateKey = hasRampedTemplate peak
         /\ getFlag child deblendPatchedTemplateKey = patched peak
         /\ (deblendedAsPsf peak = true ->
             fields child !! psfCenterKey
             = Some (VPointD (fst (psfFitCenter peak)) (snd (psfFitCenter peak)))
             /\ fields child !! psfFluxKey = Some (VD (psfFitFlux peak)))
         /\ fields child !! nChildKey = None /\ fields child !! tooManyPeaksKey = None
         /\ fields child !! deblendFailedKey = None
         /\ fields child !! deblendSkippedKey = None.
Proof.
  intros Hsrc Hcand Hret Hrun.
  destruct (returned_turn_world _ _ _ _ _ _ _ _ _ _ _ Hsrc Hcand Hret Hrun)
    as (_ & Hrows & _).
  split.
  - by rewrite Hrows, length_app, length_insert, length_imap.
  - intros k peak heavy Hk.
    exists (child_record (getId src) (nextId w + Z.of_nat k) peak heavy).
    split.
    + rewrite Hrows, lookup_app_r by (rewrite length_insert; lia).
      rewrite length_insert. replace (length (rows w) + k - length (rows w)) with k by lia.
      rewrite list_lookup_imap, Hk. done.
    + split; [apply child_record_parent|]. split; [apply child_record_footprint|].
      apply child_record_fields.
Qed.

(** X13: when the routine returned for a candidate and its turn ended
    normally, the last two calls of the turn are the write of [nchild] on
    the candidate and the post-hook.  The post-hook is handed the
    candidate's position, the number of rows the catalog had when the
    turn began, the result of the routine and as kids the positions of
    the rows appended in the turn, all of them and in order; the value
    written to [nchild] is their number. *)
Theorem posthook_gets_the_appended_rows self mi psf sigma1 i src nparents w res nparents' w' :
  rows w !! i = Some src ->
  is_candidate src = true ->
  baseline_deblend self (argsFor self mi psf sigma1 src) = Returns res ->
  deblend_src self mi psf sigma1 i src nparents w = Ok nparents' w' ->
  let npre := length (rows w) in
  let kids := seq npre (length (rows w') - npre) in
  npre <= length (rows w')
  /\ nparents' = nparents + 1
  /\ exists evs,
       events_since w w'
       = evs ++ [EvSet i nChildKey (VInt (Z.of_nat (length kids)));
                 EvPostHook i npre kids res]
       /\ List.filter is_posthook evs = []
       /\ Forall (fun ev => forall v, ev <> EvSet i nChildKey v) evs.
Proof.
  intros Hsrc Hcand Hret Hrun npre kids.
  destruct (returned_turn_world _ _ _ _ _ _ _ _ _ _ _ Hsrc Hcand Hret Hrun)
    as (_ & Hrows & Htr).
  assert (Hlen : length (rows w') = npre + length (kept_portions (peaks res))).
  { by rewrite Hrows, length_app, length_insert, length_imap. }
  split; [lia|]. split.
  { rewrite deblend_src_run in Hrun by (by eapply lookup_lt_Some).
    unfold finish, nparents_after in Hrun. rewrite Hcand in Hrun.
    destruct (eff_error _); [done|]. by injection Hrun as <- _. }
  unfold kids. rewrite length_seq, Hlen.
  replace (npre + length (kept_portions (peaks res)) - npre)
    with (length (kept_portions (peaks res))) by lia.
  eexists. unfold events_since. rewrite Htr, drop_app_length.
  split; [by rewrite !app_assoc|]. split.
  - rewrite !List.filter_app.
    rewrite (filter_posthook_inner (eff_events _)) by apply peaks_effect_events. done.
  - apply Forall_app. split; [apply Forall_app; split|].
    + unfold dispatch_events. repeat (constructor; [by intros v [=]|]). constructor.
    + repeat (constructor; [by intros v [=]|]). constructor.
    + eapply Forall_impl; [apply peaks_effect_no_nchild|]. intros ev Hev v. apply Hev.
Qed.

(** ** When a turn raises *)

Lemma kept_false peak :
  kept peak = false <-> skip peak = true \/ getFluxPortion peak = None.
Proof.
  unfold kept. destruct (skip peak); simpl; [split; [by left | done]|].
  destruct (getFluxPortion peak) as [heavy|].
  - rewrite bool_decide_eq_true_2 by eauto. split; [done | by intros [?|?]].
  - rewrite bool_decide_eq_false_2 by (by intros [? ?]). split; [by right | done].
Qed.

(** The peak loop raises iff a dropped outcome lies beyond the peak
    list, and then it is IndexError. *)
Lemma peaks_effect_error i sid pks total outs :
  forall j n nid,
    (forall err, eff_error (peaks_effect i sid pks total j outs n nid) = Some err ->
                 err = IndexError)
    /\ (eff_error (peaks_effect i sid pks total j outs n nid) <> None
        <-> exists k peak,
              outs !! k = Some peak /\ kept peak = false /\ length pks <= j + k).
Proof.
  induction outs as [|peak rest IH]; intros j n nid.
  { split; [done|]. split; [done|]. by intros (k & peak & [=] & _). }
  assert (Hnext : forall n' nid',
    kept peak = true \/ j < length pks ->
    (eff_error (peaks_effect i sid pks total (S j) rest n' nid') <> None
     <-> exists k peak0,
           (peak :: rest) !! k = Some peak0 /\ kept peak0 = false /\ length pks <= j + k)).
  { intros n' nid' Hhead. rewrite (proj2 (IH (S j) n' nid')). split.
    - intros (k & peak0 & Hk & Hdrop & Hlen). exists (S k), peak0.
      split; [done|]. split; [done | lia].
    - intros ([|k] & peak0 & Hk & Hdrop & Hlen).
      + injection Hk as ->. destruct Hhead; [congruence | lia].
      + exists k, peak0. split; [done|]. split; [done | lia]. }
  assert (Hhere : kept peak = false -> pks !! j = None ->
    exists k peak0,
      (peak :: rest) !! k = Some peak0 /\ kept peak0 = false /\ length pks <= j + k).
  { intros Hdrop Hnone%lookup_ge_None. exists 0, peak. split; [done|]. split; [done | lia]. }
  cbn [peaks_effect].
  destruct (skip peak) eqn:Hs; [|destruct (getFluxPortion peak) as [heavy|] eqn:Hf].
  - assert (Hdrop : kept peak = false) by (apply kept_false; by left).
    destruct (pks !! j) as [pk|] eqn:Hpk; cbn [eff_seq eff_fail eff_error].
    + split; [apply IH|]. apply Hnext. right. by eapply lookup_lt_Some.
    + split; [by intros err [= <-]|]. split; [intros _; by apply Hhere | done].
  - cbn [eff_seq eff_error]. split; [apply IH|]. apply Hnext. left.
    destruct (kept peak) eqn:E; [done|]. apply kept_false in E as [?|?]; congruence.
  - assert (Hdrop : kept peak = false) by (apply kept_false; by right).
    destruct (pks !! j) as [pk|] eqn:Hpk; cbn [eff_seq eff_fail eff_error].
    + split; [apply IH|]. apply Hnext. right. by eapply lookup_lt_Some.
    + split; [by intros err [= <-]|]. split; [intros _; by apply Hhere | done].
Qed.

(** X14: the turn of a detection raises exactly when the routine returned
    for a candidate a result in which an outcome that is skip-flagged or
    without flux portion sits at a position beyond the candidate's peak
    list (the debug line about it reads [pks[j]]).  The exception is
    then IndexError; the candidate is left with [deblendFailed = False]
    and its [nchild] as it was, and the post-hook is not called. *)
Theorem turn_raises_iff_dropped_outcome_beyond_peaks self mi psf sigma1 i src nparents w :
  rows w !! i = Some src ->
  let r := deblend_src self mi psf sigma1 i src nparents w in
  ((exists e w', r = Raise e w')
   <-> 2 <= length (getPeaks (getFootprint src))
       /\ exists res k peak,
            baseline_deblend self (argsFor self mi psf sigma1 src) = Returns res
            /\ peaks res !! k = Some peak
            /\ (skip peak = true \/ getFluxPortion peak = None)
            /\ length (getPeaks (getFootprint src)) <= k)
  /\ forall e w',
       r = Raise e w' ->
       e = IndexError
       /\ List.filter is_posthook (events_since w w') = []
       /\ exists src',
            rows w' !! i = Some src'
            /\ fields src' !! deblendFailedKey = Some (VFlag false)
            /\ fields src' !! nChildKey = fields src !! nChildKey.
Proof.
  intros Hsrc r. apply lookup_lt_Some in Hsrc as Hi.
  assert (Hr : r = finish i (src_effect self mi psf sigma1 i src (length (rows w)) (nextId w))
                 (nparents_after src nparents) w)
    by (by apply deblend_src_run).
  clearbody r. subst r. unfold finish, src_effect. rewrite <- is_candidate_peaks.
  destruct (is_candidate src) eqn:Hcand.
  2:{ cbn [eff_error eff_nil]. split; [|done]. split; [by intros (? & ? & [=]) | by intros [[=] _]]. }
  destruct (baseline_deblend self (argsFor self mi psf sigma1 src)) as [res|ex] eqn:Hret.
  2:{ cbn [eff_error]. split; [|done].
      split; [by intros (? & ? & [=]) | by intros (_ & ? & ? & ? & [=] & _)]. }
  cbn [eff_error].
  set (pe := peaks_effect i (getId src) (getPeaks (getFootprint src)) (length (peaks res))
               0 (peaks res) (length (rows w)) (nextId w)).
  destruct (peaks_effect_error i (getId src) (getPeaks (getFootprint src))
              (length (peaks res)) (peaks res) 0 (length (rows w)) (nextId w))
    as [Hindex Hiff].
  fold pe in Hindex, Hiff. split.
  - split.
    + intros Hraise. split; [done|].
      assert (Herr : eff_error pe <> None).
      { destruct Hraise as (e & w' & Hraise). by destruct (eff_error pe). }
      apply Hiff in Herr as (k & peak & Hk & Hdrop%kept_false & Hlen).
      exists res, k, peak. by repeat split.
    + intros (_ & res' & k & peak & [= <-] & Hk & Hdrop%kept_false & Hlen).
      assert (Herr : eff_error pe <> None).
      { apply Hiff. exists k, peak. by repeat split. }
      destruct (eff_error pe); [eauto | done].
  - intros e w' Hraise.
    destruct (eff_error pe) as [err|] eqn:Herr; [|done].
    injection Hraise as <- <-. split; [by apply Hindex|]. split.
    + rewrite events_since_apply. cbn [eff_events]. rewrite app_nil_r.
      cbn [List.filter is_posthook].
      apply filter_posthook_inner, peaks_effect_events.
    + rewrite apply_effect_parent, Hsrc by done. eexists. split; [done|].
      cbn [eff_parent]. unfold pe. rewrite !peaks_effect_parent_fields by done.
      cbn [fields setField]. rewrite lookup_insert_eq.
      by rewrite !lookup_insert_ne by done.
Qed.

(** ** The further properties at concrete inputs *)

(** A run over [threeRows]: the dispatch for the blend at position 1 got
    the square root of the median variance 4. *)
Lemma dispatches_share_noise_and_options_witness :
  exists r a,
    run (taskWith defaultConfig failOnSeven) OverGrowingCatalog 10 exampleExposure
      examplePsf threeRows = Some r
    /\ EvDeblend a ∈ events_since threeRows (worldOf r)
    /\ arg_fp a = footprintOf [peakAt 7 7; peakAt 8 8]
    /\ arg_sigma1 a = 2%float
    /\ arg_psf a = examplePsf.
Proof.
  pose (r := default (Raise ValueError threeRows)
               (run (taskWith defaultConfig failOnSeven) OverGrowingCatalog 10
                  exampleExposure examplePsf threeRows)).
  pose (a := argsFor (taskWith defaultConfig failOnSeven) exampleImage examplePsf 2%float
               (detection 2 [peakAt 7 7; peakAt 8 8])).
  assert (Hrun : run (taskWith defaultConfig failOnSeven) OverGrowingCatalog 10
                   exampleExposure examplePsf threeRows = Some r)
    by (vm_compute; reflexivity).
  assert (Hin : EvDeblend a ∈ events_since threeRows (worldOf r)).
  { apply (list_elem_of_lookup_2 _ 4). vm_compute; reflexivity. }
  exists r, a. split; [exact Hrun|]. split; [exact Hin|]. split; [reflexivity|].
  destruct (dispatches_share_noise_and_options (taskWith defaultConfig failOnSeven)
              OverGrowingCatalog 10 exampleExposure examplePsf threeRows r
              Hrun a Hin) as (Hsigma & _ & Hpsf & _).
  split; [rewrite Hsigma; vm_compute; reflexivity | exact Hpsf].
Defined.


(** A run over [oneBlend] with the schema [__init__] makes of an empty one. *)
Lemma writes_fit_the_schema_of_init_witness :
  exists r,
    run (taskWith defaultConfig splitEachPeak) OverRowsAtStart 10 exampleExposure
      examplePsf oneBlend = Some r
    /\ EvSet 0 nChildKey (VInt 2) ∈ events_since oneBlend (worldOf r)
    /\ {| fieldName := nChildKey; fieldType := TypeInt |} ∈ (__init__ []).1.1.
Proof.
  pose (r := default (Raise ValueError oneBlend)
               (run (taskWith defaultConfig splitEachPeak) OverRowsAtStart 10
                  exampleExposure examplePsf oneBlend)).
  assert (Hrun : run (taskWith defaultConfig splitEachPeak) OverRowsAtStart 10
                   exampleExposure examplePsf oneBlend = Some r)
    by (vm_compute; reflexivity).
  assert (Hin : EvSet 0 nChildKey (VInt 2) ∈ events_since oneBlend (worldOf r)).
  { apply (list_elem_of_lookup_2 _ 22). vm_compute; reflexivity. }
  exists r. split; [exact Hrun|]. split; [exact Hin|].
  destruct (writes_fit_the_schema_of_init [] (taskWith defaultConfig splitEachPeak)
              OverRowsAtStart 10 exampleExposure examplePsf oneBlend r Hrun)
    as (_ & _ & Hwrites).
  exact (Hwrites 0 nChildKey (VInt 2) Hin).
Defined.

(** The run over [threeRows]: of 3 sources 2 were deblended (one of them
    failed), creating 2 children. *)
Lemma closing_line_counts_the_calls_witness :
  exists w',
    run (taskWith defaultConfig failOnSeven) OverGrowingCatalog 10 exampleExposure
      examplePsf threeRows = Some (Ok tt w')
    /\ length (rows w') = 3 + length (List.filter is_addNew (events_since threeRows w'))
    /\ length (List.filter is_dispatch (events_since threeRows w'))
       = length (List.filter is_posthook (events_since threeRows w'))
         + length (List.filter is_print_exc (events_since threeRows w'))
    /\ length (List.filter is_dispatch (events_since threeRows w')) = 2
    /\ length (List.filter is_print_exc (events_since threeRows w')) = 1.
Proof.
  pose (w' := worldOf (default (Raise ValueError threeRows)
                (run (taskWith defaultConfig failOnSeven) OverGrowingCatalog 10
                   exampleExposure examplePsf threeRows))).
  assert (Hrun : run (taskWith defaultConfig failOnSeven) OverGrowingCatalog 10
                   exampleExposure examplePsf threeRows = Some (Ok tt w'))
    by (vm_compute; reflexivity).
  exists w'. split; [exact Hrun|].
  destruct (closing_line_counts_the_calls (taskWith defaultConfig failOnSeven)
              OverGrowingCatalog 10 exampleExposure examplePsf threeRows w' Hrun)
    as (Hlen & _ & _ & Hsum).
  split; [exact Hlen|]. split; [exact Hsum|].
  split; vm_compute; reflexivity.
Defined.

(** The run over [threeRows]: the blend of three peaks is still at
    position 2, with its id and footprint. *)
Lemma rows_at_call_start_keep_identity_witness :
  exists r src',
    run (taskWith defaultConfig failOnSeven) OverGrowingCatalog 10 exampleExposure
      examplePsf threeRows = Some r
    /\ length (rows threeRows) <= length (rows (worldOf r))
    /\ rows (worldOf r) !! 2 = Some src'
    /\ getId src' = 3%Z
    /\ getFootprint src' = footprintOf [peakAt 0 3; peakAt 3 3; peakAt (-1) 3].
Proof.
  pose (r := default (Raise ValueError threeRows)
               (run (taskWith defaultConfig failOnSeven) OverGrowingCatalog 10
                  exampleExposure examplePsf threeRows)).
  assert (Hrun : run (taskWith defaultConfig failOnSeven) OverGrowingCatalog 10
                   exampleExposure examplePsf threeRows = Some r)
    by (vm_compute; reflexivity).
  destruct (rows_at_call_start_keep_identity (taskWith defaultConfig failOnSeven)
              OverGrowingCatalog 10 exampleExposure examplePsf threeRows r Hrun)
    as (Hlen & Hrows).
  destruct (Hrows 2 (detection 3 [peakAt 0 3; peakAt 3 3; peakAt (-1) 3]) eq_refl)
    as (src' & Hsrc' & Hid & _ & Hfp & _).
  exists r, src'. split; [exact Hrun|]. split; [exact Hlen|]. split; [exact Hsrc'|].
  split; [exact Hid | exact Hfp].
Defined.

(** The blend of three peaks of [threeRows]: its second kept outcome, for
    the peak at (3,3), is the row appended second. *)
Lemma children_follow_kept_outcomes_witness :
  exists w' child,
    deblend_src (taskWith defaultConfig failOnSeven) exampleImage examplePsf 2%float
      2 (detection 3 [peakAt 0 3; peakAt 3 3; peakAt (-1) 3]) 1 threeRows = Ok 2 w'
    /\ length (rows w') = 5
    /\ rows w' !! 4 = Some child
    /\ getParent child = 3%Z
    /\ getFootprint child = footprintOf [peakAt 3 3]
    /\ getFlag child psfKey = false.
Proof.
  pose (src := detection 3 [peakAt 0 3; peakAt 3 3; peakAt (-1) 3]).
  pose (w' := worldOf (deblend_src (taskWith defaultConfig failOnSeven) exampleImage
                         examplePsf 2%float 2 src 1 threeRows)).
  pose (res := {| peaks := [outcomeFor (peakAt 0 3) (Some (footprintOf [peakAt 0 3]));
                            outcomeFor (peakAt 3 3) (Some (footprintOf [peakAt 3 3]));
                            outcomeFor (peakAt (-1) 3) (Some (footprintOf [peakAt (-1) 3]))] |}).
  assert (Hrun : deblend_src (taskWith defaultConfig failOnSeven) exampleImage examplePsf
                   2%float 2 src 1 threeRows = Ok 2 w')
    by (vm_compute; reflexivity).
  destruct (children_follow_kept_outcomes (taskWith defaultConfig failOnSeven) exampleImage
              examplePsf 2%float 2 src 1 threeRows res 2 w')
    as (Hlen & Hkids).
  - reflexivity.
  - reflexivity.
  - reflexivity.
  - exact Hrun.
  - destruct (Hkids 1 (outcomeFor (peakAt 3 3) (Some (footprintOf [peakAt 3 3])))
                (footprintOf [peakAt 3 3]) eq_refl)
      as (child & Hchild & Hparent & Hfp & Hpsf & _).
    exists w', child. split; [exact Hrun|]. split; [exact Hlen|].
    split; [exact Hchild|]. split; [exact Hparent|]. split; [exact Hfp | exact Hpsf].
Defined.

(** A result with one outcome more than the blend has peaks, the extra
    one skip-flagged: the turn raises IndexError. *)
Lemma turn_raises_iff_dropped_outcome_beyond_peaks_witness :
  exists w',
    deblend_src (taskWith defaultConfig oneTooMany) exampleImage examplePsf 2%float
      0 (detection 1 [peakAt 1 1; peakAt 2 2]) 0 oneBlend = Raise IndexError w'
    /\ List.filter is_posthook (events_since oneBlend w') = [].
Proof.
  destruct (turn_raises_iff_dropped_outcome_beyond_peaks (taskWith defaultConfig oneTooMany)
              exampleImage examplePsf 2%float 0 (detection 1 [peakAt 1 1; peakAt 2 2])
              0 oneBlend eq_refl) as [Hiff Hraise].
  destruct (proj2 Hiff) as (e & w' & Hrun).
  - split; [simpl; lia|].
    exists {| peaks := [outcomeFor (peakAt 1 1) (Some (footprintOf [peakAt 1 1]));
                        outcomeFor (peakAt 2 2) (Some (footprintOf [peakAt 2 2]));
                        outcomeFor (peakAt (-1) 0) None] |},
           2, (outcomeFor (peakAt (-1) 0) None).
    split; [reflexivity|]. split; [reflexivity|]. split; [left; reflexivity | simpl; lia].
  - destruct (Hraise e w' Hrun) as (He & Hpost & _).
    exists w'. split; [by rewrite <- He | exact Hpost].
Defined.

(** The blend of three peaks of [threeRows]: the post-hook is handed
    position 2, the 3 rows there were and the kids at positions 3 and 4. *)
Lemma posthook_gets_the_appended_rows_witness :
  exists w' res evs,
    deblend_src (taskWith defaultConfig failOnSeven) exampleImage examplePsf 2%float
      2 (detection 3 [peakAt 0 3; peakAt 3 3; peakAt (-1) 3]) 1 threeRows = Ok 2 w'
    /\ events_since threeRows w'
       = evs ++ [EvSet 2 nChildKey (VInt 2); EvPostHook 2 3 [3; 4] res].
Proof.
  pose (src := detection 3 [peakAt 0 3; peakAt 3 3; peakAt (-1) 3]).
  pose (w' := worldOf (deblend_src (taskWith defaultConfig failOnSeven) exampleImage
                         examplePsf 2%float 2 src 1 threeRows)).
  pose (res := {| peaks := [outcomeFor (peakAt 0 3) (Some (footprintOf [peakAt 0 3]));
                            outcomeFor (peakAt 3 3) (Some (footprintOf [peakAt 3 3]));
                            outcomeFor (peakAt (-1) 3) (Some (footprintOf [peakAt (-1) 3]))] |}).
  assert (Hrun : deblend_src (taskWith defaultConfig failOnSeven) exampleImage examplePsf
                   2%float 2 src 1 threeRows = Ok 2 w')
    by (vm_compute; reflexivity).
  assert (Hlen : length (rows w') - length (rows threeRows) = 2)
    by (vm_compute; reflexivity).
  destruct (posthook_gets_the_appended_rows (taskWith defaultConfig failOnSeven) exampleImage
              examplePsf 2%float 2 src 1 threeRows res 2 w')
    as (_ & _ & evs & Hevs & _).
  - reflexivity.
  - reflexivity.
  - reflexivity.
  - exact Hrun.
  - exists w', res, evs. split; [exact Hrun|].
    rewrite Hlen in Hevs. exact Hevs.
Defined.


(** Every flux portion of [splitEachPeak] has one peak. *)
Lemma iterators_agree_without_nested_blends_witness :
  exists r fuel,
    run (taskWith defaultConfig splitEachPeak) OverRowsAtStart 4 exampleExposure
      examplePsf threeRows = Some r
    /\ run (taskWith defaultConfig splitEachPeak) OverGrowingCatalog fuel exampleExposure
         examplePsf threeRows = Some r.
Proof.
  destruct (iterators_agree_without_nested_blends (taskWith defaultConfig splitEachPeak)
              exampleExposure examplePsf threeRows) as (r & Hbounded & (fuel & Hgrowing) & _).
  - intros fp (a & res & peak & Hret & Hin & Hflux).
    injection Hret as <-. simpl in Hin.
    apply list_elem_of_lookup in Hin as (j & Hj).
    rewrite list_lookup_imap in Hj.
    destruct (getPeaks (arg_fp a) !! j) as [pk|]; [|done].
    injection Hj as <-. simpl in Hflux.
    destruct (_ && _); [done|]. injection Hflux as <-. simpl; lia.
  - exists r, fuel. split; [exact Hbounded | exact Hgrowing].
Defined.

(** The run over [threeRows]: the isolated source is as it was, the blend
    on which the routine raised is marked as failed. *)
Lemma detections_are_handled_independently_witness :
  exists w',
    run (taskWith defaultConfig failOnSeven) OverGrowingCatalog 10 exampleExposure
      examplePsf threeRows = Some (Ok tt w')
    /\ rows w' !! 0 = Some (detection 1 [peakAt 4 4])
    /\ rows w' !! 1
       = Some (markFailed (taskWith defaultConfig failOnSeven)
                 (detection 2 [peakAt 7 7; peakAt 8 8])).
Proof.
  pose (w' := worldOf (default (Raise ValueError threeRows)
                (run (taskWith defaultConfig failOnSeven) OverGrowingCatalog 10
                   exampleExposure examplePsf threeRows))).
  assert (Hrun : run (taskWith defaultConfig failOnSeven) OverGrowingCatalog 10
                   exampleExposure examplePsf threeRows = Some (Ok tt w'))
    by (vm_compute; reflexivity).
  exists w'. split; [exact Hrun|]. split.
  - destruct (detections_are_handled_independently (taskWith defaultConfig failOnSeven)
                OverGrowingCatalog 10 exampleExposure examplePsf threeRows w' Hrun
                0 (detection 1 [peakAt 4 4]) eq_refl) as (_ & Hsame & _).
    apply Hsame. simpl; lia.
  - destruct (detections_are_handled_independently (taskWith defaultConfig failOnSeven)
                OverGrowingCatalog 10 exampleExposure examplePsf threeRows w' Hrun
                1 (detection 2 [peakAt 7 7; peakAt 8 8]) eq_refl) as (_ & _ & Hfailed & _).
    apply (Hfailed eq_refl {| message := "no template" |}). reflexivity.
Defined.

(** Two calls on [oneBlend]: the second appends two rows again and
    leaves the blend's record as the first call left it. *)
Lemma second_call_keeps_the_records_witness :
  exists w' w'',
    run (taskWith defaultConfig splitEachPeak) OverRowsAtStart 10 exampleExposure
      examplePsf oneBlend = Some (Ok tt w')
    /\ run (taskWith defaultConfig splitEachPeak) OverRowsAtStart 10 exampleExposure
         examplePsf w' = Some (Ok tt w'')
    /\ rows w'' !! 0 = rows w' !! 0
    /\ length (rows w') = 3 /\ length (rows w'') = 5.
Proof.
  pose (w' := worldOf (default (Raise ValueError oneBlend)
                (run (taskWith defaultConfig splitEachPeak) OverRowsAtStart 10
                   exampleExposure examplePsf oneBlend))).
  pose (w'' := worldOf (default (Raise ValueError oneBlend)
                 (run (taskWith defaultConfig splitEachPeak) OverRowsAtStart 10
                    exampleExposure examplePsf w'))).
  assert (Hrun : run (taskWith defaultConfig splitEachPeak) OverRowsAtStart 10
                   exampleExposure examplePsf oneBlend = Some (Ok tt w'))
    by (vm_compute; reflexivity).
  assert (Hrun' : run (taskWith defaultConfig splitEachPeak) OverRowsAtStart 10
                    exampleExposure examplePsf w' = Some (Ok tt w''))
    by (vm_compute; reflexivity).
  exists w', w''. split; [exact Hrun|]. split; [exact Hrun'|].
  destruct (second_call_keeps_the_records (taskWith defaultConfig splitEachPeak)
              OverRowsAtStart OverRowsAtStart 10 10 exampleExposure examplePsf
              oneBlend w' w'' Hrun Hrun') as (_ & Hsame).
  split; [apply Hsame; simpl; lia|].
  split; vm_compute; reflexivity.
Defined.
